(** * A shallow embedding of the B+ tree index of [btree.cpp]

    The index keeps 32-bit integer keys with their record ids in the pages of
    a blob file that it reaches through a buffer manager.  The development
    follows the source function by function: the page structures, the
    descent ([searchEntry]), the leaf insertion and split, the internal
    insertion and split, the scan state machine and the constructor.

    Conventions of the model.
    - An [int] is a [Z]; keys are only compared, indices stay far from the
      word bounds.  The one place where an [int] is stored into an unsigned
      page number converts it modulo 2^32.
    - A C array is a total map from its index to its element.  C++ leaves an
      access outside the declared bounds undefined; the model gives every
      array its own index space, so such a read returns whatever the map
      holds there and such a write stays inside the array.
    - A page of the file is a header page, a leaf or an internal node.  The
      source casts the page buffer to the structure it expects; a cast to a
      structure that the page does not hold, the use of a local variable
      that was never assigned and a descent that never ends are reported as
      [Undefined].
    - Exceptions leave the assignments made before them in place, so every
      operation returns its outcome together with the state it leaves. *)

From Stdlib Require Import ZArith Lia Bool List Permutation Sorted.
From stdpp Require Import base gmap strings.

Open Scope Z_scope.

(** ** Page structures *)

Definition PageId := Z.

(** [Page::INVALID_NUMBER] of the page layer. *)
Definition INVALID_NUMBER : PageId := 0.

Record RecordId := mkRid { page_number : Z; slot_number : Z }.

Inductive Datatype := INTEGER | DOUBLE | STRING.

Inductive Operator := LT | LTE | GTE | GT.

Definition Datatype_eqb (a b : Datatype) : bool :=
  match a, b with
  | INTEGER, INTEGER | DOUBLE, DOUBLE | STRING, STRING => true
  | _, _ => false
  end.

Definition Operator_eqb (a b : Operator) : bool :=
  match a, b with
  | LT, LT | LTE, LTE | GTE, GTE | GT, GT => true
  | _, _ => false
  end.

(** Arrays: [a i] reads [a[i]], [aset a i v] is [a[i] = v]. *)
Definition aset {A : Type} (a : Z -> A) (i : Z) (v : A) : Z -> A :=
  fun j => if j =? i then v else a j.

Record IndexMetaInfo := mkMeta {
  relationName : string;
  attrByteOffset : Z;
  attrType : Datatype;
  rootPageNo : PageId
}.

Module Leaf.
Record t := mk {
  numOccupied : Z;
  keyArray : Z -> Z;
  ridArray : Z -> RecordId;
  rightSibPageNo : PageId
}.
Definition set_numOccupied (v : Z) (l : t) : t :=
  mk v (keyArray l) (ridArray l) (rightSibPageNo l).
Definition set_key (i v : Z) (l : t) : t :=
  mk (numOccupied l) (aset (keyArray l) i v) (ridArray l) (rightSibPageNo l).
Definition set_rid (i : Z) (v : RecordId) (l : t) : t :=
  mk (numOccupied l) (keyArray l) (aset (ridArray l) i v) (rightSibPageNo l).
Definition set_rightSibPageNo (v : PageId) (l : t) : t :=
  mk (numOccupied l) (keyArray l) (ridArray l) v.
End Leaf.

Module NonLeaf.
Record t := mk {
  level : Z;
  numOccupied : Z;
  keyArray : Z -> Z;
  pageNoArray : Z -> PageId
}.
Definition set_level (v : Z) (n : t) : t :=
  mk v (numOccupied n) (keyArray n) (pageNoArray n).
Definition set_numOccupied (v : Z) (n : t) : t :=
  mk (level n) v (keyArray n) (pageNoArray n).
Definition set_key (i v : Z) (n : t) : t :=
  mk (level n) (numOccupied n) (aset (keyArray n) i v) (pageNoArray n).
Definition set_pageNo (i : Z) (v : PageId) (n : t) : t :=
  mk (level n) (numOccupied n) (keyArray n) (aset (pageNoArray n) i v).
End NonLeaf.

Inductive Page :=
| MetaPage (m : IndexMetaInfo)
| LeafPage (l : Leaf.t)
| NonLeafPage (n : NonLeaf.t).

(** ** The buffer manager over the index file

    [pages] are the pages of the file as the buffer manager shows them.
    [allocPage] returns a page whose content is undefined: [undefMeta p],
    [undefLeaf p] and [undefNonLeaf p] are what the bytes of the fresh page
    [p] read as under the three casts. *)
Record BufMgr := mkBuf {
  pages : gmap Z Page;
  undefMeta : PageId -> IndexMetaInfo;
  undefLeaf : PageId -> Leaf.t;
  undefNonLeaf : PageId -> NonLeaf.t
}.

Definition set_pages (ps : gmap Z Page) (b : BufMgr) : BufMgr :=
  mkBuf ps (undefMeta b) (undefLeaf b) (undefNonLeaf b).

(** ** The index object *)
Record BTreeIndex := mkIndex {
  bufMgr : BufMgr;
  headerPageNum : PageId;
  rootPageNum : PageId;
  attributeType : Datatype;
  attrByteOffset_ : Z;
  leafOccupancy : Z;
  nodeOccupancy : Z;
  onlyOneRoot : bool;
  scanExecuting : bool;
  nextEntry : Z;
  currentPageNum : PageId;
  lowValInt : Z;
  highValInt : Z;
  lowOp : Operator;
  highOp : Operator
}.

Definition set_bufMgr (v : BufMgr) (s : BTreeIndex) : BTreeIndex :=
  mkIndex v (headerPageNum s) (rootPageNum s) (attributeType s)
    (attrByteOffset_ s) (leafOccupancy s) (nodeOccupancy s) (onlyOneRoot s)
    (scanExecuting s) (nextEntry s) (currentPageNum s) (lowValInt s)
    (highValInt s) (lowOp s) (highOp s).
Definition set_headerPageNum (v : PageId) (s : BTreeIndex) : BTreeIndex :=
  mkIndex (bufMgr s) v (rootPageNum s) (attributeType s)
    (attrByteOffset_ s) (leafOccupancy s) (nodeOccupancy s) (onlyOneRoot s)
    (scanExecuting s) (nextEntry s) (currentPageNum s) (lowValInt s)
    (highValInt s) (lowOp s) (highOp s).
Definition set_rootPageNum (v : PageId) (s : BTreeIndex) : BTreeIndex :=
  mkIndex (bufMgr s) (headerPageNum s) v (attributeType s)
    (attrByteOffset_ s) (leafOccupancy s) (nodeOccupancy s) (onlyOneRoot s)
    (scanExecuting s) (nextEntry s) (currentPageNum s) (lowValInt s)
    (highValInt s) (lowOp s) (highOp s).
Definition set_attributeType (v : Datatype) (s : BTreeIndex) : BTreeIndex :=
  mkIndex (bufMgr s) (headerPageNum s) (rootPageNum s) v
    (attrByteOffset_ s) (leafOccupancy s) (nodeOccupancy s) (onlyOneRoot s)
    (scanExecuting s) (nextEntry s) (currentPageNum s) (lowValInt s)
    (highValInt s) (lowOp s) (highOp s).
Definition set_attrByteOffset (v : Z) (s : BTreeIndex) : BTreeIndex :=
  mkIndex (bufMgr s) (headerPageNum s) (rootPageNum s) (attributeType s)
    v (leafOccupancy s) (nodeOccupancy s) (onlyOneRoot s)
    (scanExecuting s) (nextEntry s) (currentPageNum s) (lowValInt s)
    (highValInt s) (lowOp s) (highOp s).
Definition set_leafOccupancy (v : Z) (s : BTreeIndex) : BTreeIndex :=
  mkIndex (bufMgr s) (headerPageNum s) (rootPageNum s) (attributeType s)
    (attrByteOffset_ s) v (nodeOccupancy s) (onlyOneRoot s)
    (scanExecuting s) (nextEntry s) (currentPageNum s) (lowValInt s)
    (highValInt s) (lowOp s) (highOp s).
Definition set_nodeOccupancy (v : Z) (s : BTreeIndex) : BTreeIndex :=
  mkIndex (bufMgr s) (headerPageNum s) (rootPageNum s) (attributeType s)
    (attrByteOffset_ s) (leafOccupancy s) v (onlyOneRoot s)
    (scanExecuting s) (nextEntry s) (currentPageNum s) (lowValInt s)
    (highValInt s) (lowOp s) (highOp s).
Definition set_onlyOneRoot (v : bool) (s : BTreeIndex) : BTreeIndex :=
  mkIndex (bufMgr s) (headerPageNum s) (rootPageNum s) (attributeType s)
    (attrByteOffset_ s) (leafOccupancy s) (nodeOccupancy s) v
    (scanExecuting s) (nextEntry s) (currentPageNum s) (lowValInt s)
    (highValInt s) (lowOp s) (highOp s).
Definition set_scanExecuting (v : bool) (s : BTreeIndex) : BTreeIndex :=
  mkIndex (bufMgr s) (headerPageNum s) (rootPageNum s) (attributeType s)
    (attrByteOffset_ s) (leafOccupancy s) (nodeOccupancy s) (onlyOneRoot s)
    v (nextEntry s) (currentPageNum s) (lowValInt s)
    (highValInt s) (lowOp s) (highOp s).
Definition set_nextEntry (v : Z) (s : BTreeIndex) : BTreeIndex :=
  mkIndex (bufMgr s) (headerPageNum s) (rootPageNum s) (attributeType s)
    (attrByteOffset_ s) (leafOccupancy s) (nodeOccupancy s) (onlyOneRoot s)
    (scanExecuting s) v (currentPageNum s) (lowValInt s)
    (highValInt s) (lowOp s) (highOp s).
Definition set_currentPageNum (v : PageId) (s : BTreeIndex) : BTreeIndex :=
  mkIndex (bufMgr s) (headerPageNum s) (rootPageNum s) (attributeType s)
    (attrByteOffset_ s) (leafOccupancy s) (nodeOccupancy s) (onlyOneRoot s)
    (scanExecuting s) (nextEntry s) v (lowValInt s)
    (highValInt s) (lowOp s) (highOp s).
Definition set_lowValInt (v : Z) (s : BTreeIndex) : BTreeIndex :=
  mkIndex (bufMgr s) (headerPageNum s) (rootPageNum s) (attributeType s)
    (attrByteOffset_ s) (leafOccupancy s) (nodeOccupancy s) (onlyOneRoot s)
    (scanExecuting s) (nextEntry s) (currentPageNum s) v
    (highValInt s) (lowOp s) (highOp s).
Definition set_highValInt (v : Z) (s : BTreeIndex) : BTreeIndex :=
  mkIndex (bufMgr s) (headerPageNum s) (rootPageNum s) (attributeType s)
    (attrByteOffset_ s) (leafOccupancy s) (nodeOccupancy s) (onlyOneRoot s)
    (scanExecuting s) (nextEntry s) (currentPageNum s) (lowValInt s)
    v (lowOp s) (highOp s).
Definition set_lowOp (v : Operator) (s : BTreeIndex) : BTreeIndex :=
  mkIndex (bufMgr s) (headerPageNum s) (rootPageNum s) (attributeType s)
    (attrByteOffset_ s) (leafOccupancy s) (nodeOccupancy s) (onlyOneRoot s)
    (scanExecuting s) (nextEntry s) (currentPageNum s) (lowValInt s)
    (highValInt s) v (highOp s).
Definition set_highOp (v : Operator) (s : BTreeIndex) : BTreeIndex :=
  mkIndex (bufMgr s) (headerPageNum s) (rootPageNum s) (attributeType s)
    (attrByteOffset_ s) (leafOccupancy s) (nodeOccupancy s) (onlyOneRoot s)
    (scanExecuting s) (nextEntry s) (currentPageNum s) (lowValInt s)
    (highValInt s) (lowOp s) v.

(** ** Outcomes: a value or an exception, with the state left behind *)

Inductive Exception :=
| BadIndexInfoException
| BadOpcodesException
| BadScanrangeException
| NoSuchKeyFoundException
| ScanNotInitializedException
| IndexScanCompletedException
| InvalidPageException
| Undefined.

Inductive Outcome (A : Type) :=
| Ok (a : A)
| Throw (e : Exception).
Arguments Ok {A} a.
Arguments Throw {A} e.

Definition M (A : Type) : Type := BTreeIndex -> Outcome A * BTreeIndex.

Definition ret {A : Type} (a : A) : M A := fun s => (Ok a, s).
Definition throw {A : Type} (e : Exception) : M A := fun s => (Throw e, s).
Definition bind {A B : Type} (m : M A) (k : A -> M B) : M B :=
  fun s => match m s with
           | (Ok a, s') => k a s'
           | (Throw e, s') => (Throw e, s')
           end.
Definition get {A : Type} (f : BTreeIndex -> A) : M A := fun s => (Ok (f s), s).
Definition modify (f : BTreeIndex -> BTreeIndex) : M unit :=
  fun s => (Ok tt, f s).

Notation "x <- m ;; k" := (bind m (fun x => k))
  (at level 100, m at next level, right associativity).
Notation "m ;;; k" := (bind m (fun _ => k))
  (at level 100, right associativity).

(** [readPage] followed by the cast of the source. *)
Definition readPage (pageNo : PageId) : M Page :=
  fun s => match pages (bufMgr s) !! pageNo with
           | Some p => (Ok p, s)
           | None => (Throw InvalidPageException, s)
           end.

Definition readLeaf (pageNo : PageId) : M Leaf.t :=
  p <- readPage pageNo ;;
  match p with LeafPage l => ret l | _ => throw Undefined end.

Definition readNonLeaf (pageNo : PageId) : M NonLeaf.t :=
  p <- readPage pageNo ;;
  match p with NonLeafPage n => ret n | _ => throw Undefined end.

Definition readMeta (pageNo : PageId) : M IndexMetaInfo :=
  p <- readPage pageNo ;;
  match p with MetaPage m => ret m | _ => throw Undefined end.

(** [unPinPage (.., true)]: the content written through the pointer is the
    content of the page from now on. *)
Definition writePage (pageNo : PageId) (p : Page) : M unit :=
  modify (fun s => set_bufMgr (set_pages (<[pageNo := p]> (pages (bufMgr s))) (bufMgr s)) s).

(** [allocPage]: the next page number of the file; pages are never freed. *)
Definition nextPageNo (b : BufMgr) : PageId := Z.of_nat (size (pages b)) + 1.

Definition allocMeta : M (PageId * IndexMetaInfo) :=
  fun s => let p := nextPageNo (bufMgr s) in
           let m := undefMeta (bufMgr s) p in
           (Ok (p, m),
            set_bufMgr (set_pages (<[p := MetaPage m]> (pages (bufMgr s))) (bufMgr s)) s).

Definition allocLeaf : M (PageId * Leaf.t) :=
  fun s => let p := nextPageNo (bufMgr s) in
           let l := undefLeaf (bufMgr s) p in
           (Ok (p, l),
            set_bufMgr (set_pages (<[p := LeafPage l]> (pages (bufMgr s))) (bufMgr s)) s).

Definition allocNonLeaf : M (PageId * NonLeaf.t) :=
  fun s => let p := nextPageNo (bufMgr s) in
           let n := undefNonLeaf (bufMgr s) p in
           (Ok (p, n),
            set_bufMgr (set_pages (<[p := NonLeafPage n]> (pages (bufMgr s))) (bufMgr s)) s).

(** ** Descent: [searchEntry]

    [visitedNodes] is used as a stack: the list keeps the back of the vector
    at its head, so [push_back] is a cons and the last visited node is the
    head. *)

Fixpoint searchEntry_loop (n : nat) (key : Z) (currNode : NonLeaf.t) (i : Z) : Z :=
  match n with
  | O => i
  | S n' =>
    if i <? NonLeaf.numOccupied currNode then
      if NonLeaf.keyArray currNode i <? key
      then searchEntry_loop n' key currNode (i + 1)
      else i
    else i
  end.

(** The recursion of the source has no bound of its own; [fuel] counts the
    internal nodes that the descent may still visit. *)
Fixpoint searchEntry (fuel : nat) (key : Z) (rootPageNum : PageId)
    (visitedNodes : list PageId) : M (PageId * list PageId) :=
  one <- get onlyOneRoot ;;
  if (one : bool) then ret (rootPageNum, visitedNodes)
  else
    match fuel with
    | O => throw Undefined
    | S fuel' =>
      currNode <- readNonLeaf rootPageNum ;;
      let i := searchEntry_loop (Z.to_nat (NonLeaf.numOccupied currNode)) key currNode 0 in
      if NonLeaf.level currNode =? 0
      then searchEntry fuel' key (NonLeaf.pageNoArray currNode i) (rootPageNum :: visitedNodes)
      else ret (NonLeaf.pageNoArray currNode i, rootPageNum :: visitedNodes)
    end.

(** A descent that visits more internal nodes than the file has pages
    visits one of them twice and never ends. *)
Definition descentFuel (s : BTreeIndex) : nat := S (size (pages (bufMgr s))).

(** The header page gets the new root (end of [splitLeaf] and of
    [splitInternal]). *)
Definition updateHeaderRoot (rootId : PageId) : M unit :=
  hp <- get headerPageNum ;;
  metadata <- readMeta hp ;;
  writePage hp (MetaPage (mkMeta (relationName metadata) (attrByteOffset metadata)
                            (attrType metadata) rootId)).

(** ** Internal nodes: [insertEntryInternal] and [splitInternal] *)

Fixpoint insertEntryInternal_loop (n : nat) (key : Z) (c : NonLeaf.t) (i : Z)
    : NonLeaf.t * Z :=
  match n with
  | O => (c, i)
  | S n' =>
    let N := NonLeaf.numOccupied c in
    if i <? N then
      if key >? NonLeaf.keyArray c (N - 1 - i) then (c, i)
      else
        let c := NonLeaf.set_pageNo (N - 1 - i + 1) (NonLeaf.pageNoArray c (N - 1 - i)) c in
        let c := NonLeaf.set_key (N - 1 - i + 1) (NonLeaf.keyArray c (N - 1 - i)) c in
        insertEntryInternal_loop n' key c (i + 1)
    else (c, i)
  end.

(** The branch of [insertEntryInternal] that stores the pair in the node. *)
Definition insertEntryInternal_store (key : Z) (newPageNo : PageId) (splitFromLeaf : bool)
    (c : NonLeaf.t) : NonLeaf.t :=
  let N := NonLeaf.numOccupied c in
  let c := NonLeaf.set_pageNo (N + 1) (NonLeaf.pageNoArray c N) c in
  let '(c, i) := insertEntryInternal_loop (Z.to_nat N) key c 0 in
  if splitFromLeaf then
    let c := NonLeaf.set_pageNo (N - i) (NonLeaf.pageNoArray c (N - i + 1)) c in
    let c := NonLeaf.set_key (N - i) key c in
    let c := NonLeaf.set_pageNo (N - i + 1) newPageNo c in
    NonLeaf.set_numOccupied (N + 1) c
  else
    let c := NonLeaf.set_pageNo (N - i) newPageNo c in
    let c := NonLeaf.set_key (N - i) key c in
    NonLeaf.set_numOccupied (N + 1) c.

(** [ceil((n+1)/2)] of the source: the division is the integer one, the
    [ceil] is applied to its result. *)
Definition capacityOf (occupancy : Z) : Z := Z.quot (occupancy + 1) 2.

(** An [int] stored into a page number. *)
Definition toPageId (v : Z) : PageId := v mod 2 ^ 32.

Record SplitInternalState := mkSIS {
  si_cur : NonLeaf.t;
  si_new : NonLeaf.t;
  si_inserted : bool;
  si_propagateUpKey : option Z
}.

Definition incr (n : NonLeaf.t) : NonLeaf.t :=
  NonLeaf.set_numOccupied (NonLeaf.numOccupied n + 1) n.
Definition decr (n : NonLeaf.t) : NonLeaf.t :=
  NonLeaf.set_numOccupied (NonLeaf.numOccupied n - 1) n.

(** The part of the loop body of [splitInternal] that runs in every branch
    once the incoming key is placed or passed: the old entry [i] goes to its
    place. [shift] is the extra offset of the branch. *)
Definition splitInternal_move (capacity i shift newIdx : Z) (st : SplitInternalState)
    : SplitInternalState :=
  let c := si_cur st in
  let nw := si_new st in
  if NonLeaf.numOccupied nw >? capacity then
    let d := i - (NonLeaf.numOccupied nw - 1) - shift in
    let c := NonLeaf.set_key d (NonLeaf.keyArray c i) c in
    let c := NonLeaf.set_pageNo d (NonLeaf.pageNoArray c i) c in
    mkSIS c nw (si_inserted st) (si_propagateUpKey st)
  else if NonLeaf.numOccupied nw <? capacity then
    let nw := NonLeaf.set_key newIdx (NonLeaf.keyArray c i) nw in
    let nw := NonLeaf.set_pageNo newIdx (NonLeaf.pageNoArray c i) nw in
    mkSIS (decr c) (incr nw) (si_inserted st) (si_propagateUpKey st)
  else
    let nw := NonLeaf.set_pageNo (NonLeaf.numOccupied nw) (NonLeaf.pageNoArray c i) nw in
    mkSIS (decr c) (incr nw) (si_inserted st) (Some (NonLeaf.keyArray c i)).

(** The placement of the incoming key when [key < keyArray[i]] is met for
    the first time. *)
Definition splitInternal_place (capacity i key : Z) (newPageNo : PageId)
    (splitFromLeaf : bool) (st : SplitInternalState) : SplitInternalState :=
  let c := si_cur st in
  let nw := si_new st in
  if NonLeaf.numOccupied nw >? capacity then
    let d := i - (NonLeaf.numOccupied nw - 1) - 1 in
    let c := NonLeaf.set_key d key c in
    let c := if splitFromLeaf
             then NonLeaf.set_pageNo i newPageNo
                    (NonLeaf.set_pageNo d (NonLeaf.pageNoArray c i) c)
             else NonLeaf.set_pageNo d newPageNo c in
    mkSIS (incr c) nw true (si_propagateUpKey st)
  else if NonLeaf.numOccupied nw <? capacity then
    let nw := NonLeaf.set_key i key nw in
    let '(c, nw) := if splitFromLeaf
                    then (NonLeaf.set_pageNo i newPageNo c,
                          NonLeaf.set_pageNo i (NonLeaf.pageNoArray c i) nw)
                    else (c, NonLeaf.set_pageNo i newPageNo nw) in
    mkSIS c (incr nw) true (si_propagateUpKey st)
  else
    let '(c, nw) := if splitFromLeaf
                    then (NonLeaf.set_pageNo i newPageNo c,
                          NonLeaf.set_pageNo (NonLeaf.numOccupied nw) (NonLeaf.pageNoArray c i) nw)
                    else (c, NonLeaf.set_pageNo (NonLeaf.numOccupied nw) newPageNo nw) in
    mkSIS c (incr nw) true (Some key).

Fixpoint splitInternal_loop (n : nat) (nodeOccupancy capacity key : Z) (newPageNo : PageId)
    (splitFromLeaf : bool) (i : Z) (st : SplitInternalState) : SplitInternalState :=
  match n with
  | O => st
  | S n' =>
    if i <? nodeOccupancy then
      let st :=
        if key <? NonLeaf.keyArray (si_cur st) i then
          let st := if si_inserted st then st
                    else splitInternal_place capacity i key newPageNo splitFromLeaf st in
          splitInternal_move capacity i 0 (i + 1) st
        else
          splitInternal_move capacity i 1 i st in
      splitInternal_loop n' nodeOccupancy capacity key newPageNo splitFromLeaf (i + 1) st
    else st
  end.

(** What follows the loop: the last child moves to the end of the node and a
    key greater than all keys of the node is stored. *)
Definition splitInternal_finish (nodeOccupancy key : Z) (newPageNo : PageId)
    (splitFromLeaf : bool) (st : SplitInternalState) : SplitInternalState :=
  let c := si_cur st in
  let c := NonLeaf.set_pageNo (NonLeaf.numOccupied c) (NonLeaf.pageNoArray c nodeOccupancy) c in
  if si_inserted st then mkSIS c (si_new st) true (si_propagateUpKey st)
  else
    let N := NonLeaf.numOccupied c in
    let c := NonLeaf.set_pageNo N (toPageId key) c in
    let c := if splitFromLeaf
             then NonLeaf.set_pageNo (N + 1) newPageNo c
             else NonLeaf.set_pageNo N newPageNo
                    (NonLeaf.set_pageNo (N + 1) (NonLeaf.pageNoArray c N) c) in
    mkSIS (incr c) (si_new st) true (si_propagateUpKey st).

Definition splitInternal_nodes (nodeOccupancy key : Z) (newPageNo : PageId)
    (splitFromLeaf : bool) (currInternalNode newInternalNode : NonLeaf.t)
    : SplitInternalState :=
  let nw := NonLeaf.set_level (NonLeaf.level currInternalNode)
              (NonLeaf.set_numOccupied 0 newInternalNode) in
  let st := splitInternal_loop (Z.to_nat nodeOccupancy) nodeOccupancy
              (capacityOf nodeOccupancy) key newPageNo splitFromLeaf 0
              (mkSIS currInternalNode nw false None) in
  splitInternal_finish nodeOccupancy key newPageNo splitFromLeaf st.

Definition newRoot (lvl key : Z) (left right : PageId) (rootNode : NonLeaf.t) : NonLeaf.t :=
  let r := NonLeaf.set_key 0 key rootNode in
  let r := NonLeaf.set_pageNo 0 left r in
  let r := NonLeaf.set_pageNo 1 right r in
  let r := incr r in
  NonLeaf.set_level lvl r.

(** [insertEntryInternal] and [splitInternal] call each other, each call of
    [insertEntryInternal] with one ancestor less; [fuel] is that bound. *)
Fixpoint insertEntryInternal_fuel (fuel : nat) (key : Z) (pageNo newPageNo : PageId)
    (visitedNodes : list PageId) (splitFromLeaf : bool) : M unit :=
  match fuel with
  | O => throw Undefined
  | S fuel' =>
    currInternalNode <- readNonLeaf pageNo ;;
    nodeOcc <- get nodeOccupancy ;;
    if NonLeaf.numOccupied currInternalNode >? nodeOcc then
      (* splitInternal *)
      currInternalNode <- readNonLeaf pageNo ;;
      al <- allocNonLeaf ;;
      let newPageNoTemp := fst al in
      let st := splitInternal_nodes nodeOcc key newPageNo splitFromLeaf
                  currInternalNode (snd al) in
      writePage pageNo (NonLeafPage (si_cur st)) ;;;
      writePage newPageNoTemp (NonLeafPage (si_new st)) ;;;
      match visitedNodes with
      | parentPageNo :: rest =>
        match si_propagateUpKey st with
        | Some propagateUpKey =>
          insertEntryInternal_fuel fuel' propagateUpKey parentPageNo newPageNoTemp rest false
        | None => throw Undefined
        end
      | [] =>
        al <- allocNonLeaf ;;
        let rootId := fst al in
        match si_propagateUpKey st with
        | Some propagateUpKey =>
          writePage rootId (NonLeafPage (newRoot 0 propagateUpKey newPageNoTemp pageNo (snd al))) ;;;
          modify (set_rootPageNum rootId) ;;;
          updateHeaderRoot rootId
        | None => throw Undefined
        end
      end
    else
      writePage pageNo
        (NonLeafPage (insertEntryInternal_store key newPageNo splitFromLeaf currInternalNode))
  end.

Definition insertEntryInternal (key : Z) (pageNo newPageNo : PageId)
    (visitedNodes : list PageId) (splitFromLeaf : bool) : M unit :=
  insertEntryInternal_fuel (S (length visitedNodes)) key pageNo newPageNo
    visitedNodes splitFromLeaf.

(** ** Leaves: [insertEntryLeaf] and [splitLeaf] *)

Fixpoint insertEntryLeaf_loop (n : nat) (key : Z) (c : Leaf.t) (i : Z) : Leaf.t * Z :=
  match n with
  | O => (c, i)
  | S n' =>
    let N := Leaf.numOccupied c in
    if i <? N then
      if key >? Leaf.keyArray c (N - 1 - i) then (c, i)
      else
        let c := Leaf.set_rid (N - 1 - i + 1) (Leaf.ridArray c (N - 1 - i)) c in
        let c := Leaf.set_key (N - 1 - i + 1) (Leaf.keyArray c (N - 1 - i)) c in
        insertEntryLeaf_loop n' key c (i + 1)
    else (c, i)
  end.

(** The branch of [insertEntryLeaf] that stores the pair in the leaf. *)
Definition insertEntryLeaf_store (key : Z) (rid : RecordId) (c : Leaf.t) : Leaf.t :=
  let N := Leaf.numOccupied c in
  let '(c, i) := insertEntryLeaf_loop (Z.to_nat N) key c 0 in
  let c := Leaf.set_rid (N - i) rid c in
  let c := Leaf.set_key (N - i) key c in
  Leaf.set_numOccupied (N + 1) c.

Record SplitLeafState := mkSLS {
  sl_cur : Leaf.t;
  sl_new : Leaf.t;
  sl_inserted : bool
}.

Definition lincr (l : Leaf.t) : Leaf.t :=
  Leaf.set_numOccupied (Leaf.numOccupied l + 1) l.
Definition ldecr (l : Leaf.t) : Leaf.t :=
  Leaf.set_numOccupied (Leaf.numOccupied l - 1) l.

(** [newLeafPage->numOccupied+capacity >= leafOccupancy+1] *)
Definition newLeafFilled (leafOccupancy capacity : Z) (nw : Leaf.t) : bool :=
  Leaf.numOccupied nw + capacity >=? leafOccupancy + 1.

(** The loop of [splitLeaf]; a [break] returns the state as it is. *)
Fixpoint splitLeaf_loop (n : nat) (leafOccupancy capacity key : Z) (rid : RecordId)
    (i : Z) (st : SplitLeafState) : SplitLeafState :=
  match n with
  | O => st
  | S n' =>
    if i <? leafOccupancy then
      let c := sl_cur st in
      let nw := sl_new st in
      if key >=? Leaf.keyArray c (leafOccupancy - 1 - i) then
        let st :=
          if sl_inserted st then st
          else if newLeafFilled leafOccupancy capacity nw then
            let c := lincr c in
            let c := Leaf.set_rid (leafOccupancy - i) rid c in
            let c := Leaf.set_key (leafOccupancy - i) key c in
            mkSLS c nw true
          else
            let nw := lincr nw in
            let nw := Leaf.set_rid (leafOccupancy + 1 - capacity - 1 - i) rid nw in
            let nw := Leaf.set_key (leafOccupancy + 1 - capacity - 1 - i) key nw in
            mkSLS c nw true in
        let c := sl_cur st in
        let nw := sl_new st in
        if newLeafFilled leafOccupancy capacity nw then st
        else
          let c := ldecr c in
          let nw := Leaf.set_rid (leafOccupancy + 1 - capacity - 2 - i)
                      (Leaf.ridArray c (leafOccupancy - i - 1)) nw in
          let nw := Leaf.set_key (leafOccupancy + 1 - capacity - 2 - i)
                      (Leaf.keyArray c (leafOccupancy - i - 1)) nw in
          let nw := lincr nw in
          splitLeaf_loop n' leafOccupancy capacity key rid (i + 1)
            (mkSLS c nw (sl_inserted st))
      else
        let st :=
          if negb (newLeafFilled leafOccupancy capacity nw) then
            let c := ldecr c in
            let nw := Leaf.set_rid (leafOccupancy + 1 - capacity - 1 - i)
                        (Leaf.ridArray c (leafOccupancy - 1 - i)) nw in
            let nw := Leaf.set_key (leafOccupancy + 1 - capacity - 1 - i)
                        (Leaf.keyArray c (leafOccupancy - 1 - i)) nw in
            let nw := lincr nw in
            mkSLS c nw (sl_inserted st)
          else
            let c := Leaf.set_key (leafOccupancy - i)
                       (Leaf.keyArray c (leafOccupancy - 1 - i)) c in
            let c := Leaf.set_rid (leafOccupancy - i)
                       (Leaf.ridArray c (leafOccupancy - 1 - i)) c in
            if leafOccupancy =? i + 1 then
              let c := lincr c in
              let c := Leaf.set_rid (leafOccupancy - 1 - i) rid c in
              let c := Leaf.set_key (leafOccupancy - 1 - i) key c in
              mkSLS c nw true
            else mkSLS c nw (sl_inserted st) in
        splitLeaf_loop n' leafOccupancy capacity key rid (i + 1) st
    else st
  end.

(** [splitLeaf] on the two nodes (lines 247-320): the sibling links, the loop
    and the key that goes up. *)
Definition splitLeaf_nodes (leafOccupancy key : Z) (rid : RecordId) (newPageNo : PageId)
    (currLeafNode newLeafPage : Leaf.t) : Leaf.t * Leaf.t * Z :=
  let nw := Leaf.set_rightSibPageNo (Leaf.rightSibPageNo currLeafNode) newLeafPage in
  let c := Leaf.set_rightSibPageNo newPageNo currLeafNode in
  let nw := Leaf.set_numOccupied 0 nw in
  let st := splitLeaf_loop (Z.to_nat leafOccupancy) leafOccupancy
              (capacityOf leafOccupancy) key rid 0 (mkSLS c nw false) in
  (sl_cur st, sl_new st, Leaf.keyArray (sl_new st) 0).

(** The first part of [splitLeaf], up to the two [unPinPage] calls: the
    result is the new page and the key to propagate. *)
Definition splitLeaf_pages (key : Z) (rid : RecordId) (pageNo : PageId) : M (PageId * Z) :=
  currLeafNode <- readLeaf pageNo ;;
  al <- allocLeaf ;;
  let newPageNo := fst al in
  leafOcc <- get leafOccupancy ;;
  let r := splitLeaf_nodes leafOcc key rid newPageNo currLeafNode (snd al) in
  writePage pageNo (LeafPage (fst (fst r))) ;;;
  writePage newPageNo (LeafPage (snd (fst r))) ;;;
  ret (newPageNo, snd r).

(** The second part of [splitLeaf] when no ancestor is left: a new root. *)
Definition splitLeaf_newRoot (propagateUpKey : Z) (pageNo newPageNo : PageId) : M unit :=
  al <- allocNonLeaf ;;
  let rootId := fst al in
  writePage rootId (NonLeafPage (newRoot 1 propagateUpKey pageNo newPageNo (snd al))) ;;;
  modify (set_onlyOneRoot false) ;;;
  modify (set_rootPageNum rootId) ;;;
  updateHeaderRoot rootId.

Definition splitLeaf (key : Z) (rid : RecordId) (pageNo : PageId)
    (visitedNodes : list PageId) : M unit :=
  r <- splitLeaf_pages key rid pageNo ;;
  let newPageNo := fst r in
  let propagateUpKey := snd r in
  match visitedNodes with
  | parentPageNo :: rest =>
    insertEntryInternal propagateUpKey parentPageNo newPageNo rest true
  | [] => splitLeaf_newRoot propagateUpKey pageNo newPageNo
  end.

Definition insertEntryLeaf (key : Z) (rid : RecordId) (pageNo : PageId)
    (visitedNodes : list PageId) : M unit :=
  currLeafNode <- readLeaf pageNo ;;
  leafOcc <- get leafOccupancy ;;
  if Leaf.numOccupied currLeafNode >=? leafOcc then
    splitLeaf key rid pageNo visitedNodes
  else
    writePage pageNo (LeafPage (insertEntryLeaf_store key rid currLeafNode)).

Definition insertEntry (key : Z) (rid : RecordId) : M unit :=
  fuel <- get descentFuel ;;
  root <- get rootPageNum ;;
  r <- searchEntry fuel key root [] ;;
  insertEntryLeaf key rid (fst r) (snd r).

(** ** The scan *)

Definition endScan : M unit :=
  ex <- get scanExecuting ;;
  if (ex : bool) then modify (set_scanExecuting false)
  else throw ScanNotInitializedException.

(** The loop of [startScan]: the result is [nextEntry]. *)
Fixpoint startScan_loop (n : nat) (lowValInt : Z) (lowOp : Operator) (leafNode : Leaf.t)
    (i : Z) (nextEntry : Z) : Z :=
  match n with
  | O => nextEntry
  | S n' =>
    if i <? Leaf.numOccupied leafNode then
      if Leaf.keyArray leafNode i <? lowValInt
      then startScan_loop n' lowValInt lowOp leafNode (i + 1) nextEntry
      else if negb (Operator_eqb lowOp GTE) && (Leaf.keyArray leafNode i =? lowValInt)
      then startScan_loop n' lowValInt lowOp leafNode (i + 1) nextEntry
      else i
    else nextEntry
  end.

Definition startScan (lowValParm : Z) (lowOpParm : Operator)
    (highValParm : Z) (highOpParm : Operator) : M unit :=
  ex <- get scanExecuting ;;
  (if (ex : bool) then endScan else ret tt) ;;;
  modify (set_scanExecuting true) ;;;
  if lowValParm >? highValParm then throw BadScanrangeException
  else
    modify (set_lowValInt lowValParm) ;;;
    modify (set_highValInt highValParm) ;;;
    if negb (Operator_eqb lowOpParm GT) && negb (Operator_eqb lowOpParm GTE)
    then throw BadOpcodesException
    else if negb (Operator_eqb highOpParm LT) && negb (Operator_eqb highOpParm LTE)
    then throw BadOpcodesException
    else
      modify (set_lowOp lowOpParm) ;;;
      modify (set_highOp highOpParm) ;;;
      fuel <- get descentFuel ;;
      root <- get rootPageNum ;;
      r <- searchEntry fuel lowValParm root [] ;;
      modify (set_currentPageNum (fst r)) ;;;
      leafNode <- readLeaf (fst r) ;;
      let ne := startScan_loop (Z.to_nat (Leaf.numOccupied leafNode))
                  lowValParm lowOpParm leafNode 0 (-1) in
      modify (set_nextEntry ne) ;;;
      if ne =? Leaf.numOccupied leafNode then
        endScan ;;; throw NoSuchKeyFoundException
      else if (Leaf.keyArray leafNode ne >? highValParm)
              || ((Leaf.keyArray leafNode ne =? highValParm) && Operator_eqb highOpParm LT)
      then endScan ;;; throw NoSuchKeyFoundException
      else ret tt.

Definition scanNext : M RecordId :=
  ex <- get scanExecuting ;;
  if negb ex then throw ScanNotInitializedException
  else
    cp <- get currentPageNum ;;
    ne <- get nextEntry ;;
    hi <- get highValInt ;;
    hop <- get highOp ;;
    pg <- readPage cp ;;
    if ne =? -1 then throw IndexScanCompletedException
    else
      match pg with
      | LeafPage currentNode =>
        let outRid := Leaf.ridArray currentNode ne in
        if ne + 1 <? Leaf.numOccupied currentNode then
          if (Leaf.keyArray currentNode (ne + 1) =? hi) && negb (Operator_eqb hop LTE)
          then modify (set_nextEntry (-1)) ;;; ret outRid
          else if Leaf.keyArray currentNode (ne + 1) <=? hi
          then modify (set_nextEntry (ne + 1)) ;;; ret outRid
          else modify (set_nextEntry (-1)) ;;; ret outRid
        else if Leaf.rightSibPageNo currentNode =? INVALID_NUMBER
        then modify (set_nextEntry (-1)) ;;; ret outRid
        else
          modify (set_currentPageNum (Leaf.rightSibPageNo currentNode)) ;;;
          currentNode <- readLeaf (Leaf.rightSibPageNo currentNode) ;;
          if Leaf.numOccupied currentNode =? 0
          then modify (set_nextEntry (-1)) ;;; ret outRid
          else if (Leaf.keyArray currentNode 0 =? hi) && negb (Operator_eqb hop LTE)
          then modify (set_nextEntry (-1)) ;;; ret outRid
          else if Leaf.keyArray currentNode 0 <? hi
          then modify (set_nextEntry 0) ;;; ret outRid
          else modify (set_nextEntry (-1)) ;;; ret outRid
      | _ => throw Undefined
      end.

(** ** Constructor and destructor

    [this] holds the values that the members of the object have before the
    constructor runs; a member that a path does not assign keeps it.
    [existing] is the index file if [File::exists] finds it.  The relation
    is given as the keys read at the byte offset with their record ids, in
    the order of the file scan.  [INTARRAYLEAFSIZE] and
    [INTARRAYNONLEAFSIZE] are the two capacities of the header. *)

Fixpoint insertAll (relation : list (Z * RecordId)) : M unit :=
  match relation with
  | [] => ret tt
  | (key, scanRid) :: rest => insertEntry key scanRid ;;; insertAll rest
  end.

Definition BTreeIndex_open (relName : string) (offset : Z) (attrTy : Datatype) : M unit :=
  let metaPageId := 1 in
  metadata <- readMeta metaPageId ;;
  if negb (String.eqb (relationName metadata) relName)
     || negb (attrByteOffset metadata =? offset)
     || negb (Datatype_eqb (attrType metadata) attrTy)
  then throw BadIndexInfoException
  else
    modify (set_headerPageNum metaPageId) ;;;
    modify (set_rootPageNum (rootPageNo metadata)).

Definition BTreeIndex_create (relName : string) (offset : Z) (attrTy : Datatype)
    (INTARRAYLEAFSIZE INTARRAYNONLEAFSIZE : Z) (relation : list (Z * RecordId)) : M unit :=
  am <- allocMeta ;;
  let metaPageId := fst am in
  al <- allocLeaf ;;
  let rootPageId := fst al in
  writePage metaPageId (MetaPage (mkMeta relName offset attrTy rootPageId)) ;;;
  writePage rootPageId
    (LeafPage (Leaf.set_rightSibPageNo INVALID_NUMBER (Leaf.set_numOccupied 0 (snd al)))) ;;;
  modify (set_headerPageNum metaPageId) ;;;
  modify (set_rootPageNum rootPageId) ;;;
  modify (set_leafOccupancy INTARRAYLEAFSIZE) ;;;
  modify (set_nodeOccupancy INTARRAYNONLEAFSIZE) ;;;
  modify (set_onlyOneRoot true) ;;;
  modify (set_scanExecuting false) ;;;
  insertAll relation.

Definition BTreeIndex_new (this : BTreeIndex) (bufMgrIn : BufMgr)
    (existing : option (gmap Z Page)) (relName : string) (offset : Z) (attrTy : Datatype)
    (INTARRAYLEAFSIZE INTARRAYNONLEAFSIZE : Z) (relation : list (Z * RecordId))
    : Outcome unit * BTreeIndex :=
  let s := set_attrByteOffset offset (set_attributeType attrTy this) in
  match existing with
  | Some filePages =>
    BTreeIndex_open relName offset attrTy (set_bufMgr (set_pages filePages bufMgrIn) s)
  | None =>
    BTreeIndex_create relName offset attrTy INTARRAYLEAFSIZE INTARRAYNONLEAFSIZE relation
      (set_bufMgr (set_pages ∅ bufMgrIn) s)
  end.

(** The destructor ends a running scan and flushes: the result is the file
    that a later constructor finds. *)
Definition BTreeIndex_delete (s : BTreeIndex) : gmap Z Page :=
  pages (bufMgr s).

(** ** A caller that drains a scan

    [scanNext] is called until it raises [IndexScanCompleted], as the test
    driver does; [n] bounds the number of calls. *)
Fixpoint drain (n : nat) : M (list RecordId) :=
  match n with
  | O => throw Undefined
  | S n' =>
    fun s => match scanNext s with
             | (Ok rid, s') => bind (drain n') (fun l => ret (rid :: l)) s'
             | (Throw IndexScanCompletedException, s') => (Ok [], s')
             | (Throw e, s') => (Throw e, s')
             end
  end.

(** ** The scan driver of [main.cpp]

    [intScan] starts a scan and returns 0 if that raises [NoSuchKeyFound];
    otherwise it calls [scanNext] until [IndexScanCompleted] is raised,
    reads each returned record from the relation file, ends the scan and
    returns the number of records.  [readRecord] is the outcome of reading
    a record id in the relation file; [fuel] bounds the calls of the
    endless loop. *)

Fixpoint intScan_loop (fuel : nat) (readRecord : RecordId -> Outcome unit)
    (numResults : Z) : M Z :=
  match fuel with
  | O => throw Undefined
  | S fuel' =>
    fun s => match scanNext s with
             | (Ok scanRid, s') =>
               match readRecord scanRid with
               | Ok _ => intScan_loop fuel' readRecord (numResults + 1) s'
               | Throw IndexScanCompletedException => (Ok numResults, s')
               | Throw e => (Throw e, s')
               end
             | (Throw IndexScanCompletedException, s') => (Ok numResults, s')
             | (Throw e, s') => (Throw e, s')
             end
  end.

Definition intScan (fuel : nat) (readRecord : RecordId -> Outcome unit)
    (lowVal : Z) (lowOp : Operator) (highVal : Z) (highOp : Operator) : M Z :=
  fun s => match startScan lowVal lowOp highVal highOp s with
           | (Ok _, s') =>
             bind (intScan_loop fuel readRecord 0) (fun numResults =>
               endScan ;;; ret numResults) s'
           | (Throw NoSuchKeyFoundException, s') => (Ok 0, s')
           | (Throw e, s') => (Throw e, s')
           end.

(** * The vocabulary of the properties *)

(** ** The scan members of the index *)

Definition scanState (s : BTreeIndex)
    : bool * Z * PageId * Z * Z * Operator * Operator :=
  (scanExecuting s, nextEntry s, currentPageNum s, lowValInt s, highValInt s,
   lowOp s, highOp s).

Definition keepsScan {A : Type} (m : M A) : Prop :=
  forall s, scanState (snd (m s)) = scanState s.

(** ** Keys in order *)

Definition ascending (K : Z -> Z) (N : Z) : Prop :=
  forall i j, 0 <= i -> i < j -> j < N -> K i < K j.

Definition nondescending (K : Z -> Z) (N : Z) : Prop :=
  forall i j, 0 <= i -> i < j -> j < N -> K i <= K j.

(** The slot that the shifting loop opens: the entries of [p .. hi] are not
    below the key, the entry before [p] is below it. *)
Definition slotFor (K : Z -> Z) (key p hi : Z) : Prop :=
  (forall x, p <= x <= hi -> key <= K x) /\ (0 < p -> K (p - 1) < key).

(** [shifted a p hi] is [a] with the entries of [p .. hi-1] moved up by one. *)
Definition shifted {A : Type} (a : Z -> A) (p hi : Z) (x : Z) : A :=
  if (p + 1 <=? x) && (x <=? hi) then a (x - 1) else a x.

(** ** The split of a full leaf

    [K0] and [R0] are the keys and record ids of the full leaf, [M] its
    capacity, [p] the place of the incoming key among the stored keys and
    [cap] the number of entries that stay in the old leaf.  [mergedK] and
    [mergedR] are the [M + 1] entries in key order. *)

Definition mergedK (M key : Z) (K0 : Z -> Z) (p x : Z) : Z :=
  if x =? p then key else shifted K0 p M x.

Definition mergedR (M : Z) (rid : RecordId) (R0 : Z -> RecordId) (p x : Z) : RecordId :=
  if x =? p then rid else shifted R0 p M x.

(** The state in which the loop of [splitLeaf] ends. *)
Definition splitDone (M cap key : Z) (rid : RecordId) (K0 : Z -> Z) (R0 : Z -> RecordId)
    (p : Z) (st : SplitLeafState) : Prop :=
  Leaf.numOccupied (sl_cur st) = cap /\
  Leaf.numOccupied (sl_new st) = M + 1 - cap /\
  (forall x, 0 <= x < cap ->
     Leaf.keyArray (sl_cur st) x = mergedK M key K0 p x /\
     Leaf.ridArray (sl_cur st) x = mergedR M rid R0 p x) /\
  (forall y, 0 <= y < M + 1 - cap ->
     Leaf.keyArray (sl_new st) y = mergedK M key K0 p (cap + y) /\
     Leaf.ridArray (sl_new st) y = mergedR M rid R0 p (cap + y)).

(** The new leaf is filled from its upper end. *)
Definition newPart (M cap key : Z) (rid : RecordId) (K0 : Z -> Z) (R0 : Z -> RecordId)
    (p : Z) (nw : Leaf.t) : Prop :=
  forall y, M + 1 - cap - Leaf.numOccupied nw <= y < M + 1 - cap ->
    Leaf.keyArray nw y = mergedK M key K0 p (cap + y) /\
    Leaf.ridArray nw y = mergedR M rid R0 p (cap + y).

(** The old leaf still has its entries up to [hi] in place. *)
Definition curSame (K0 : Z -> Z) (R0 : Z -> RecordId) (c : Leaf.t) (hi : Z) : Prop :=
  forall x, 0 <= x <= hi ->
    Leaf.keyArray c x = K0 x /\ Leaf.ridArray c x = R0 x.

(** The entries of the old leaf from [lo] on have moved up by one. *)
Definition curUp (cap : Z) (K0 : Z -> Z) (R0 : Z -> RecordId) (c : Leaf.t) (lo : Z) : Prop :=
  forall x, lo <= x <= cap - 2 ->
    Leaf.keyArray c (x + 1) = K0 x /\ Leaf.ridArray c (x + 1) = R0 x.

(** The invariant of the loop of [splitLeaf] before iteration [i]: the
    entries above the key are being copied; the key is in the new leaf and
    the entries below it follow; the new leaf is filled and the old leaf
    makes room for the key; the loop has placed everything. *)
Inductive splitInv (M cap key : Z) (rid : RecordId) (K0 : Z -> Z) (R0 : Z -> RecordId)
    (p : Z) (i : Z) (st : SplitLeafState) : Prop :=
| InvCopy :
    i <= M - p -> i < M + 1 - cap -> sl_inserted st = false ->
    Leaf.numOccupied (sl_new st) = i -> Leaf.numOccupied (sl_cur st) = M - i ->
    curSame K0 R0 (sl_cur st) (M - 1) ->
    newPart M cap key rid K0 R0 p (sl_new st) ->
    splitInv M cap key rid K0 R0 p i st
| InvAfter :
    M - p < i -> i <= M - cap -> sl_inserted st = true ->
    Leaf.numOccupied (sl_new st) = i + 1 -> Leaf.numOccupied (sl_cur st) = M - i ->
    curSame K0 R0 (sl_cur st) (M - 1) ->
    newPart M cap key rid K0 R0 p (sl_new st) ->
    splitInv M cap key rid K0 R0 p i st
| InvShift :
    M + 1 - cap <= i -> i <= M - p -> i <= M - 1 -> sl_inserted st = false ->
    Leaf.numOccupied (sl_new st) = M + 1 - cap ->
    Leaf.numOccupied (sl_cur st) = cap - 1 ->
    curSame K0 R0 (sl_cur st) (M - 1 - i) -> curUp cap K0 R0 (sl_cur st) (M - i) ->
    newPart M cap key rid K0 R0 p (sl_new st) ->
    splitInv M cap key rid K0 R0 p i st
| InvDone :
    i = M -> splitDone M cap key rid K0 R0 p st ->
    splitInv M cap key rid K0 R0 p i st.

Definition siblings (st : SplitLeafState) : PageId * PageId :=
  (Leaf.rightSibPageNo (sl_cur st), Leaf.rightSibPageNo (sl_new st)).

(** ** The arguments of [startScan] *)

(** A key that does not satisfy the low bound. *)
Definition belowLow (lo : Z) (lop : Operator) (k : Z) : Prop :=
  k < lo \/ (lop <> GTE /\ k = lo).

(** The arguments that the validation of [startScan] rejects. *)
Definition badScanArguments (lo : Z) (lop : Operator) (hi : Z) (hop : Operator) : Prop :=
  hi < lo \/ (lop <> GT /\ lop <> GTE) \/ (hop <> LT /\ hop <> LTE).

Definition validOperators (lop hop : Operator) : Prop :=
  (lop = GT \/ lop = GTE) /\ (hop = LT \/ hop = LTE).

(** ** The entries of a leaf and the range of a scan *)

Definition entryAt (l : Leaf.t) (i : nat) : Z * RecordId :=
  (Leaf.keyArray l (Z.of_nat i), Leaf.ridArray l (Z.of_nat i)).

Definition entriesOf (l : Leaf.t) : list (Z * RecordId) :=
  map (entryAt l) (seq 0 (Z.to_nat (Leaf.numOccupied l))).

(** A key satisfies the low bound [lo] under GT or GTE, the high bound [hi]
    under LT or LTE. *)
Definition aboveLow (lo : Z) (lop : Operator) (k : Z) : bool :=
  if Operator_eqb lop GTE then lo <=? k else lo <? k.

Definition belowHigh (hi : Z) (hop : Operator) (k : Z) : bool :=
  if Operator_eqb hop LTE then k <=? hi else k <? hi.

Definition inRange (lo : Z) (lop : Operator) (hi : Z) (hop : Operator)
    (e : Z * RecordId) : bool :=
  aboveLow lo lop (fst e) && belowHigh hi hop (fst e).

Definition ridsInRange (lo : Z) (lop : Operator) (hi : Z) (hop : Operator)
    (entries : list (Z * RecordId)) : list RecordId :=
  map snd (List.filter (inRange lo lop hi hop) entries).

Definition keyOrder (a b : Z * RecordId) : Prop := fst a < fst b.

(** ** A tree that is a single leaf *)

(** The root page is a leaf without a right sibling whose keys ascend. *)
Definition rootLeaf (s : BTreeIndex) (l : Leaf.t) : Prop :=
  onlyOneRoot s = true /\
  pages (bufMgr s) !! rootPageNum s = Some (LeafPage l) /\
  Leaf.rightSibPageNo l = INVALID_NUMBER /\
  0 <= Leaf.numOccupied l /\
  ascending (Leaf.keyArray l) (Leaf.numOccupied l).

(** The index file of such a tree: page 1 is the header page, page 2 the
    root leaf, which holds [entries]. *)
Definition singleLeafIndex (s : BTreeIndex) (relName : string) (offset : Z)
    (attrTy : Datatype) (entries : list (Z * RecordId)) : Prop :=
  headerPageNum s = 1 /\ rootPageNum s = 2 /\
  pages (bufMgr s) !! 1 = Some (MetaPage (mkMeta relName offset attrTy 2)) /\
  exists l, rootLeaf s l /\ Permutation (entriesOf l) entries.

(** ** The members and pages that a scan leaves alone *)

Definition treeState (s : BTreeIndex)
    : BufMgr * PageId * PageId * Datatype * Z * Z * Z * bool :=
  (bufMgr s, headerPageNum s, rootPageNum s, attributeType s, attrByteOffset_ s,
   leafOccupancy s, nodeOccupancy s, onlyOneRoot s).

(** ** A tree of two levels

    The pages of the file are numbered from 1 without gaps, so that the
    page that [allocPage] returns is new. *)
Definition pagesNumbered (s : BTreeIndex) : Prop :=
  forall p : PageId, is_Some (pages (bufMgr s) !! p) <->
            1 <= p <= Z.of_nat (size (pages (bufMgr s))).

(** The entries of the leaves [from], ..., [from + count - 1] in the order
    of the leaves. *)
Definition leafEntries (child : Z -> Leaf.t) (from count : nat) : list (Z * RecordId) :=
  flat_map (fun j => entriesOf (child (Z.of_nat j))) (seq from count).

Definition allEntries (n : NonLeaf.t) (child : Z -> Leaf.t) : list (Z * RecordId) :=
  leafEntries child 0 (Z.to_nat (NonLeaf.numOccupied n + 1)).

(** The root [n] is an internal node directly above the leaves, [child i] is
    the leaf of its child [i].  The leaves are filled at least to the
    count that a split leaves, each separator is the first key of the leaf
    on its right and above the keys of the leaf on its left, and the leaves
    are chained from left to right. *)
Record twoLevel (s : BTreeIndex) (n : NonLeaf.t) (child : Z -> Leaf.t) : Prop := mkTwoLevel {
  tl_flag : onlyOneRoot s = false;
  tl_root : pages (bufMgr s) !! rootPageNum s = Some (NonLeafPage n);
  tl_level : NonLeaf.level n <> 0;
  tl_count : 1 <= NonLeaf.numOccupied n <= nodeOccupancy s;
  tl_keys : ascending (NonLeaf.keyArray n) (NonLeaf.numOccupied n);
  tl_child : forall i, 0 <= i <= NonLeaf.numOccupied n ->
    pages (bufMgr s) !! NonLeaf.pageNoArray n i = Some (LeafPage (child i));
  tl_distinct : forall i j, 0 <= i -> i < j -> j <= NonLeaf.numOccupied n ->
    NonLeaf.pageNoArray n i <> NonLeaf.pageNoArray n j;
  tl_fill : forall i, 0 <= i <= NonLeaf.numOccupied n ->
    capacityOf (leafOccupancy s) <= Leaf.numOccupied (child i) <= leafOccupancy s;
  tl_ascending : forall i, 0 <= i <= NonLeaf.numOccupied n ->
    ascending (Leaf.keyArray (child i)) (Leaf.numOccupied (child i));
  tl_separator : forall i, 0 <= i < NonLeaf.numOccupied n ->
    NonLeaf.keyArray n i = Leaf.keyArray (child (i + 1)) 0;
  tl_below : forall i, 0 <= i < NonLeaf.numOccupied n ->
    Leaf.keyArray (child i) (Leaf.numOccupied (child i) - 1) < NonLeaf.keyArray n i;
  tl_sibling : forall i, 0 <= i < NonLeaf.numOccupied n ->
    Leaf.rightSibPageNo (child i) = NonLeaf.pageNoArray n (i + 1);
  tl_last : Leaf.rightSibPageNo (child (NonLeaf.numOccupied n)) = INVALID_NUMBER;
  tl_numbered : pagesNumbered s
}.

(** The members of a running scan that stands at entry [a] of the page
    [page], over the pages of [s0]. *)
Definition scanAt (s0 : BTreeIndex) (hi : Z) (hop : Operator) (page : PageId) (a : Z)
    (s : BTreeIndex) : Prop :=
  scanExecuting s = true /\ bufMgr s = bufMgr s0 /\
  currentPageNum s = page /\ nextEntry s = a /\
  highValInt s = hi /\ highOp s = hop.

(** The leaves after the leaf [i] has been split into [L1] and [L2]. *)
Definition splitChild (child : Z -> Leaf.t) (i : Z) (L1 L2 : Leaf.t) (j : Z) : Leaf.t :=
  if j <? i then child j
  else if j =? i then L1
  else if j =? i + 1 then L2
  else child (j - 1).

(** The leaf that holds the [M + 1] entries of a split in key order. *)
Definition mergedLeaf (M key : Z) (rid : RecordId) (l : Leaf.t) (p : Z) : Leaf.t :=
  Leaf.mk (M + 1) (mergedK M key (Leaf.keyArray l) p) (mergedR M rid (Leaf.ridArray l) p)
    INVALID_NUMBER.

(** The tree is a single leaf, and the file is as the create path of the
    constructor leaves it: the header page is there, the pages are numbered
    and the page that the first new root will get reads as a key count of
    zero. *)
Definition leafTree (s : BTreeIndex) (l : Leaf.t) : Prop :=
  rootLeaf s l /\ Leaf.numOccupied l <= leafOccupancy s /\ pagesNumbered s /\
  (exists m, pages (bufMgr s) !! headerPageNum s = Some (MetaPage m)) /\
  NonLeaf.numOccupied (undefNonLeaf (bufMgr s) (nextPageNo (bufMgr s) + 1)) = 0.

(** The two leaves of the first split as the children of the new root. *)
Definition firstChildren (L1 L2 : Leaf.t) (j : Z) : Leaf.t :=
  if j =? 0 then L1 else L2.

(** A tree that has not split an internal node yet: a single leaf or a root
    directly above the leaves, holding [entries]. *)
Definition smallTree (s : BTreeIndex) (entries : list (Z * RecordId)) : Prop :=
  (exists l, leafTree s l /\ Permutation (entriesOf l) entries) \/
  (exists n child, twoLevel s n child /\ Permutation (allEntries n child) entries).

(** * Fixtures of the concrete runs

    A buffer manager whose fresh pages read as zeros, an object whose
    members are all zero or false before the constructor runs, and an index
    created over an empty relation with the capacities [L] and [N]. *)

Definition zeroLeaf : Leaf.t := Leaf.mk 0 (fun _ => 0) (fun _ => mkRid 0 0) 0.
Definition zeroNonLeaf : NonLeaf.t := NonLeaf.mk 0 0 (fun _ => 0) (fun _ => 0).
Definition zeroMeta : IndexMetaInfo := mkMeta "" 0 INTEGER 0.
Definition zeroBufMgr : BufMgr :=
  mkBuf ∅ (fun _ => zeroMeta) (fun _ => zeroLeaf) (fun _ => zeroNonLeaf).
Definition rawIndex : BTreeIndex :=
  mkIndex zeroBufMgr 0 0 INTEGER 0 0 0 false false 0 0 0 0 LT LT.

Definition freshIndex (L N : Z) : BTreeIndex :=
  snd (BTreeIndex_new rawIndex zeroBufMgr None "relA" 0 INTEGER L N []).

(** The record id that the runs give to key [k]. *)
Definition ridOf (k : Z) : RecordId := mkRid 1 k.

Definition insertKeys (keys : list Z) : M unit :=
  insertAll (map (fun k => (k, ridOf k)) keys).

Definition scanRange (lo : Z) (lop : Operator) (hi : Z) (hop : Operator)
    : M (list RecordId) :=
  startScan lo lop hi hop ;;; drain 1000.

Definition leafAt (s : BTreeIndex) (pageNo : PageId) : Leaf.t :=
  match pages (bufMgr s) !! pageNo with
  | Some (LeafPage l) => l
  | _ => zeroLeaf
  end.

Definition nonLeafAt (s : BTreeIndex) (pageNo : PageId) : NonLeaf.t :=
  match pages (bufMgr s) !! pageNo with
  | Some (NonLeafPage n) => n
  | _ => zeroNonLeaf
  end.

(** The first [n] entries of an array. *)
Definition keysOf (K : Z -> Z) (n : Z) : list Z :=
  map (fun i => K (Z.of_nat i)) (seq 0 (Z.to_nat n)).

(** The keys 1, 2, ..., [n]. *)
Definition ascendingKeys (n : nat) : list Z := map Z.of_nat (seq 1 n).

(** The file that an index created over an empty relation leaves behind:
    page 1 is the header, page 2 the empty root leaf.  The file that the
    keys 1..5 leave behind at the capacities 4 and 4 has an internal root. *)
Definition oneLeafFile : gmap Z Page := BTreeIndex_delete (freshIndex 4 4).
Definition twoLevelFile : gmap Z Page :=
  BTreeIndex_delete (snd (insertKeys (ascendingKeys 5) (freshIndex 4 4))).

(** An object whose [onlyOneRoot] member holds [flag] before the
    constructor runs, and the index that the constructor makes of it when it
    finds [file]. *)
Definition objectWithFlag (flag : bool) : BTreeIndex :=
  mkIndex zeroBufMgr 0 0 INTEGER 0 0 0 flag false 0 0 0 0 LT LT.

Definition reopened (flag : bool) (file : gmap Z Page) : Outcome unit * BTreeIndex :=
  BTreeIndex_new (objectWithFlag flag) zeroBufMgr (Some file) "relA" 0 INTEGER 4 4 [].

(** A buffer manager whose fresh pages read as a key count of 7 under the
    cast to an internal node, and a new index over it. *)
Definition staleNonLeaf : NonLeaf.t := NonLeaf.mk 0 7 (fun _ => 0) (fun _ => 0).
Definition staleBufMgr : BufMgr :=
  mkBuf ∅ (fun _ => zeroMeta) (fun _ => zeroLeaf) (fun _ => staleNonLeaf).
Definition staleIndex : BTreeIndex :=
  snd (BTreeIndex_new rawIndex staleBufMgr None "relA" 0 INTEGER 4 4 []).

(** A root leaf with the keys 10, 20, ..., [10 * n] in an index with the
    leaf capacity 4. *)
Definition tensLeaf (n : Z) : Leaf.t :=
  Leaf.mk n (fun i => 10 * (i + 1)) (fun i => mkRid 1 (10 * (i + 1))) INVALID_NUMBER.

Definition tensIndex (n : Z) : BTreeIndex :=
  mkIndex (mkBuf {[ 1 := MetaPage (mkMeta "relA" 0 INTEGER 2); 2 := LeafPage (tensLeaf n) ]}
             (fun _ => zeroMeta) (fun _ => zeroLeaf) (fun _ => zeroNonLeaf))
    1 2 INTEGER 0 4 4 true false 0 0 0 0 LT LT.

(** The scan of [1, 3] over the leaves [1, 2] and [3, 4, 5] after its first
    [scanNext]. *)
Definition scanAtEndOfLeaf : BTreeIndex :=
  snd (scanNext (snd (startScan 1 GTE 3 LTE
                        (snd (insertKeys (ascendingKeys 5) (freshIndex 4 4)))))).

(** A relation of three tuples in the order of its file, a relation file
    that holds every record, and the index with an internal root that the
    keys 1..5 leave at the capacities 4 and 4. *)
Definition threeTuples : list (Z * RecordId) :=
  [(30, ridOf 30); (10, ridOf 10); (20, ridOf 20)].

Definition allRecords : RecordId -> Outcome unit := fun _ => Ok tt.

Definition twoLevelIndex : BTreeIndex :=
  snd (insertKeys (ascendingKeys 5) (freshIndex 4 4)).

Definition indexOfThreeTuples : BTreeIndex :=
  snd (BTreeIndex_new rawIndex zeroBufMgr None "relA" 0 INTEGER 4 4 threeTuples).

(** The leaves below the root of [twoLevelIndex], a relation of five tuples
    in the order of its file and the index that the constructor builds
    over it at the capacities 4 and 4. *)
Definition twoLevelChild (j : Z) : Leaf.t :=
  leafAt twoLevelIndex (NonLeaf.pageNoArray (nonLeafAt twoLevelIndex 4) j).

Definition fiveTuples : list (Z * RecordId) :=
  [(30, ridOf 30); (10, ridOf 10); (50, ridOf 50); (20, ridOf 20); (40, ridOf 40)].

Definition indexOfFiveTuples : BTreeIndex :=
  snd (BTreeIndex_new rawIndex zeroBufMgr None "relA" 0 INTEGER 4 4 fiveTuples).

(** * Properties *)

(** Tactics that run the operations on a symbolic state. *)
Ltac st_simpl :=
  cbn [fst snd negb andb orb Operator_eqb Datatype_eqb
       bufMgr headerPageNum rootPageNum attributeType attrByteOffset_ leafOccupancy
       nodeOccupancy onlyOneRoot scanExecuting nextEntry currentPageNum lowValInt
       highValInt lowOp highOp
       set_bufMgr set_headerPageNum set_rootPageNum set_attributeType
       set_attrByteOffset set_leafOccupancy set_nodeOccupancy set_onlyOneRoot
       set_scanExecuting set_nextEntry set_currentPageNum set_lowValInt
       set_highValInt set_lowOp set_highOp
       pages undefMeta undefLeaf undefNonLeaf set_pages].

Ltac st_simpl_in H :=
  cbn [fst snd negb andb orb Operator_eqb Datatype_eqb
       bufMgr headerPageNum rootPageNum attributeType attrByteOffset_ leafOccupancy
       nodeOccupancy onlyOneRoot scanExecuting nextEntry currentPageNum lowValInt
       highValInt lowOp highOp
       set_bufMgr set_headerPageNum set_rootPageNum set_attributeType
       set_attrByteOffset set_leafOccupancy set_nodeOccupancy set_onlyOneRoot
       set_scanExecuting set_nextEntry set_currentPageNum set_lowValInt
       set_highValInt set_lowOp set_highOp
       pages undefMeta undefLeaf undefNonLeaf set_pages] in H.

Ltac run := unfold bind, get, modify, ret, throw; st_simpl.

(** ** The scan fields are outside the footprint of an insertion *)

Lemma keepsScan_ret {A : Type} (a : A) : keepsScan (ret a).
Proof. intros s. reflexivity. Qed.

Lemma keepsScan_throw {A : Type} (e : Exception) : keepsScan (@throw A e).
Proof. intros s. reflexivity. Qed.

Lemma keepsScan_get {A : Type} (f : BTreeIndex -> A) : keepsScan (get f).
Proof. intros s. reflexivity. Qed.

Lemma keepsScan_bind {A B : Type} (m : M A) (k : A -> M B) :
  keepsScan m -> (forall a, keepsScan (k a)) -> keepsScan (bind m k).
Proof.
  intros Hm Hk s. unfold bind. specialize (Hm s).
  destruct (m s) as [[a|e] s1]; simpl in *.
  - rewrite Hk. exact Hm.
  - exact Hm.
Qed.

Lemma keepsScan_modify (f : BTreeIndex -> BTreeIndex) :
  (forall s, scanState (f s) = scanState s) -> keepsScan (modify f).
Proof. intros Hf s. apply Hf. Qed.

Lemma keepsScan_readPage pageNo : keepsScan (readPage pageNo).
Proof. intros s. unfold readPage. destruct (pages (bufMgr s) !! pageNo); reflexivity. Qed.

Lemma keepsScan_alloc_meta : keepsScan allocMeta.
Proof. intros s. reflexivity. Qed.

Lemma keepsScan_alloc_leaf : keepsScan allocLeaf.
Proof. intros s. reflexivity. Qed.

Lemma keepsScan_alloc_nonleaf : keepsScan allocNonLeaf.
Proof. intros s. reflexivity. Qed.

Ltac keeps_step :=
  lazymatch goal with
  | |- keepsScan (bind _ _) => apply keepsScan_bind; [ | intros ? ]
  | |- keepsScan (ret _) => apply keepsScan_ret
  | |- keepsScan (throw _) => apply keepsScan_throw
  | |- keepsScan (get _) => apply keepsScan_get
  | |- keepsScan (readPage _) => apply keepsScan_readPage
  | |- keepsScan allocMeta => apply keepsScan_alloc_meta
  | |- keepsScan allocLeaf => apply keepsScan_alloc_leaf
  | |- keepsScan allocNonLeaf => apply keepsScan_alloc_nonleaf
  | |- keepsScan (modify _) => apply keepsScan_modify; intros ?; reflexivity
  | |- keepsScan (if ?b then _ else _) => destruct b
  | |- keepsScan (match ?x with _ => _ end) => destruct x
  end.

Ltac keeps := repeat keeps_step.

Lemma keepsScan_readLeaf pageNo : keepsScan (readLeaf pageNo).
Proof. unfold readLeaf. keeps. Qed.

Lemma keepsScan_readNonLeaf pageNo : keepsScan (readNonLeaf pageNo).
Proof. unfold readNonLeaf. keeps. Qed.

Lemma keepsScan_readMeta pageNo : keepsScan (readMeta pageNo).
Proof. unfold readMeta. keeps. Qed.

Lemma keepsScan_writePage pageNo p : keepsScan (writePage pageNo p).
Proof. unfold writePage. keeps. Qed.

Lemma keepsScan_updateHeaderRoot rootId : keepsScan (updateHeaderRoot rootId).
Proof.
  unfold updateHeaderRoot. keeps.
  - apply keepsScan_readMeta.
  - apply keepsScan_writePage.
Qed.

Lemma keepsScan_searchEntry fuel : forall key root visited,
  keepsScan (searchEntry fuel key root visited).
Proof.
  induction fuel as [|fuel IH]; intros key root visited; simpl.
  - keeps.
  - keeps_step; [keeps|]. keeps_step; [keeps|].
    keeps_step; [apply keepsScan_readNonLeaf|].
    keeps_step; [apply IH | keeps].
Qed.

Lemma keepsScan_insertEntryInternal_fuel fuel : forall key pageNo newPageNo visited sfl,
  keepsScan (insertEntryInternal_fuel fuel key pageNo newPageNo visited sfl).
Proof.
  induction fuel as [|fuel IH]; intros key pageNo newPageNo visited sfl; simpl.
  - keeps.
  - keeps_step; [apply keepsScan_readNonLeaf|].
    keeps_step; [keeps|].
    keeps_step; [|apply keepsScan_writePage].
    keeps_step; [apply keepsScan_readNonLeaf|].
    keeps_step; [keeps|].
    keeps_step; [apply keepsScan_writePage|].
    keeps_step; [apply keepsScan_writePage|].
    destruct visited as [|parent rest].
    + keeps_step; [keeps|].
      destruct (si_propagateUpKey _); [|keeps].
      keeps_step; [apply keepsScan_writePage|].
      keeps_step; [keeps|]. apply keepsScan_updateHeaderRoot.
    + destruct (si_propagateUpKey _); [apply IH|keeps].
Qed.

Lemma keepsScan_splitLeaf_pages key rid pageNo :
  keepsScan (splitLeaf_pages key rid pageNo).
Proof.
  unfold splitLeaf_pages.
  keeps_step; [apply keepsScan_readLeaf|].
  keeps_step; [keeps|]. keeps_step; [keeps|].
  keeps_step; [apply keepsScan_writePage|].
  keeps_step; [apply keepsScan_writePage|]. keeps.
Qed.

Lemma keepsScan_splitLeaf_newRoot key pageNo newPageNo :
  keepsScan (splitLeaf_newRoot key pageNo newPageNo).
Proof.
  unfold splitLeaf_newRoot.
  keeps_step; [keeps|].
  keeps_step; [apply keepsScan_writePage|].
  keeps_step; [keeps|]. keeps_step; [keeps|].
  apply keepsScan_updateHeaderRoot.
Qed.

Lemma keepsScan_splitLeaf key rid pageNo visited :
  keepsScan (splitLeaf key rid pageNo visited).
Proof.
  unfold splitLeaf.
  keeps_step; [apply keepsScan_splitLeaf_pages|].
  destruct visited as [|parent rest].
  - apply keepsScan_splitLeaf_newRoot.
  - apply keepsScan_insertEntryInternal_fuel.
Qed.

Lemma keepsScan_insertEntry key rid : keepsScan (insertEntry key rid).
Proof.
  unfold insertEntry, insertEntryLeaf.
  keeps_step; [keeps|]. keeps_step; [keeps|].
  keeps_step; [apply keepsScan_searchEntry|].
  keeps_step; [apply keepsScan_readLeaf|].
  keeps_step; [keeps|].
  keeps_step; [apply keepsScan_splitLeaf | apply keepsScan_writePage].
Qed.

(** C10: every [insertEntry] call, whatever it splits or promotes and
    however it ends, leaves [scanExecuting], [nextEntry], [currentPageNum],
    [lowValInt], [highValInt], [lowOp] and [highOp] as they were. *)
Theorem insertEntry_keeps_scan_state (key : Z) (rid : RecordId) (s : BTreeIndex) :
  scanExecuting (snd (insertEntry key rid s)) = scanExecuting s /\
  nextEntry (snd (insertEntry key rid s)) = nextEntry s /\
  currentPageNum (snd (insertEntry key rid s)) = currentPageNum s /\
  lowValInt (snd (insertEntry key rid s)) = lowValInt s /\
  highValInt (snd (insertEntry key rid s)) = highValInt s /\
  lowOp (snd (insertEntry key rid s)) = lowOp s /\
  highOp (snd (insertEntry key rid s)) = highOp s.
Proof.
  pose proof (keepsScan_insertEntry key rid s) as H.
  unfold scanState in H. repeat split; congruence.
Qed.

(** ** The bounds of the two recursions *)

(** [insertEntryInternal] never runs out of its bound: any bound above the
    number of ancestors gives the same result. *)
Lemma insertEntryInternal_fuel_enough : forall visited fuel key pageNo newPageNo sfl s,
  (length visited < fuel)%nat ->
  insertEntryInternal_fuel fuel key pageNo newPageNo visited sfl s =
  insertEntryInternal key pageNo newPageNo visited sfl s.
Proof.
  unfold insertEntryInternal.
  induction visited as [|parent rest IH]; intros fuel key pageNo newPageNo sfl s Hfuel.
  - destruct fuel as [|fuel]; [simpl in Hfuel; lia|].
    cbn [length insertEntryInternal_fuel]. reflexivity.
  - destruct fuel as [|fuel]; [simpl in Hfuel; lia|].
    cbn [length insertEntryInternal_fuel].
    unfold bind.
    destruct (readNonLeaf pageNo s) as [[c|e] s1]; [|reflexivity].
    destruct (get nodeOccupancy s1) as [[occ|e] s2]; [|reflexivity].
    destruct (NonLeaf.numOccupied c >? occ); [|reflexivity].
    destruct (readNonLeaf pageNo s2) as [[c2|e] s3]; [|reflexivity].
    destruct (allocNonLeaf s3) as [[al|e] s4]; [|reflexivity].
    destruct (writePage pageNo _ s4) as [[u|e] s5]; [|reflexivity].
    destruct (writePage (fst al) _ s5) as [[u2|e] s6]; [|reflexivity].
    destruct (si_propagateUpKey _); [|reflexivity].
    rewrite IH by (simpl in Hfuel; lia).
    reflexivity.
Qed.

(** A descent that ends within its bound ends the same way within any
    larger bound. *)
Lemma searchEntry_more_fuel fuel : forall fuel' key root visited s r,
  (fuel <= fuel')%nat ->
  fst (searchEntry fuel key root visited s) = Ok r ->
  searchEntry fuel' key root visited s = searchEntry fuel key root visited s.
Proof.
  induction fuel as [|fuel IH]; intros fuel' key root visited s r Hle;
    destruct fuel' as [|fuel']; try lia;
    cbn [searchEntry]; unfold readNonLeaf, readPage, bind, get, ret, throw;
    destruct (onlyOneRoot s); try reflexivity; cbn [fst snd]; try discriminate.
  destruct (pages (bufMgr s) !! root) as [[m|l|n]|]; cbn [fst snd]; try reflexivity.
  destruct (NonLeaf.level n =? 0); [|reflexivity].
  intros H. eapply IH; [lia|exact H].
Qed.

(** ** Insertion into a leaf that has room *)

Ltac zcases :=
  repeat match goal with
         | |- context [?a =? ?b] => destruct (Z.eqb_spec a b)
         | |- context [?a <=? ?b] => destruct (Z.leb_spec a b)
         | |- context [?a <? ?b] => destruct (Z.ltb_spec a b)
         | |- context [?a >? ?b] => rewrite (Z.gtb_ltb a b)
         | |- context [?a >=? ?b] => rewrite (Z.geb_leb a b)
         end.

Ltac arr :=
  unfold shifted, aset; zcases; simpl;
  first [ lia | reflexivity | congruence | f_equal; lia ].

Lemma insertEntryLeaf_loop_spec (key : Z) : forall n c i p,
  Z.of_nat n = Leaf.numOccupied c - i -> 0 <= i ->
  0 <= p <= Leaf.numOccupied c - i ->
  slotFor (Leaf.keyArray c) key p (Leaf.numOccupied c - 1 - i) ->
  let N := Leaf.numOccupied c in
  let r := insertEntryLeaf_loop n key c i in
  snd r = N - p /\
  Leaf.numOccupied (fst r) = N /\
  Leaf.rightSibPageNo (fst r) = Leaf.rightSibPageNo c /\
  (forall x, Leaf.keyArray (fst r) x = shifted (Leaf.keyArray c) p (N - i) x) /\
  (forall x, Leaf.ridArray (fst r) x = shifted (Leaf.ridArray c) p (N - i) x).
Proof.
  induction n as [|n IH]; intros c i p Hn Hi Hp [Hge Hlt]; cbn zeta.
  - simpl. assert (p = 0) by lia. subst p.
    repeat split; try lia; intros x; unfold shifted; zcases; simpl; try reflexivity; lia.
  - cbn [insertEntryLeaf_loop]. cbn zeta.
    destruct (Z.ltb_spec i (Leaf.numOccupied c)) as [Hlt'|]; [|lia].
    rewrite Z.gtb_ltb.
    destruct (Z.ltb_spec (Leaf.keyArray c (Leaf.numOccupied c - 1 - i)) key) as [Hbr|Hsh].
    + (* break *)
      assert (p = Leaf.numOccupied c - i).
      { destruct (Z.eq_dec p (Leaf.numOccupied c - i)) as [|Hne]; [assumption|].
        specialize (Hge (Leaf.numOccupied c - 1 - i)). lia. }
      subst p. simpl.
      repeat split; try lia; intros x; unfold shifted; zcases; simpl; try reflexivity; lia.
    + (* shift *)
      assert (Hp' : p <= Leaf.numOccupied c - 1 - i).
      { destruct (Z.eq_dec p (Leaf.numOccupied c - i)) as [He|Hne]; [|lia].
        assert (0 < p) as Hpos by lia. specialize (Hlt Hpos).
        replace (p - 1) with (Leaf.numOccupied c - 1 - i) in Hlt by lia. lia. }
      match goal with
      | |- context [insertEntryLeaf_loop n key ?c2 (i + 1)] =>
        specialize (IH c2 (i + 1) p)
      end.
      cbn [Leaf.numOccupied Leaf.set_key Leaf.set_rid Leaf.keyArray Leaf.ridArray
           Leaf.rightSibPageNo] in IH.
      destruct IH as (E1 & E2 & E3 & E4 & E5); try lia.
      { split.
        - intros x Hx. unfold aset. zcases; first [lia | apply Hge; lia].
        - intros Hpos. unfold aset. zcases; lia. }
      repeat split; try assumption.
      * intros x. rewrite E4. unfold shifted, aset.
        zcases; simpl; try reflexivity; try lia; f_equal; lia.
      * intros x. rewrite E5. unfold shifted, aset.
        zcases; simpl; try reflexivity; try lia; f_equal; lia.
Qed.

Lemma insertEntryLeaf_store_spec (key : Z) (rid : RecordId) (c : Leaf.t) (p : Z) :
  0 <= p <= Leaf.numOccupied c ->
  slotFor (Leaf.keyArray c) key p (Leaf.numOccupied c - 1) ->
  let N := Leaf.numOccupied c in
  let c' := insertEntryLeaf_store key rid c in
  Leaf.numOccupied c' = N + 1 /\
  Leaf.rightSibPageNo c' = Leaf.rightSibPageNo c /\
  (forall x, Leaf.keyArray c' x =
             if x =? p then key else shifted (Leaf.keyArray c) p N x) /\
  (forall x, Leaf.ridArray c' x =
             if x =? p then rid else shifted (Leaf.ridArray c) p N x).
Proof.
  intros Hp Hslot. cbn zeta. unfold insertEntryLeaf_store.
  pose proof (insertEntryLeaf_loop_spec key (Z.to_nat (Leaf.numOccupied c)) c 0 p) as H.
  cbn zeta in H.
  replace (Leaf.numOccupied c - 1 - 0) with (Leaf.numOccupied c - 1) in H by lia.
  replace (Leaf.numOccupied c - 0) with (Leaf.numOccupied c) in H by lia.
  destruct H as (E1 & E2 & E3 & E4 & E5); try lia; try assumption.
  destruct (insertEntryLeaf_loop _ key c 0) as [c1 i1]. simpl in *. subst i1.
  replace (Leaf.numOccupied c - (Leaf.numOccupied c - p)) with p by lia.
  repeat split; try assumption.
  - intros x. unfold aset. rewrite E4. reflexivity.
  - intros x. unfold aset. rewrite E5. reflexivity.
Qed.

(** The descent reads pages and nothing else. *)
Lemma searchEntry_state fuel : forall key root visited s,
  snd (searchEntry fuel key root visited s) = s.
Proof.
  induction fuel as [|fuel IH]; intros key root visited s; simpl;
    unfold bind, get, ret, throw, readNonLeaf, readPage, bind; simpl.
  - destruct (onlyOneRoot s); reflexivity.
  - destruct (onlyOneRoot s); [reflexivity|].
    destruct (pages (bufMgr s) !! root) as [[m|l|n]|]; simpl; try reflexivity.
    destruct (NonLeaf.level n =? 0); [apply IH | reflexivity].
Qed.

Lemma insertEntry_unfold (key : Z) (rid : RecordId) (s : BTreeIndex) pageNo visited :
  fst (searchEntry (descentFuel s) key (rootPageNum s) [] s) = Ok (pageNo, visited) ->
  insertEntry key rid s = insertEntryLeaf key rid pageNo visited s.
Proof.
  intros H. unfold insertEntry, bind at 1 2 3, get.
  pose proof (searchEntry_state (descentFuel s) key (rootPageNum s) [] s) as Hs.
  destruct (searchEntry (descentFuel s) key (rootPageNum s) [] s) as [o s1].
  simpl in *. subst. reflexivity.
Qed.

Lemma insertEntryLeaf_room (key : Z) (rid : RecordId) (s : BTreeIndex) pageNo visited L :
  pages (bufMgr s) !! pageNo = Some (LeafPage L) ->
  Leaf.numOccupied L < leafOccupancy s ->
  insertEntryLeaf key rid pageNo visited s =
  (Ok tt, set_bufMgr (set_pages (<[pageNo := LeafPage (insertEntryLeaf_store key rid L)]>
                                   (pages (bufMgr s))) (bufMgr s)) s).
Proof.
  intros Hpage Hroom.
  unfold insertEntryLeaf, readLeaf, readPage, bind, get, ret. rewrite Hpage.
  rewrite Z.geb_leb.
  destruct (Z.leb_spec (leafOccupancy s) (Leaf.numOccupied L)); [lia|].
  reflexivity.
Qed.

(** C9: a key equal to a stored key of the target leaf, the leaf not full:
    no error, the new pair is stored immediately before the equal entry,
    the occupancy grows by one, and the keys of the leaf are afterwards
    ascending only in the non-strict sense. *)
Theorem insertEntry_equal_key (s : BTreeIndex) (k : Z) (rid : RecordId)
    (pageNo : PageId) (visited : list PageId) (L : Leaf.t) (j : Z) :
  fst (searchEntry (descentFuel s) k (rootPageNum s) [] s) = Ok (pageNo, visited) ->
  pages (bufMgr s) !! pageNo = Some (LeafPage L) ->
  Leaf.numOccupied L < leafOccupancy s ->
  ascending (Leaf.keyArray L) (Leaf.numOccupied L) ->
  0 <= j < Leaf.numOccupied L ->
  Leaf.keyArray L j = k ->
  let L' := insertEntryLeaf_store k rid L in
  insertEntry k rid s =
    (Ok tt, set_bufMgr (set_pages (<[pageNo := LeafPage L']> (pages (bufMgr s)))
                          (bufMgr s)) s) /\
  Leaf.numOccupied L' = Leaf.numOccupied L + 1 /\
  Leaf.keyArray L' j = k /\ Leaf.ridArray L' j = rid /\
  Leaf.keyArray L' (j + 1) = k /\ Leaf.ridArray L' (j + 1) = Leaf.ridArray L j /\
  (forall x, 0 <= x < j ->
     Leaf.keyArray L' x = Leaf.keyArray L x /\ Leaf.ridArray L' x = Leaf.ridArray L x) /\
  (forall x, j <= x < Leaf.numOccupied L ->
     Leaf.keyArray L' (x + 1) = Leaf.keyArray L x /\
     Leaf.ridArray L' (x + 1) = Leaf.ridArray L x) /\
  nondescending (Leaf.keyArray L') (Leaf.numOccupied L') /\
  ~ ascending (Leaf.keyArray L') (Leaf.numOccupied L').
Proof.
  intros Hsearch Hpage Hroom Hasc Hj Hk. cbn zeta.
  assert (Hslot : slotFor (Leaf.keyArray L) k j (Leaf.numOccupied L - 1)).
  { split.
    - intros x Hx. destruct (Z.eq_dec x j) as [->|Hne]; [lia|].
      specialize (Hasc j x). lia.
    - intros Hpos. specialize (Hasc (j - 1) j). lia. }
  destruct (insertEntryLeaf_store_spec k rid L j) as (E1 & E2 & E3 & E4);
    [lia | assumption |].
  split.
  { rewrite (insertEntry_unfold k rid s pageNo visited Hsearch).
    apply insertEntryLeaf_room; assumption. }
  split; [assumption|].
  assert (EK : forall x, 0 <= x <= Leaf.numOccupied L ->
             Leaf.keyArray (insertEntryLeaf_store k rid L) x =
             if x <=? j then Leaf.keyArray L x else Leaf.keyArray L (x - 1)).
  { intros x Hx. rewrite E3. unfold shifted. zcases; simpl; try reflexivity; try lia.
    subst x. symmetry. assumption. }
  repeat split.
  - rewrite E3. rewrite Z.eqb_refl. reflexivity.
  - rewrite E4. rewrite Z.eqb_refl. reflexivity.
  - rewrite EK by lia. zcases; try lia.
    replace (j + 1 - 1) with j by lia. assumption.
  - rewrite E4. unfold shifted. zcases; simpl; try lia.
    replace (j + 1 - 1) with j by lia. reflexivity.
  - rewrite E3. arr.
  - rewrite E4. arr.
  - rewrite E3. arr.
  - rewrite E4. arr.
  - intros a b Ha Hab Hb. rewrite E1 in Hb. rewrite !EK by lia.
    zcases; try lia.
    + specialize (Hasc a b). lia.
    + destruct (Z.eq_dec a (b - 1)) as [->|Hne]; [lia|].
      specialize (Hasc a (b - 1)). lia.
    + specialize (Hasc (a - 1) (b - 1)). lia.
  - intros Hstrict. specialize (Hstrict j (j + 1)). rewrite E1 in Hstrict.
    rewrite !EK in Hstrict by lia.
    revert Hstrict. zcases; try lia. replace (j + 1 - 1) with j by lia. lia.
Qed.

(** ** The split of a full leaf

    One step of [splitLeaf_loop] in each of the situations that the loop
    goes through. *)

Ltac decide_test :=
  match goal with
  | |- context [Z.ltb ?a ?b] =>
    first [ rewrite (proj2 (Z.ltb_lt a b)) by lia | rewrite (proj2 (Z.ltb_ge a b)) by lia ]
  | |- context [Z.leb ?a ?b] =>
    first [ rewrite (proj2 (Z.leb_le a b)) by lia | rewrite (proj2 (Z.leb_gt a b)) by lia ]
  | |- context [Z.eqb ?a ?b] =>
    first [ rewrite (proj2 (Z.eqb_eq a b)) by lia | rewrite (proj2 (Z.eqb_neq a b)) by lia ]
  end.

Ltac split_step :=
  cbn [splitLeaf_loop]; unfold newLeafFilled; rewrite ?Z.geb_leb;
  repeat (cbn [sl_new sl_cur sl_inserted Leaf.numOccupied Leaf.set_key Leaf.set_rid
               lincr ldecr Leaf.set_numOccupied negb];
          decide_test);
  try reflexivity.

Section SplitLeafSteps.
Variables (M cap key : Z) (rid : RecordId).

Lemma splitLeaf_step_copy n i st :
  i < M ->
  key < Leaf.keyArray (sl_cur st) (M - 1 - i) ->
  Leaf.numOccupied (sl_new st) + cap < M + 1 ->
  splitLeaf_loop (S n) M cap key rid i st =
  splitLeaf_loop n M cap key rid (i + 1)
    (mkSLS (ldecr (sl_cur st))
       (lincr (Leaf.set_key (M + 1 - cap - 1 - i) (Leaf.keyArray (sl_cur st) (M - 1 - i))
                 (Leaf.set_rid (M + 1 - cap - 1 - i) (Leaf.ridArray (sl_cur st) (M - 1 - i))
                    (sl_new st))))
       (sl_inserted st)).
Proof.
  intros Hi Hk Hroom. destruct st as [c nw ins].
  cbn [sl_cur sl_new sl_inserted] in *. subst.
  split_step.
Qed.

Lemma splitLeaf_step_shift n i st :
  i < M -> M <> i + 1 ->
  key < Leaf.keyArray (sl_cur st) (M - 1 - i) ->
  M + 1 <= Leaf.numOccupied (sl_new st) + cap ->
  splitLeaf_loop (S n) M cap key rid i st =
  splitLeaf_loop n M cap key rid (i + 1)
    (mkSLS (Leaf.set_rid (M - i) (Leaf.ridArray (sl_cur st) (M - 1 - i))
              (Leaf.set_key (M - i) (Leaf.keyArray (sl_cur st) (M - 1 - i)) (sl_cur st)))
       (sl_new st) (sl_inserted st)).
Proof.
  intros Hi Hne Hk Hfull. destruct st as [c nw ins].
  cbn [sl_cur sl_new sl_inserted] in *. subst.
  split_step.
Qed.

Lemma splitLeaf_step_shift_last n i st :
  i < M -> M = i + 1 ->
  key < Leaf.keyArray (sl_cur st) (M - 1 - i) ->
  M + 1 <= Leaf.numOccupied (sl_new st) + cap ->
  splitLeaf_loop (S n) M cap key rid i st =
  splitLeaf_loop n M cap key rid (i + 1)
    (mkSLS (Leaf.set_key (M - 1 - i) key
              (Leaf.set_rid (M - 1 - i) rid
                 (lincr (Leaf.set_rid (M - i) (Leaf.ridArray (sl_cur st) (M - 1 - i))
                           (Leaf.set_key (M - i) (Leaf.keyArray (sl_cur st) (M - 1 - i))
                              (sl_cur st))))))
       (sl_new st) true).
Proof.
  intros Hi HM Hk Hfull. destruct st as [c nw ins].
  cbn [sl_cur sl_new sl_inserted] in *.
  split_step.
Qed.

Lemma splitLeaf_step_place_cur n i st :
  i < M ->
  Leaf.keyArray (sl_cur st) (M - 1 - i) <= key ->
  sl_inserted st = false ->
  M + 1 <= Leaf.numOccupied (sl_new st) + cap ->
  splitLeaf_loop (S n) M cap key rid i st =
  mkSLS (Leaf.set_key (M - i) key (Leaf.set_rid (M - i) rid (lincr (sl_cur st))))
    (sl_new st) true.
Proof.
  intros Hi Hk Hins Hfull. destruct st as [c nw ins].
  cbn [sl_cur sl_new sl_inserted] in *. subst.
  split_step.
Qed.

Lemma splitLeaf_step_place_new_break n i st :
  i < M ->
  Leaf.keyArray (sl_cur st) (M - 1 - i) <= key ->
  sl_inserted st = false ->
  Leaf.numOccupied (sl_new st) + cap = M ->
  splitLeaf_loop (S n) M cap key rid i st =
  mkSLS (sl_cur st)
    (Leaf.set_key (M + 1 - cap - 1 - i) key
       (Leaf.set_rid (M + 1 - cap - 1 - i) rid (lincr (sl_new st))))
    true.
Proof.
  intros Hi Hk Hins Hfull. destruct st as [c nw ins].
  cbn [sl_cur sl_new sl_inserted] in *. subst.
  split_step.
Qed.

Lemma splitLeaf_step_place_new n i st :
  i < M ->
  Leaf.keyArray (sl_cur st) (M - 1 - i) <= key ->
  sl_inserted st = false ->
  Leaf.numOccupied (sl_new st) + cap < M ->
  splitLeaf_loop (S n) M cap key rid i st =
  splitLeaf_loop n M cap key rid (i + 1)
    (mkSLS (ldecr (sl_cur st))
       (lincr (Leaf.set_key (M + 1 - cap - 2 - i) (Leaf.keyArray (sl_cur st) (M - i - 1))
                 (Leaf.set_rid (M + 1 - cap - 2 - i) (Leaf.ridArray (sl_cur st) (M - i - 1))
                    (Leaf.set_key (M + 1 - cap - 1 - i) key
                       (Leaf.set_rid (M + 1 - cap - 1 - i) rid (lincr (sl_new st)))))))
       true).
Proof.
  intros Hi Hk Hins Hroom. destruct st as [c nw ins].
  cbn [sl_cur sl_new sl_inserted] in *. subst.
  split_step.
Qed.

Lemma splitLeaf_step_after_break n i st :
  i < M ->
  Leaf.keyArray (sl_cur st) (M - 1 - i) <= key ->
  sl_inserted st = true ->
  M + 1 <= Leaf.numOccupied (sl_new st) + cap ->
  splitLeaf_loop (S n) M cap key rid i st = st.
Proof.
  intros Hi Hk Hins Hfull. destruct st as [c nw ins].
  cbn [sl_cur sl_new sl_inserted] in *. subst.
  split_step.
Qed.

Lemma splitLeaf_step_after n i st :
  i < M ->
  Leaf.keyArray (sl_cur st) (M - 1 - i) <= key ->
  sl_inserted st = true ->
  Leaf.numOccupied (sl_new st) + cap < M + 1 ->
  splitLeaf_loop (S n) M cap key rid i st =
  splitLeaf_loop n M cap key rid (i + 1)
    (mkSLS (ldecr (sl_cur st))
       (lincr (Leaf.set_key (M + 1 - cap - 2 - i) (Leaf.keyArray (sl_cur st) (M - i - 1))
                 (Leaf.set_rid (M + 1 - cap - 2 - i) (Leaf.ridArray (sl_cur st) (M - i - 1))
                    (sl_new st))))
       true).
Proof.
  intros Hi Hk Hins Hroom. destruct st as [c nw ins].
  cbn [sl_cur sl_new sl_inserted] in *. subst.
  split_step.
Qed.
End SplitLeafSteps.

Lemma capacityOf_bounds (M : Z) :
  0 <= M -> 2 * capacityOf M <= M + 1 < 2 * capacityOf M + 2.
Proof.
  intros HM. unfold capacityOf.
  rewrite Z.quot_div_nonneg by lia.
  pose proof (Z.div_mod (M + 1) 2) as Hd.
  pose proof (Z.mod_pos_bound (M + 1) 2) as Hm. lia.
Qed.

(** The loop of [splitLeaf] on a full leaf with keys [K0] and record ids
    [R0]: [p] is the place of the incoming key among the stored keys. *)
Section SplitLeafSpec.
Variables (M cap key : Z) (rid : RecordId) (K0 : Z -> Z) (R0 : Z -> RecordId) (p : Z).
Hypothesis HM : 3 <= M.
Hypothesis Hcap : 2 * cap <= M + 1 < 2 * cap + 2.
Hypothesis Hp : 0 <= p <= M.
Hypothesis Hlow : forall x, 0 <= x < p -> K0 x < key.
Hypothesis Hhigh : forall x, p <= x < M -> key < K0 x.

Local Abbreviation mergedK := (mergedK M key K0 p).
Local Abbreviation mergedR := (mergedR M rid R0 p).
Local Abbreviation splitDone := (splitDone M cap key rid K0 R0 p).
Local Abbreviation newPart := (newPart M cap key rid K0 R0 p).
Local Abbreviation curSame := (curSame K0 R0).
Local Abbreviation curUp := (curUp cap K0 R0).
Local Abbreviation splitInv := (splitInv M cap key rid K0 R0 p).

Lemma mergedK_below x : x < p -> mergedK x = K0 x.
Proof. intros H. unfold mergedK. arr. Qed.
Lemma mergedK_at : mergedK p = key.
Proof. unfold mergedK. arr. Qed.
Lemma mergedK_above x : p < x <= M -> mergedK x = K0 (x - 1).
Proof. intros H. unfold mergedK. arr. Qed.
Lemma mergedR_below x : x < p -> mergedR x = R0 x.
Proof. intros H. unfold mergedR. arr. Qed.
Lemma mergedR_at : mergedR p = rid.
Proof. unfold mergedR. arr. Qed.
Lemma mergedR_above x : p < x <= M -> mergedR x = R0 (x - 1).
Proof. intros H. unfold mergedR. arr. Qed.

(** One more entry at the low end of the filled part of the new leaf. *)
Lemma newPart_push (nw nw' : Leaf.t) (a : Z) :
  newPart nw ->
  Leaf.numOccupied nw' = Leaf.numOccupied nw + 1 ->
  a = M + 1 - cap - Leaf.numOccupied nw - 1 ->
  (forall y, y <> a -> Leaf.keyArray nw' y = Leaf.keyArray nw y /\
                       Leaf.ridArray nw' y = Leaf.ridArray nw y) ->
  Leaf.keyArray nw' a = mergedK (cap + a) ->
  Leaf.ridArray nw' a = mergedR (cap + a) ->
  newPart nw'.
Proof.
  intros Hpart HN Ha Hother HK HR y Hy.
  destruct (Z.eq_dec y a) as [->|Hne].
  - split; assumption.
  - destruct (Hother y Hne) as [-> ->]. apply Hpart. lia.
Qed.

Lemma newPart_empty (nw : Leaf.t) : Leaf.numOccupied nw = 0 -> newPart nw.
Proof. intros HN y Hy. lia. Qed.

Ltac leaf_simpl :=
  cbn [sl_cur sl_new sl_inserted Leaf.keyArray Leaf.ridArray Leaf.numOccupied
       Leaf.rightSibPageNo lincr ldecr Leaf.set_key Leaf.set_rid
       Leaf.set_numOccupied Leaf.set_rightSibPageNo] in *.

Lemma splitLeaf_loop_inv : forall n i st,
  Z.of_nat n = M - i -> 0 <= i -> splitInv i st ->
  splitDone (splitLeaf_loop n M cap key rid i st).
Proof.
  induction n as [|n IH]; intros i st Hn Hi Hinv.
  - destruct Hinv; try lia. simpl. assumption.
  - assert (Hlt : i < M) by lia.
    destruct Hinv as [H1 H2 Hins Hnew Hcur Hsame Hpart
                     |H1 H2 Hins Hnew Hcur Hsame Hpart
                     |H1 H2 H3 Hins Hnew Hcur Hsame Hup Hpart
                     |H1 H2]; [ | | |lia].
    + (* the entries above the key are copied to the new leaf *)
      destruct (Hsame (M - 1 - i)) as [EK ER]; [lia|].
      destruct (Z.eq_dec i (M - p)) as [Heq|Hne].
      * assert (Hk : Leaf.keyArray (sl_cur st) (M - 1 - i) <= key).
        { rewrite EK. specialize (Hlow (M - 1 - i)). lia. }
        destruct (Z.eq_dec (i + 1) (M + 1 - cap)) as [Hfull|Hroom].
        -- rewrite splitLeaf_step_place_new_break by (assumption || lia).
           unfold splitDone. leaf_simpl.
           split; [lia|]. split; [lia|]. split.
           ++ intros x Hx. destruct (Hsame x) as [-> ->]; [lia|].
              rewrite mergedK_below, mergedR_below by lia. split; reflexivity.
           ++ intros y Hy. unfold aset.
              destruct (Z.eqb_spec y (M + 1 - cap - 1 - i)) as [->|Hy'].
              ** replace (cap + (M + 1 - cap - 1 - i)) with p by lia.
                 rewrite mergedK_at, mergedR_at. split; reflexivity.
              ** apply Hpart. lia.
        -- rewrite splitLeaf_step_place_new by (assumption || lia).
           apply IH; [lia|lia|].
           apply InvAfter; leaf_simpl; try lia; try reflexivity; try assumption.
           intros y Hy. leaf_simpl. unfold aset.
           destruct (Z.eqb_spec y (M + 1 - cap - 2 - i)) as [->|Hy1].
           ++ destruct (Hsame (M - i - 1)) as [-> ->]; [lia|].
              rewrite mergedK_below, mergedR_below by lia.
              split; f_equal; lia.
           ++ destruct (Z.eqb_spec y (M + 1 - cap - 1 - i)) as [->|Hy2].
              ** replace (cap + (M + 1 - cap - 1 - i)) with p by lia.
                 rewrite mergedK_at, mergedR_at. split; reflexivity.
              ** apply Hpart. lia.
      * assert (Hk : key < Leaf.keyArray (sl_cur st) (M - 1 - i)).
        { rewrite EK. apply Hhigh. lia. }
        rewrite splitLeaf_step_copy by (assumption || lia).
        apply IH; [lia|lia|].
        assert (Hpart' : newPart
                  (lincr (Leaf.set_key (M + 1 - cap - 1 - i)
                            (Leaf.keyArray (sl_cur st) (M - 1 - i))
                            (Leaf.set_rid (M + 1 - cap - 1 - i)
                               (Leaf.ridArray (sl_cur st) (M - 1 - i)) (sl_new st))))).
        { intros y Hy. leaf_simpl. unfold aset.
          destruct (Z.eqb_spec y (M + 1 - cap - 1 - i)) as [->|Hy1].
          - rewrite EK, ER. rewrite mergedK_above, mergedR_above by lia.
            split; f_equal; lia.
          - apply Hpart. lia. }
        destruct (Z.eq_dec (i + 1) (M + 1 - cap)) as [Hfull|Hroom].
        -- apply InvShift; leaf_simpl; try lia; try assumption.
           ++ intros x Hx. apply Hsame. lia.
           ++ intros x Hx. lia.
        -- apply InvCopy; leaf_simpl; try lia; try assumption.
    + (* the key is in the new leaf, the entries below it follow *)
      destruct (Hsame (M - 1 - i)) as [EK ER]; [lia|].
      assert (Hk : Leaf.keyArray (sl_cur st) (M - 1 - i) <= key).
      { rewrite EK. specialize (Hlow (M - 1 - i)). lia. }
      destruct (Z.eq_dec i (M - cap)) as [Hfull|Hroom].
      * rewrite splitLeaf_step_after_break by (assumption || lia).
        unfold splitDone. split; [lia|]. split; [lia|]. split.
        -- intros x Hx. destruct (Hsame x) as [-> ->]; [lia|].
           rewrite mergedK_below, mergedR_below by lia. split; reflexivity.
        -- intros y Hy. apply Hpart. lia.
      * rewrite splitLeaf_step_after by (assumption || lia).
        apply IH; [lia|lia|].
        apply InvAfter; leaf_simpl; try lia; try reflexivity; try assumption.
        intros y Hy. leaf_simpl. unfold aset.
        destruct (Z.eqb_spec y (M + 1 - cap - 2 - i)) as [->|Hy1].
        -- destruct (Hsame (M - i - 1)) as [-> ->]; [lia|].
           rewrite mergedK_below, mergedR_below by lia.
           split; f_equal; lia.
        -- apply Hpart. lia.
    + (* the new leaf is filled, the entries above the key move up *)
      destruct (Hsame (M - 1 - i)) as [EK ER]; [lia|].
      destruct (Z.eq_dec i (M - p)) as [Heq|Hne].
      * assert (Hk : Leaf.keyArray (sl_cur st) (M - 1 - i) <= key).
        { rewrite EK. specialize (Hlow (M - 1 - i)). lia. }
        rewrite splitLeaf_step_place_cur by (assumption || lia).
        unfold splitDone. leaf_simpl.
        split; [lia|]. split; [lia|]. split.
        -- intros x Hx. unfold aset.
           destruct (Z.eqb_spec x (M - i)) as [->|Hx1].
           ++ replace (M - i) with p by lia.
              rewrite mergedK_at, mergedR_at. split; reflexivity.
           ++ destruct (Z_lt_le_dec x (M - i)) as [Hb|Ha].
              ** destruct (Hsame x) as [-> ->]; [lia|].
                 rewrite mergedK_below, mergedR_below by lia. split; reflexivity.
              ** destruct (Hup (x - 1)) as [E1 E2]; [lia|].
                 replace (x - 1 + 1) with x in E1, E2 by lia.
                 rewrite E1, E2.
                 rewrite mergedK_above, mergedR_above by lia. split; reflexivity.
        -- intros y Hy. apply Hpart. lia.
      * assert (Hk : key < Leaf.keyArray (sl_cur st) (M - 1 - i)).
        { rewrite EK. apply Hhigh. lia. }
        destruct (Z.eq_dec M (i + 1)) as [Hlast|Hmore].
        -- rewrite splitLeaf_step_shift_last by (assumption || lia).
           apply IH; [lia|lia|].
           apply InvDone; [lia|].
           unfold splitDone. leaf_simpl.
           split; [lia|]. split; [lia|]. split.
           ++ intros x Hx. unfold aset.
              destruct (Z.eqb_spec x (M - 1 - i)) as [->|Hx1].
              ** replace (M - 1 - i) with p by lia.
                 rewrite mergedK_at, mergedR_at. split; reflexivity.
              ** destruct (Z.eqb_spec x (M - i)) as [->|Hx2].
                 --- rewrite EK, ER.
                     rewrite mergedK_above, mergedR_above by lia.
                     split; f_equal; lia.
                 --- destruct (Hup (x - 1)) as [E1 E2]; [lia|].
                     replace (x - 1 + 1) with x in E1, E2 by lia.
                     rewrite E1, E2.
                     rewrite mergedK_above, mergedR_above by lia. split; reflexivity.
           ++ intros y Hy. apply Hpart. lia.
        -- rewrite splitLeaf_step_shift by (assumption || lia).
           apply IH; [lia|lia|].
           apply InvShift; leaf_simpl; try lia; try assumption.
           ++ intros x Hx. leaf_simpl. unfold aset.
              destruct (Z.eqb_spec x (M - i)) as [->|Hx1]; [lia|].
              apply Hsame. lia.
           ++ intros x Hx. leaf_simpl. unfold aset.
              destruct (Z.eqb_spec (x + 1) (M - i)) as [Hx1|Hx1].
              ** replace x with (M - 1 - i) by lia. split; assumption.
              ** apply Hup. lia.
Qed.
End SplitLeafSpec.

(** The loop of [splitLeaf] does not touch the sibling links. *)

Lemma splitLeaf_loop_siblings (M cap key : Z) (rid : RecordId) : forall n i st,
  siblings (splitLeaf_loop n M cap key rid i st) = siblings st.
Proof.
  induction n as [|n IH]; intros i st; [reflexivity|].
  cbn [splitLeaf_loop].
  repeat match goal with
         | |- context [if ?b then _ else _] => destruct b
         end;
    rewrite ?IH; reflexivity.
Qed.

(** The place of a key among ascending keys that do not contain it. *)
Lemma slot_exists (K : Z -> Z) (key : Z) : forall n : nat,
  ascending K (Z.of_nat n) ->
  (forall x, 0 <= x < Z.of_nat n -> K x <> key) ->
  exists p, 0 <= p <= Z.of_nat n /\
            (forall x, 0 <= x < p -> K x < key) /\
            (forall x, p <= x < Z.of_nat n -> key < K x).
Proof.
  induction n as [|n IH]; intros Hasc Hne.
  - exists 0. repeat split; intros; lia.
  - destruct IH as (p & Hp & Hlo & Hhi).
    + intros a b Ha Hab Hb. apply Hasc; lia.
    + intros x Hx. apply Hne. lia.
    + destruct (Z.eq_dec p (Z.of_nat n)) as [->|Hpn].
      * destruct (Z_lt_le_dec (K (Z.of_nat n)) key) as [Hlt|Hge].
        -- exists (Z.of_nat n + 1). repeat split; try lia.
           intros x Hx. destruct (Z.eq_dec x (Z.of_nat n)) as [->|]; [assumption|].
           apply Hlo. lia.
        -- exists (Z.of_nat n). repeat split; try lia; [assumption|].
           intros x Hx. assert (x = Z.of_nat n) by lia. subst x.
           specialize (Hne (Z.of_nat n)). lia.
      * exists p. repeat split; try lia; [assumption|].
        intros x Hx. destruct (Z.eq_dec x (Z.of_nat n)) as [->|].
        -- specialize (Hhi p). specialize (Hasc p (Z.of_nat n)). lia.
        -- apply Hhi. lia.
Qed.

Lemma mergedK_ascending (M key : Z) (K0 : Z -> Z) (p : Z) :
  0 <= p <= M -> ascending K0 M ->
  (forall x, 0 <= x < p -> K0 x < key) ->
  (forall x, p <= x < M -> key < K0 x) ->
  ascending (mergedK M key K0 p) (M + 1).
Proof.
  intros Hp Hasc Hlo Hhi a b Ha Hab Hb. unfold mergedK, shifted.
  zcases; simpl; try lia.
  - specialize (Hhi (b - 1)). lia.
  - specialize (Hlo a). lia.
  - apply Hasc; lia.
  - destruct (Z.eq_dec a (b - 1)) as [->|]; [lia|]. apply Hasc; lia.
  - apply Hasc; lia.
Qed.

(** [splitLeaf] on the nodes: the two leaves hold the [M + 1] entries in key
    order, the first [capacityOf M] of them in the old leaf. *)
Lemma splitLeaf_nodes_spec (M key : Z) (rid : RecordId) (newPageNo : PageId)
    (c junk : Leaf.t) (p : Z) :
  3 <= M -> Leaf.numOccupied c = M -> 0 <= p <= M ->
  (forall x, 0 <= x < p -> Leaf.keyArray c x < key) ->
  (forall x, p <= x < M -> key < Leaf.keyArray c x) ->
  let r := splitLeaf_nodes M key rid newPageNo c junk in
  let c' := fst (fst r) in
  let nw := snd (fst r) in
  Leaf.numOccupied c' = capacityOf M /\
  Leaf.numOccupied nw = M + 1 - capacityOf M /\
  (forall x, 0 <= x < capacityOf M ->
     Leaf.keyArray c' x = mergedK M key (Leaf.keyArray c) p x /\
     Leaf.ridArray c' x = mergedR M rid (Leaf.ridArray c) p x) /\
  (forall y, 0 <= y < M + 1 - capacityOf M ->
     Leaf.keyArray nw y = mergedK M key (Leaf.keyArray c) p (capacityOf M + y) /\
     Leaf.ridArray nw y = mergedR M rid (Leaf.ridArray c) p (capacityOf M + y)) /\
  Leaf.rightSibPageNo c' = newPageNo /\
  Leaf.rightSibPageNo nw = Leaf.rightSibPageNo c /\
  snd r = Leaf.keyArray nw 0.
Proof.
  intros HM HN Hp Hlo Hhi. cbn zeta. unfold splitLeaf_nodes. cbn [fst snd].
  pose proof (capacityOf_bounds M ltac:(lia)) as Hcap.
  match goal with
  | |- context [splitLeaf_loop ?n M ?cap key rid 0 ?st] =>
    pose proof (splitLeaf_loop_inv M cap key rid (Leaf.keyArray c) (Leaf.ridArray c) p
                  HM Hcap Hp Hlo Hhi n 0 st) as Hinv;
    pose proof (splitLeaf_loop_siblings M cap key rid n 0 st) as Hsib
  end.
  destruct Hinv as (E1 & E2 & E3 & E4).
  - lia.
  - lia.
  - apply InvCopy; cbn; try lia; try reflexivity.
    + intros x Hx. split; reflexivity.
    + apply newPart_empty. reflexivity.
  - unfold siblings in Hsib. cbn in Hsib. injection Hsib as S1 S2.
    repeat split; assumption || apply E3 || apply E4 || idtac; assumption.
Qed.

(** C2: a full leaf with ascending keys receives a pair whose key is not in
    the leaf.  [splitLeaf] leaves two leaves whose occupancies add up to
    [leafOccupancy + 1], the new right leaf with the upper
    [ceil ((leafOccupancy + 1) / 2)] entries; the keys ascend within each
    leaf and every key of the old leaf is below every key of the new one;
    the new leaf takes over the old right sibling and becomes the right
    sibling of the old leaf; the key that goes up is the first key of the
    new leaf, which stays stored there.  Every entry of the old leaf and the
    new pair is in one of the two leaves.  The capacity of the header is
    taken to be at least 3. *)
Theorem splitLeaf_full_leaf (s : BTreeIndex) (pageNo : PageId) (L : Leaf.t)
    (k : Z) (rid : RecordId) (visited : list PageId) :
  3 <= leafOccupancy s ->
  pages (bufMgr s) !! pageNo = Some (LeafPage L) ->
  pageNo <> nextPageNo (bufMgr s) ->
  Leaf.numOccupied L = leafOccupancy s ->
  ascending (Leaf.keyArray L) (leafOccupancy s) ->
  (forall x, 0 <= x < leafOccupancy s -> Leaf.keyArray L x <> k) ->
  exists (L1 L2 : Leaf.t) (s' : BTreeIndex),
    let newPageNo := nextPageNo (bufMgr s) in
    let Lmax := leafOccupancy s in
    splitLeaf_pages k rid pageNo s = (Ok (newPageNo, Leaf.keyArray L2 0), s') /\
    splitLeaf k rid pageNo visited s =
      match visited with
      | parentPageNo :: rest =>
        insertEntryInternal (Leaf.keyArray L2 0) parentPageNo newPageNo rest true s'
      | [] => splitLeaf_newRoot (Leaf.keyArray L2 0) pageNo newPageNo s'
      end /\
    pages (bufMgr s') !! pageNo = Some (LeafPage L1) /\
    pages (bufMgr s') !! newPageNo = Some (LeafPage L2) /\
    Leaf.numOccupied L1 + Leaf.numOccupied L2 = Lmax + 1 /\
    Leaf.numOccupied L2 = (Lmax + 1 + 1) / 2 /\
    1 <= Leaf.numOccupied L1 /\
    ascending (Leaf.keyArray L1) (Leaf.numOccupied L1) /\
    ascending (Leaf.keyArray L2) (Leaf.numOccupied L2) /\
    (forall x y, 0 <= x < Leaf.numOccupied L1 -> 0 <= y < Leaf.numOccupied L2 ->
       Leaf.keyArray L1 x < Leaf.keyArray L2 y) /\
    Leaf.rightSibPageNo L2 = Leaf.rightSibPageNo L /\
    Leaf.rightSibPageNo L1 = newPageNo /\
    (forall x, 0 <= x < Lmax ->
       (exists y, 0 <= y < Leaf.numOccupied L1 /\
                  Leaf.keyArray L1 y = Leaf.keyArray L x /\
                  Leaf.ridArray L1 y = Leaf.ridArray L x) \/
       (exists y, 0 <= y < Leaf.numOccupied L2 /\
                  Leaf.keyArray L2 y = Leaf.keyArray L x /\
                  Leaf.ridArray L2 y = Leaf.ridArray L x)) /\
    ((exists y, 0 <= y < Leaf.numOccupied L1 /\
                Leaf.keyArray L1 y = k /\ Leaf.ridArray L1 y = rid) \/
     (exists y, 0 <= y < Leaf.numOccupied L2 /\
                Leaf.keyArray L2 y = k /\ Leaf.ridArray L2 y = rid)).
Proof.
  intros HM Hpage Hfresh HN Hasc Hne.
  set (M := leafOccupancy s) in *.
  destruct (slot_exists (Leaf.keyArray L) k (Z.to_nat M)) as (p & Hp & Hlo & Hhi).
  { rewrite Z2Nat.id by lia. assumption. }
  { rewrite Z2Nat.id by lia. assumption. }
  rewrite Z2Nat.id in Hp, Hhi by lia.
  pose proof (splitLeaf_nodes_spec M k rid (nextPageNo (bufMgr s)) L
                (undefLeaf (bufMgr s) (nextPageNo (bufMgr s))) p HM HN Hp Hlo Hhi) as Hspec.
  cbn zeta in Hspec.
  destruct Hspec as (E1 & E2 & E3 & E4 & E5 & E6 & E7).
  pose proof (capacityOf_bounds M ltac:(lia)) as Hcap.
  pose proof (mergedK_ascending M k (Leaf.keyArray L) p Hp Hasc Hlo Hhi) as Hmerged.
  set (r := splitLeaf_nodes M k rid (nextPageNo (bufMgr s)) L
              (undefLeaf (bufMgr s) (nextPageNo (bufMgr s)))) in *.
  exists (fst (fst r)), (snd (fst r)).
  eexists. cbn zeta.
  assert (Hrun : splitLeaf_pages k rid pageNo s =
            (Ok (nextPageNo (bufMgr s), Leaf.keyArray (snd (fst r)) 0),
             set_bufMgr
               (set_pages
                  (<[nextPageNo (bufMgr s) := LeafPage (snd (fst r))]>
                     (<[pageNo := LeafPage (fst (fst r))]>
                        (<[nextPageNo (bufMgr s) :=
                             LeafPage (undefLeaf (bufMgr s) (nextPageNo (bufMgr s)))]>
                           (pages (bufMgr s)))))
                  (bufMgr s)) s)).
  { unfold splitLeaf_pages, readLeaf, readPage, bind, allocLeaf, get, writePage, modify, ret.
    rewrite Hpage. reflexivity. }
  split; [exact Hrun|].
  split.
  { unfold splitLeaf. unfold bind at 1. rewrite Hrun. cbn [fst snd].
    destruct visited; reflexivity. }
  cbn [bufMgr set_bufMgr pages set_pages].
  split. { rewrite lookup_insert_ne by auto. rewrite lookup_insert_eq. reflexivity. }
  split. { rewrite lookup_insert_eq. reflexivity. }
  split; [lia|].
  split. { rewrite E2. pose proof (Z.div_mod (M + 1 + 1) 2) as Hd.
           pose proof (Z.mod_pos_bound (M + 1 + 1) 2) as Hm. lia. }
  split; [lia|].
  split. { intros a b Ha Hab Hb. destruct (E3 a) as [-> _]; [lia|].
           destruct (E3 b) as [-> _]; [lia|]. apply Hmerged; lia. }
  split. { intros a b Ha Hab Hb. destruct (E4 a) as [-> _]; [lia|].
           destruct (E4 b) as [-> _]; [lia|]. apply Hmerged; lia. }
  split. { intros x y Hx Hy. destruct (E3 x) as [-> _]; [lia|].
           destruct (E4 y) as [-> _]; [lia|]. apply Hmerged; lia. }
  split; [assumption|]. split; [assumption|].
  assert (Hfind : forall e, 0 <= e < M + 1 ->
            (exists y, 0 <= y < Leaf.numOccupied (fst (fst r)) /\
                       Leaf.keyArray (fst (fst r)) y = mergedK M k (Leaf.keyArray L) p e /\
                       Leaf.ridArray (fst (fst r)) y = mergedR M rid (Leaf.ridArray L) p e) \/
            (exists y, 0 <= y < Leaf.numOccupied (snd (fst r)) /\
                       Leaf.keyArray (snd (fst r)) y = mergedK M k (Leaf.keyArray L) p e /\
                       Leaf.ridArray (snd (fst r)) y = mergedR M rid (Leaf.ridArray L) p e)).
  { intros e He. destruct (Z_lt_le_dec e (capacityOf M)) as [Hl|Hr].
    - left. exists e. destruct (E3 e) as [-> ->]; [lia|]. repeat split; lia.
    - right. exists (e - capacityOf M).
      destruct (E4 (e - capacityOf M)) as [-> ->]; [lia|].
      replace (capacityOf M + (e - capacityOf M)) with e by lia.
      repeat split; lia. }
  split.
  - intros x Hx. destruct (Z_lt_le_dec x p) as [Hl|Hr].
    + specialize (Hfind x ltac:(lia)).
      rewrite mergedK_below, mergedR_below in Hfind by lia. exact Hfind.
    + specialize (Hfind (x + 1) ltac:(lia)).
      rewrite mergedK_above, mergedR_above in Hfind by lia.
      replace (x + 1 - 1) with x in Hfind by lia. exact Hfind.
  - specialize (Hfind p ltac:(lia)).
    rewrite mergedK_at, mergedR_at in Hfind. exact Hfind.
Qed.

(** ** The leaf split below the capacity 3

    The bound on the capacity in the theorem on the leaf split is needed: at
    the capacity 2 the loop of [splitLeaf] has moved both entries to the new
    leaf when it ends, and a key below both is stored nowhere. *)
Example splitLeaf_capacity_2 :
  let r := insertKeys [10; 20; 5] (freshIndex 2 4) in
  fst r = Ok tt /\
  Leaf.numOccupied (leafAt (snd r) 2) = 0 /\
  keysOf (Leaf.keyArray (leafAt (snd r) 3)) (Leaf.numOccupied (leafAt (snd r) 3)) = [10; 20].
Proof. vm_compute. repeat split; reflexivity. Qed.

(** ** The round trip after an internal node has split (C1) *)

(** C1, at the capacities 4 and 4: the keys 1..21 are inserted in ascending
    order into a fresh index, each with its own record id, and the scan of
    [1, 21] with non-strict bounds returns the record ids of 7..21 only. *)
Theorem scan_after_internal_split_misses_keys :
  fst (insertKeys (ascendingKeys 21) (freshIndex 4 4)) = Ok tt /\
  fst (scanRange 1 GTE 21 LTE (snd (insertKeys (ascendingKeys 21) (freshIndex 4 4)))) =
    Ok (map ridOf [7; 8; 9; 10; 11; 12; 13; 14; 15; 16; 17; 18; 19; 20; 21]).
Proof. split; vm_compute; reflexivity. Qed.

(** Up to the first internal split the same run is a round trip. *)
Example scan_before_internal_split :
  fst (scanRange 1 GTE 14 LTE (snd (insertKeys (ascendingKeys 14) (freshIndex 4 4)))) =
    Ok (map ridOf (ascendingKeys 14)).
Proof. vm_compute. reflexivity. Qed.

(** The same at the capacities 8 and 8: the keys 1..64 make a round trip,
    with the 65th key the scan of [1, 65] starts at 21. *)
Example scan_after_internal_split_capacity_8 :
  fst (scanRange 1 GTE 64 LTE (snd (insertKeys (ascendingKeys 64) (freshIndex 8 8)))) =
    Ok (map ridOf (ascendingKeys 64)) /\
  fst (insertKeys (ascendingKeys 65) (freshIndex 8 8)) = Ok tt /\
  fst (scanRange 1 GTE 65 LTE (snd (insertKeys (ascendingKeys 65) (freshIndex 8 8)))) =
    Ok (map ridOf (map (fun k => k + 20) (ascendingKeys 45))).
Proof. vm_compute. repeat split; reflexivity. Qed.

(** What the split of the root did at the fifteenth key, when the root held
    the keys 3, 5, 7, 9, 11 over six leaves and the leaf split sent up 13
    with page 9: the key 11 and the children 7 and 8 are gone, the key 13 is
    stored as the third child of page 4, and the new node (page 10) counts
    three keys over the two that it received. *)
Example internal_split_state :
  let s := snd (insertKeys (ascendingKeys 15) (freshIndex 4 4)) in
  let old := nonLeafAt s 4 in
  let new := nonLeafAt s 10 in
  (NonLeaf.numOccupied old, keysOf (NonLeaf.keyArray old) 3,
   keysOf (NonLeaf.pageNoArray old) 4) = (3, [9; 5; 7], [6; 3; 13; 9]) /\
  (NonLeaf.numOccupied new, keysOf (NonLeaf.keyArray new) 3,
   keysOf (NonLeaf.pageNoArray new) 4) = (3, [3; 5; 0], [2; 3; 5; 0]).
Proof. vm_compute. split; reflexivity. Qed.

(** The key stored as a child does not depend on the capacities.  The loop
    of [splitInternal] places the key only in front of a larger key of the
    node; the moves of the loop write below the index that the loop has
    reached, so the keys still to be compared are those of the node before
    the split. *)
Lemma splitInternal_move_frame (capacity i shift newIdx : Z) (st : SplitInternalState) :
  0 <= capacity -> 1 <= shift ->
  si_inserted (splitInternal_move capacity i shift newIdx st) = si_inserted st /\
  (forall j, i <= j ->
     NonLeaf.keyArray (si_cur (splitInternal_move capacity i shift newIdx st)) j =
     NonLeaf.keyArray (si_cur st) j).
Proof.
  intros Hcap Hshift. unfold splitInternal_move.
  destruct (Z.gtb_spec (NonLeaf.numOccupied (si_new st)) capacity) as [Hgt|Hle].
  - split; [reflexivity|]. intros j Hj. cbn. unfold aset.
    destruct (Z.eqb_spec j (i - (NonLeaf.numOccupied (si_new st) - 1) - shift));
      [lia|reflexivity].
  - destruct (NonLeaf.numOccupied (si_new st) <? capacity); split;
      reflexivity || (intros; reflexivity).
Qed.

Lemma splitInternal_loop_key_above (nodeOccupancy capacity key : Z) (newPageNo : PageId)
    (sfl : bool) (K : Z -> Z) : forall n i st,
  0 <= capacity ->
  (forall j, 0 <= j < nodeOccupancy -> K j <= key) ->
  0 <= i ->
  (forall j, i <= j -> NonLeaf.keyArray (si_cur st) j = K j) ->
  si_inserted st = false ->
  si_inserted (splitInternal_loop n nodeOccupancy capacity key newPageNo sfl i st) = false.
Proof.
  induction n as [|n IH]; intros i st Hcap Habove Hi Hsame Hins; [exact Hins|].
  cbn [splitInternal_loop].
  destruct (Z.ltb_spec i nodeOccupancy) as [Hlt|Hge]; [|exact Hins].
  rewrite (Hsame i ltac:(lia)).
  destruct (Z.ltb_spec key (K i)) as [Hk|Hk]; [specialize (Habove i); lia|].
  destruct (splitInternal_move_frame capacity i 1 i st Hcap ltac:(lia)) as [E1 E2].
  apply IH; try assumption; try lia.
  - intros j Hj. rewrite E2 by lia. apply Hsame. lia.
  - rewrite E1. exact Hins.
Qed.

(** At every capacity: when the separator that a leaf split sends up is not
    below any of the keys that the loop compares it with (as for keys that
    arrive in ascending order), [splitInternal] leaves the loop without having
    placed it, and line 552 stores the key itself, converted to a page number,
    as the last but one child of the old node, in front of the new page. *)
Lemma splitInternal_stores_key_as_page (nodeOccupancy key : Z) (newPageNo : PageId)
    (cur junk : NonLeaf.t) :
  0 <= nodeOccupancy ->
  (forall j, 0 <= j < nodeOccupancy -> NonLeaf.keyArray cur j <= key) ->
  let st := splitInternal_nodes nodeOccupancy key newPageNo true cur junk in
  NonLeaf.pageNoArray (si_cur st) (NonLeaf.numOccupied (si_cur st) - 1) = toPageId key /\
  NonLeaf.pageNoArray (si_cur st) (NonLeaf.numOccupied (si_cur st)) = newPageNo.
Proof.
  intros Hocc Habove. cbn zeta. unfold splitInternal_nodes.
  match goal with
  | |- context [splitInternal_loop ?n ?no ?cap key newPageNo true 0 ?st0] =>
    pose proof (splitInternal_loop_key_above no cap key newPageNo true
                  (NonLeaf.keyArray cur) n 0 st0) as Hloop;
    set (st := splitInternal_loop n no cap key newPageNo true 0 st0) in *
  end.
  assert (Hins : si_inserted st = false).
  { apply Hloop; try assumption; try lia; try reflexivity.
    pose proof (capacityOf_bounds nodeOccupancy Hocc). lia. }
  unfold splitInternal_finish. rewrite Hins.
  cbn [si_cur incr NonLeaf.numOccupied NonLeaf.set_numOccupied NonLeaf.set_pageNo
       NonLeaf.pageNoArray].
  unfold aset. split.
  - replace (NonLeaf.numOccupied (si_cur st) + 1 - 1)
      with (NonLeaf.numOccupied (si_cur st)) by lia.
    destruct (Z.eqb_spec (NonLeaf.numOccupied (si_cur st))
                (NonLeaf.numOccupied (si_cur st) + 1)); [lia|].
    rewrite Z.eqb_refl. reflexivity.
  - rewrite Z.eqb_refl. reflexivity.
Qed.

(** ** [startScan] on a leaf without a key for the low bound (C3) *)

Lemma startScan_loop_none (lo : Z) (lop : Operator) (l : Leaf.t) (ne : Z) :
  forall n i,
  (forall x, i <= x < Leaf.numOccupied l -> belowLow lo lop (Leaf.keyArray l x)) ->
  startScan_loop n lo lop l i ne = ne.
Proof.
  induction n as [|n IH]; intros i Hnone; [reflexivity|].
  cbn [startScan_loop].
  destruct (Z.ltb_spec i (Leaf.numOccupied l)) as [Hi|Hi]; [|reflexivity].
  destruct (Hnone i ltac:(lia)) as [Hlt|[Hop Heq]].
  - rewrite (proj2 (Z.ltb_lt _ _) Hlt). apply IH. intros x Hx. apply Hnone. lia.
  - rewrite Heq, Z.ltb_irrefl, Z.eqb_refl.
    replace (negb (Operator_eqb lop GTE)) with true by (destruct lop; cbn; congruence).
    cbn [andb]. apply IH. intros x Hx. apply Hnone. lia.
Qed.

Lemma searchEntry_onlyOneRoot fuel key root visited s :
  onlyOneRoot s = true ->
  searchEntry fuel key root visited s = (Ok (root, visited), s).
Proof.
  intros H. destruct fuel; cbn [searchEntry]; unfold bind, get, ret; rewrite H; reflexivity.
Qed.

(** A running scan is ended first; the rest is a [startScan] without one. *)
Lemma startScan_restart lo lop hi hop s :
  scanExecuting s = true ->
  startScan lo lop hi hop s = startScan lo lop hi hop (set_scanExecuting false s).
Proof.
  intros Hex. unfold startScan.
  unfold bind at 1. unfold get at 1. rewrite Hex.
  unfold bind at 1. unfold endScan at 1, bind at 1, get at 1. rewrite Hex.
  unfold modify at 1.
  symmetry. unfold bind at 1. unfold get at 1.
  cbn [scanExecuting set_scanExecuting]. unfold bind at 1. unfold ret at 1.
  reflexivity.
Qed.

(** The descent depends on the pages and on [onlyOneRoot] only. *)
Lemma searchEntry_depends fuel : forall key root visited s1 s2,
  bufMgr s1 = bufMgr s2 -> onlyOneRoot s1 = onlyOneRoot s2 ->
  fst (searchEntry fuel key root visited s1) = fst (searchEntry fuel key root visited s2).
Proof.
  induction fuel as [|fuel IH]; intros key root visited s1 s2 Hb Ho;
    cbn [searchEntry]; unfold readNonLeaf, readPage; run; rewrite Ho;
    (destruct (onlyOneRoot s2) eqn:Ho2; [reflexivity|]); [reflexivity|].
  st_simpl. rewrite Hb.
  destruct (pages (bufMgr s2) !! root) as [[m|l|n]|]; st_simpl; try reflexivity.
  destruct (NonLeaf.level n =? 0); [|reflexivity].
  apply IH; congruence.
Qed.

(** C3: the leaf that the descent with the low bound reaches holds no key
    that satisfies the low bound (for one, it is the empty root leaf of a
    new index).  With the upper bound 2147483647 and LTE, [startScan] raises
    nothing: the loop leaves [nextEntry] at -1, the test against
    [numOccupied] does not fire, and the word read at [keyArray[-1]] - an
    [int], so at most 2147483647 - passes the test against the upper bound.
    The scan stays active. *)
Theorem startScan_no_key_raises_nothing (s : BTreeIndex) (pageNo : PageId)
    (visited : list PageId) (l : Leaf.t) (lo : Z) (lop : Operator) :
  fst (searchEntry (descentFuel s) lo (rootPageNum s) [] s) = Ok (pageNo, visited) ->
  pages (bufMgr s) !! pageNo = Some (LeafPage l) ->
  0 <= Leaf.numOccupied l ->
  (forall x, 0 <= x < Leaf.numOccupied l -> belowLow lo lop (Leaf.keyArray l x)) ->
  Leaf.keyArray l (-1) <= 2147483647 ->
  lo <= 2147483647 ->
  lop = GT \/ lop = GTE ->
  fst (startScan lo lop 2147483647 LTE s) = Ok tt /\
  scanExecuting (snd (startScan lo lop 2147483647 LTE s)) = true /\
  nextEntry (snd (startScan lo lop 2147483647 LTE s)) = -1.
Proof.
  intros Hsearch Hpage HN Hnone Hword Hlo Hlop.
  assert (Hops : negb (Operator_eqb lop GT) && negb (Operator_eqb lop GTE) = false).
  { destruct Hlop; subst lop; reflexivity. }
  assert (Hrange : (lo >? 2147483647) = false).
  { rewrite Z.gtb_ltb. apply Z.ltb_ge. assumption. }
  assert (Hhi : (Leaf.keyArray l (-1) >? 2147483647) = false).
  { rewrite Z.gtb_ltb. apply Z.ltb_ge. assumption. }
  assert (Hrun : forall s0 : BTreeIndex,
    bufMgr s0 = bufMgr s -> onlyOneRoot s0 = onlyOneRoot s ->
    rootPageNum s0 = rootPageNum s ->
    scanExecuting s0 = false ->
    fst (startScan lo lop 2147483647 LTE s0) = Ok tt /\
    scanExecuting (snd (startScan lo lop 2147483647 LTE s0)) = true /\
    nextEntry (snd (startScan lo lop 2147483647 LTE s0)) = -1).
  { intros s0 Hb0 Ho0 Hr0 Hex0.
    unfold startScan. run. rewrite Hex0. st_simpl.
    rewrite Hrange, Hops. st_simpl.
    match goal with
    | |- context [searchEntry ?f ?k ?r ?v ?st] =>
      pose proof (searchEntry_state f k r v st) as Hst;
      pose proof (searchEntry_depends f k r v st s Hb0 Ho0) as Hdep;
      destruct (searchEntry f k r v st) as [o st']
    end.
    cbn [fst snd] in Hst, Hdep. subst st'.
    unfold descentFuel in Hdep. st_simpl_in Hdep. rewrite Hb0, Hr0 in Hdep.
    unfold descentFuel in Hsearch. rewrite Hsearch in Hdep. subst o. st_simpl.
    unfold readLeaf, readPage. run.
    rewrite Hb0, Hpage. st_simpl.
    rewrite startScan_loop_none by (intros x Hx; apply Hnone; lia).
    replace (-1 =? Leaf.numOccupied l) with false
      by (symmetry; apply Z.eqb_neq; lia).
    rewrite Hhi, andb_false_r. cbn.
    repeat split; reflexivity. }
  destruct (scanExecuting s) eqn:Hex.
  - rewrite (startScan_restart _ _ _ _ _ Hex). apply Hrun; reflexivity.
  - apply Hrun; reflexivity || assumption.
Qed.

(** ** A [startScan] that fails its validation (C6) *)

Lemma endScan_active s : scanExecuting s = true -> fst (endScan s) = Ok tt.
Proof. intros Hex. unfold endScan. run. rewrite Hex. reflexivity. Qed.

Lemma scanNext_active s :
  scanExecuting s = true -> fst (scanNext s) <> Throw ScanNotInitializedException.
Proof.
  intros Hex. unfold scanNext. run. rewrite Hex. st_simpl.
  unfold readPage.
  destruct (pages (bufMgr s) !! currentPageNum s) as [pg|];
    [|st_simpl; congruence].
  destruct (nextEntry s =? -1); [st_simpl; congruence|].
  destruct pg as [m|cur|n]; try (st_simpl; congruence).
  unfold readLeaf, readPage. run.
  repeat match goal with
         | |- context [if ?b then _ else _] => destruct b
         end; st_simpl; try congruence.
  destruct (pages (bufMgr s) !! Leaf.rightSibPageNo cur) as [[?|?|?]|];
    st_simpl; try congruence.
  repeat match goal with
         | |- context [if ?b then _ else _] => destruct b
         end; st_simpl; congruence.
Qed.

Lemma startScan_rejected_fresh lo lop hi hop s :
  scanExecuting s = false ->
  badScanArguments lo lop hi hop ->
  (fst (startScan lo lop hi hop s) = Throw BadScanrangeException \/
   fst (startScan lo lop hi hop s) = Throw BadOpcodesException) /\
  scanExecuting (snd (startScan lo lop hi hop s)) = true.
Proof.
  intros Hex Hbad. unfold startScan. run. rewrite Hex. st_simpl.
  rewrite Z.gtb_ltb.
  destruct (Z.ltb_spec hi lo) as [Hr|Hr]; [split; [left|]; reflexivity|]. st_simpl.
  destruct (negb (Operator_eqb lop GT) && negb (Operator_eqb lop GTE)) eqn:Hl;
    [split; [right|]; reflexivity|].
  destruct (negb (Operator_eqb hop LT) && negb (Operator_eqb hop LTE)) eqn:Hh;
    [split; [right|]; reflexivity|].
  exfalso. destruct Hbad as [H|[[H1 H2]|[H1 H2]]]; [lia| |].
  - destruct lop; cbn in Hl; congruence.
  - destruct hop; cbn in Hh; congruence.
Qed.

(** C6: [startScan] with a low bound above the high bound, a low operator
    other than GT and GTE or a high operator other than LT and LTE raises
    [BadScanrange] or [BadOpcodes], and [scanExecuting] is true afterwards:
    the flag is set before the validation and the failing paths do not reset
    it.  The [endScan] that follows succeeds and the [scanNext] that follows
    does not raise [ScanNotInitialized]. *)
Theorem startScan_failed_validation_leaves_scan_active (s : BTreeIndex)
    (lo : Z) (lop : Operator) (hi : Z) (hop : Operator) :
  badScanArguments lo lop hi hop ->
  (fst (startScan lo lop hi hop s) = Throw BadScanrangeException \/
   fst (startScan lo lop hi hop s) = Throw BadOpcodesException) /\
  scanExecuting (snd (startScan lo lop hi hop s)) = true /\
  fst (endScan (snd (startScan lo lop hi hop s))) = Ok tt /\
  fst (scanNext (snd (startScan lo lop hi hop s))) <> Throw ScanNotInitializedException.
Proof.
  intros Hbad.
  assert (H : (fst (startScan lo lop hi hop s) = Throw BadScanrangeException \/
               fst (startScan lo lop hi hop s) = Throw BadOpcodesException) /\
              scanExecuting (snd (startScan lo lop hi hop s)) = true).
  { destruct (scanExecuting s) eqn:Hex.
    - rewrite (startScan_restart _ _ _ _ _ Hex).
      apply startScan_rejected_fresh; [reflexivity|assumption].
    - apply startScan_rejected_fresh; assumption. }
  destruct H as [Hthrow Hactive].
  split; [exact Hthrow|]. split; [exact Hactive|]. split.
  - apply endScan_active. exact Hactive.
  - apply scanNext_active. exact Hactive.
Qed.

(** The two failing calls of the error tests, on a new index. *)
Example error_tests_leave_scan_active :
  fst (startScan 2 LTE 5 LTE (freshIndex 4 4)) = Throw BadOpcodesException /\
  scanExecuting (snd (startScan 2 LTE 5 LTE (freshIndex 4 4))) = true /\
  fst (startScan 5 GTE 2 LTE (freshIndex 4 4)) = Throw BadScanrangeException /\
  scanExecuting (snd (startScan 5 GTE 2 LTE (freshIndex 4 4))) = true /\
  fst (endScan (snd (startScan 5 GTE 2 LTE (freshIndex 4 4)))) = Ok tt.
Proof. vm_compute. repeat split; reflexivity. Qed.

(** ** Opening an existing index file (C8) *)

(** C8: on the open path the constructor does not assign [onlyOneRoot]:
    whatever the file holds, the flag keeps the value that the member had
    before the constructor ran. *)
Theorem open_leaves_onlyOneRoot_unassigned (this : BTreeIndex) (bufMgrIn : BufMgr)
    (filePages : gmap Z Page) (relName : string) (offset : Z) (attrTy : Datatype)
    (INTARRAYLEAFSIZE INTARRAYNONLEAFSIZE : Z) (relation : list (Z * RecordId)) :
  onlyOneRoot (snd (BTreeIndex_new this bufMgrIn (Some filePages) relName offset attrTy
                      INTARRAYLEAFSIZE INTARRAYNONLEAFSIZE relation)) =
  onlyOneRoot this.
Proof.
  unfold BTreeIndex_new, BTreeIndex_open, readMeta, readPage. run.
  match goal with
  | |- context [match ?x with Some _ => _ | None => _ end] =>
    destruct x as [[m|l|n]|]
  end; st_simpl; try reflexivity.
  destruct (negb (String.eqb (relationName m) relName)
            || negb (attrByteOffset m =? offset)
            || negb (Datatype_eqb (attrType m) attrTy)); reflexivity.
Qed.

(** The one-leaf file opened into an object whose flag byte was false: the
    constructor succeeds, the root (page 2) is a leaf, the flag is false,
    and the search does not return the root with an empty ancestor list: it
    casts the leaf to an internal node. *)
Example reopen_one_leaf_file :
  fst (reopened false oneLeafFile) = Ok tt /\
  rootPageNum (snd (reopened false oneLeafFile)) = 2 /\
  (exists l, oneLeafFile !! 2 = Some (LeafPage l)) /\
  onlyOneRoot (snd (reopened false oneLeafFile)) = false /\
  fst (searchEntry 10 7 2 [] (snd (reopened false oneLeafFile))) = Throw Undefined.
Proof.
  split; [vm_compute; reflexivity|]. split; [vm_compute; reflexivity|].
  split; [eexists; vm_compute; reflexivity|].
  split; vm_compute; reflexivity.
Qed.

(** The two-level file opened into an object whose flag byte was true: the
    root (page 4) is an internal node, the flag is true, the search returns
    the root itself as the leaf, and the insertion casts it to a leaf. *)
Example reopen_two_level_file :
  fst (reopened true twoLevelFile) = Ok tt /\
  rootPageNum (snd (reopened true twoLevelFile)) = 4 /\
  (exists n, twoLevelFile !! 4 = Some (NonLeafPage n)) /\
  onlyOneRoot (snd (reopened true twoLevelFile)) = true /\
  fst (searchEntry 10 7 4 [] (snd (reopened true twoLevelFile))) = Ok (4, []) /\
  fst (insertEntry 7 (ridOf 7) (snd (reopened true twoLevelFile))) = Throw Undefined.
Proof.
  split; [vm_compute; reflexivity|]. split; [vm_compute; reflexivity|].
  split; [eexists; vm_compute; reflexivity|].
  split; [vm_compute; reflexivity|].
  split; vm_compute; reflexivity.
Qed.

(** ** The first entry of the right sibling against the upper bound (C4) *)

(** C4: the scan has used up its leaf, the right sibling exists and is not
    empty, its first key equals the upper bound and the operator is LTE.
    [scanNext] returns the last record id of the old leaf and sets
    [nextEntry] to -1, so the call after it raises [IndexScanCompleted]: the
    entry of the sibling is never returned. *)
Theorem scanNext_sibling_first_key_equal_high (s : BTreeIndex) (cur sib : Leaf.t) :
  scanExecuting s = true ->
  highOp s = LTE ->
  nextEntry s <> -1 ->
  pages (bufMgr s) !! currentPageNum s = Some (LeafPage cur) ->
  Leaf.numOccupied cur <= nextEntry s + 1 ->
  Leaf.rightSibPageNo cur <> INVALID_NUMBER ->
  pages (bufMgr s) !! Leaf.rightSibPageNo cur = Some (LeafPage sib) ->
  Leaf.numOccupied sib <> 0 ->
  Leaf.keyArray sib 0 = highValInt s ->
  scanNext s =
    (Ok (Leaf.ridArray cur (nextEntry s)),
     set_nextEntry (-1) (set_currentPageNum (Leaf.rightSibPageNo cur) s)) /\
  fst (scanNext (snd (scanNext s))) = Throw IndexScanCompletedException.
Proof.
  intros Hex Hop Hne Hcur Hused Hsib Hsibpage Hocc Hkey.
  assert (E : scanNext s =
    (Ok (Leaf.ridArray cur (nextEntry s)),
     set_nextEntry (-1) (set_currentPageNum (Leaf.rightSibPageNo cur) s))).
  { unfold scanNext, readLeaf, readPage. run. rewrite Hex. st_simpl.
    rewrite Hcur, Hop. st_simpl.
    rewrite (proj2 (Z.eqb_neq _ _) Hne).
    rewrite (proj2 (Z.ltb_ge _ _) Hused).
    rewrite (proj2 (Z.eqb_neq _ _) Hsib). st_simpl.
    rewrite Hsibpage. st_simpl.
    rewrite (proj2 (Z.eqb_neq _ _) Hocc).
    rewrite Hkey, Z.ltb_irrefl, andb_false_r. reflexivity. }
  split; [exact E|].
  rewrite E. cbn [snd].
  unfold scanNext, readPage. run.
  rewrite Hex. st_simpl. rewrite Hsibpage. reflexivity.
Qed.

(** At the capacities 4 and 4 the keys 1..5 give the leaves [1, 2] and
    [3, 4, 5].  The scan of [1, 3] with non-strict bounds returns the record
    ids of 1 and 2 and not that of 3; with the bound inside the sibling the
    scan is complete. *)
Example scan_to_first_key_of_sibling :
  let s := snd (insertKeys (ascendingKeys 5) (freshIndex 4 4)) in
  keysOf (Leaf.keyArray (leafAt s 2)) (Leaf.numOccupied (leafAt s 2)) = [1; 2] /\
  keysOf (Leaf.keyArray (leafAt s 3)) (Leaf.numOccupied (leafAt s 3)) = [3; 4; 5] /\
  fst (scanRange 1 GTE 3 LTE s) = Ok [ridOf 1; ridOf 2] /\
  fst (scanRange 1 GTE 4 LTE s) = Ok [ridOf 1; ridOf 2; ridOf 3; ridOf 4].
Proof. vm_compute. repeat split; reflexivity. Qed.

(** ** An internal node with [nodeOccupancy] keys (C5) *)

Lemma insertEntryInternal_store_numOccupied key newPageNo sfl (c : NonLeaf.t) :
  NonLeaf.numOccupied (insertEntryInternal_store key newPageNo sfl c) =
  NonLeaf.numOccupied c + 1.
Proof.
  unfold insertEntryInternal_store.
  destruct (insertEntryInternal_loop _ _ _ _) as [c1 i1].
  destruct sfl; reflexivity.
Qed.

(** C5: an internal node that holds exactly [nodeOccupancy] keys fails the
    test [numOccupied > nodeOccupancy], so [insertEntryInternal] stores the
    pair in it: the node has [nodeOccupancy + 1] keys afterwards. *)
Theorem insertEntryInternal_stores_in_full_node (s : BTreeIndex)
    (key : Z) (pageNo newPageNo : PageId) (visited : list PageId) (splitFromLeaf : bool)
    (n : NonLeaf.t) :
  pages (bufMgr s) !! pageNo = Some (NonLeafPage n) ->
  NonLeaf.numOccupied n = nodeOccupancy s ->
  let n' := insertEntryInternal_store key newPageNo splitFromLeaf n in
  insertEntryInternal key pageNo newPageNo visited splitFromLeaf s =
    (Ok tt, set_bufMgr (set_pages (<[pageNo := NonLeafPage n']> (pages (bufMgr s)))
                          (bufMgr s)) s) /\
  NonLeaf.numOccupied n' = nodeOccupancy s + 1.
Proof.
  intros Hpage HN. cbn zeta. split.
  - unfold insertEntryInternal. cbn [insertEntryInternal_fuel].
    unfold readNonLeaf, readPage, writePage. run. rewrite Hpage. st_simpl.
    rewrite HN, Z.gtb_ltb, Z.ltb_irrefl. reflexivity.
  - rewrite insertEntryInternal_store_numOccupied. lia.
Qed.

(** At the capacities 4 and 4 the twelfth key fills the root (page 4), and
    the split of the last leaf at the thirteenth key gives it a fifth key. *)
Example root_over_capacity :
  NonLeaf.numOccupied
    (nonLeafAt (snd (insertKeys (ascendingKeys 12) (freshIndex 4 4))) 4) = 4 /\
  fst (insertKeys (ascendingKeys 13) (freshIndex 4 4)) = Ok tt /\
  nodeOccupancy (snd (insertKeys (ascendingKeys 13) (freshIndex 4 4))) = 4 /\
  NonLeaf.numOccupied
    (nonLeafAt (snd (insertKeys (ascendingKeys 13) (freshIndex 4 4))) 4) = 5.
Proof. vm_compute. repeat split; reflexivity. Qed.

(** ** The root that a leaf split creates (C7) *)

(** C7: the new root after the split of a root leaf.  Its level is 1, its
    first key is the separator, its first two children are the old and the
    new leaf, the header and [rootPageNum] name it and [onlyOneRoot] is
    cleared; its key count is one more than the count that the fresh page
    already held, since [numOccupied] is incremented and never assigned. *)
Theorem splitLeaf_newRoot_counts_from_page_content (s : BTreeIndex)
    (propagateUpKey : Z) (pageNo newPageNo : PageId) (m : IndexMetaInfo) :
  pages (bufMgr s) !! headerPageNum s = Some (MetaPage m) ->
  headerPageNum s <> nextPageNo (bufMgr s) ->
  let rootId := nextPageNo (bufMgr s) in
  let r := splitLeaf_newRoot propagateUpKey pageNo newPageNo s in
  let root := nonLeafAt (snd r) rootId in
  fst r = Ok tt /\
  (exists n, pages (bufMgr (snd r)) !! rootId = Some (NonLeafPage n)) /\
  NonLeaf.level root = 1 /\
  NonLeaf.keyArray root 0 = propagateUpKey /\
  NonLeaf.pageNoArray root 0 = pageNo /\
  NonLeaf.pageNoArray root 1 = newPageNo /\
  NonLeaf.numOccupied root = NonLeaf.numOccupied (undefNonLeaf (bufMgr s) rootId) + 1 /\
  rootPageNum (snd r) = rootId /\
  onlyOneRoot (snd r) = false /\
  pages (bufMgr (snd r)) !! headerPageNum s =
    Some (MetaPage (mkMeta (relationName m) (attrByteOffset m) (attrType m) rootId)).
Proof.
  intros Hmeta Hfresh. cbn zeta.
  unfold splitLeaf_newRoot, allocNonLeaf, updateHeaderRoot, readMeta, readPage, writePage.
  run.
  rewrite lookup_insert_ne by (intros E; apply Hfresh; symmetry; exact E).
  rewrite lookup_insert_ne by (intros E; apply Hfresh; symmetry; exact E).
  rewrite Hmeta. st_simpl.
  unfold nonLeafAt. st_simpl.
  rewrite lookup_insert_eq.
  rewrite lookup_insert_ne by exact Hfresh.
  rewrite lookup_insert_eq.
  repeat split; try reflexivity.
  eexists. reflexivity.
Qed.

(** With fresh pages whose bytes read as a key count of 7, the root that
    the split of the root leaf creates at the fifth key counts 8 keys. *)

Example new_root_counts_stale_content :
  let r := insertKeys (ascendingKeys 5) staleIndex in
  fst r = Ok tt /\
  rootPageNum (snd r) = 4 /\
  NonLeaf.level (nonLeafAt (snd r) 4) = 1 /\
  NonLeaf.numOccupied (nonLeafAt (snd r) 4) = 8.
Proof. vm_compute. repeat split; reflexivity. Qed.

(** ** Instances of the theorems above *)

Lemma tensLeaf_ascending (n : Z) : ascending (Leaf.keyArray (tensLeaf n)) n.
Proof. intros i j Hi Hij Hj. cbn. lia. Qed.

Lemma splitLeaf_full_leaf_witness :
  exists L1 L2 : Leaf.t,
    fst (splitLeaf_pages 25 (mkRid 1 25) 2 (tensIndex 4)) = Ok (3, Leaf.keyArray L2 0) /\
    Leaf.numOccupied L1 + Leaf.numOccupied L2 = 5 /\
    Leaf.numOccupied L2 = 3.
Proof.
  destruct (splitLeaf_full_leaf (tensIndex 4) 2 (tensLeaf 4) 25 (mkRid 1 25) [])
    as (L1 & L2 & s' & H1 & _ & H2 & H3 & H4 & H5 & H6).
  - cbn. lia.
  - vm_compute. reflexivity.
  - vm_compute. discriminate.
  - reflexivity.
  - apply tensLeaf_ascending.
  - intros x Hx. cbn. lia.
  - exists L1, L2. cbn zeta in *. rewrite H1. repeat split.
    + exact H4.
    + rewrite H5. reflexivity.
Defined.

Lemma insertEntry_equal_key_witness :
  Leaf.keyArray (tensLeaf 3) 1 = 20 /\
  fst (insertEntry 20 (mkRid 9 9) (tensIndex 3)) = Ok tt /\
  Leaf.numOccupied (insertEntryLeaf_store 20 (mkRid 9 9) (tensLeaf 3)) = 4 /\
  Leaf.ridArray (insertEntryLeaf_store 20 (mkRid 9 9) (tensLeaf 3)) 1 = mkRid 9 9 /\
  Leaf.ridArray (insertEntryLeaf_store 20 (mkRid 9 9) (tensLeaf 3)) 2 = mkRid 1 20.
Proof.
  destruct (insertEntry_equal_key (tensIndex 3) 20 (mkRid 9 9) 2 [] (tensLeaf 3) 1)
    as (H1 & H2 & H3 & H4 & H5 & H6 & _).
  - vm_compute. reflexivity.
  - vm_compute. reflexivity.
  - cbn. lia.
  - apply tensLeaf_ascending.
  - cbn. lia.
  - reflexivity.
  - split; [reflexivity|]. rewrite H1. repeat split; assumption.
Defined.

Lemma startScan_no_key_raises_nothing_witness :
  onlyOneRoot (freshIndex 4 4) = true /\
  Leaf.numOccupied (leafAt (freshIndex 4 4) 2) = 0 /\
  fst (startScan 0 GTE 2147483647 LTE (freshIndex 4 4)) = Ok tt /\
  scanExecuting (snd (startScan 0 GTE 2147483647 LTE (freshIndex 4 4))) = true /\
  nextEntry (snd (startScan 0 GTE 2147483647 LTE (freshIndex 4 4))) = -1.
Proof.
  split; [reflexivity|]. split; [reflexivity|].
  apply (startScan_no_key_raises_nothing (freshIndex 4 4) 2 []
           (leafAt (freshIndex 4 4) 2) 0 GTE).
  - vm_compute. reflexivity.
  - vm_compute. reflexivity.
  - vm_compute. discriminate.
  - intros x Hx. change (Leaf.numOccupied (leafAt (freshIndex 4 4) 2)) with 0 in Hx. lia.
  - vm_compute. discriminate.
  - lia.
  - right. reflexivity.
Defined.

(** The same on a tree with entries, at the capacities 4 and 4 with the keys
    1..5: the descent with the separator 3 ends in the leaf [1, 2], which
    holds no key from 3 on, and the scan of [3, 5] starts without an
    exception and returns nothing, the keys 3, 4, 5 being in the sibling. *)
Example scan_from_separator :
  let s := snd (insertKeys (ascendingKeys 5) (freshIndex 4 4)) in
  fst (searchEntry (descentFuel s) 3 (rootPageNum s) [] s) = Ok (2, [4]) /\
  fst (startScan 3 GTE 5 LTE s) = Ok tt /\
  fst (scanRange 3 GTE 5 LTE s) = Ok [].
Proof. vm_compute. repeat split; reflexivity. Qed.

Lemma startScan_failed_validation_leaves_scan_active_witness :
  badScanArguments 5 GTE 2 LTE /\
  fst (startScan 5 GTE 2 LTE (freshIndex 4 4)) = Throw BadScanrangeException /\
  scanExecuting (snd (startScan 5 GTE 2 LTE (freshIndex 4 4))) = true /\
  fst (endScan (snd (startScan 5 GTE 2 LTE (freshIndex 4 4)))) = Ok tt.
Proof.
  assert (Hbad : badScanArguments 5 GTE 2 LTE) by (left; lia).
  split; [exact Hbad|].
  destruct (startScan_failed_validation_leaves_scan_active (freshIndex 4 4) 5 GTE 2 LTE Hbad)
    as (_ & H2 & H3 & _).
  split; [reflexivity|]. split; [exact H2|exact H3].
Defined.

Lemma scanNext_sibling_first_key_equal_high_witness :
  (nextEntry scanAtEndOfLeaf, currentPageNum scanAtEndOfLeaf,
   highValInt scanAtEndOfLeaf) = (1, 2, 3) /\
  Leaf.keyArray (leafAt scanAtEndOfLeaf 3) 0 = 3 /\
  fst (scanNext scanAtEndOfLeaf) = Ok (ridOf 2) /\
  fst (scanNext (snd (scanNext scanAtEndOfLeaf))) = Throw IndexScanCompletedException.
Proof.
  split; [reflexivity|]. split; [reflexivity|].
  destruct (scanNext_sibling_first_key_equal_high scanAtEndOfLeaf
              (leafAt scanAtEndOfLeaf 2) (leafAt scanAtEndOfLeaf 3)) as [H1 H2].
  - reflexivity.
  - reflexivity.
  - vm_compute. discriminate.
  - vm_compute. reflexivity.
  - vm_compute. discriminate.
  - vm_compute. discriminate.
  - vm_compute. reflexivity.
  - vm_compute. discriminate.
  - reflexivity.
  - split; [|exact H2]. rewrite H1. reflexivity.
Defined.

Lemma insertEntryInternal_stores_in_full_node_witness :
  let s := snd (insertKeys (ascendingKeys 12) (freshIndex 4 4)) in
  NonLeaf.numOccupied (nonLeafAt s 4) = nodeOccupancy s /\
  fst (insertEntryInternal 11 4 9 [] true s) = Ok tt /\
  NonLeaf.numOccupied (insertEntryInternal_store 11 9 true (nonLeafAt s 4)) = 5.
Proof.
  cbn zeta. split; [reflexivity|].
  destruct (insertEntryInternal_stores_in_full_node
              (snd (insertKeys (ascendingKeys 12) (freshIndex 4 4)))
              11 4 9 [] true
              (nonLeafAt (snd (insertKeys (ascendingKeys 12) (freshIndex 4 4))) 4))
    as [H1 H2].
  - vm_compute. reflexivity.
  - reflexivity.
  - rewrite H1. split; [reflexivity|]. exact H2.
Defined.

Lemma splitLeaf_newRoot_counts_from_page_content_witness :
  let s := snd (splitLeaf_pages 5 (ridOf 5) 2
                  (snd (insertKeys (ascendingKeys 4) staleIndex))) in
  nextPageNo (bufMgr s) = 4 /\
  fst (splitLeaf_newRoot 3 2 3 s) = Ok tt /\
  NonLeaf.numOccupied (nonLeafAt (snd (splitLeaf_newRoot 3 2 3 s)) 4) = 8.
Proof.
  cbn zeta. split; [reflexivity|].
  destruct (splitLeaf_newRoot_counts_from_page_content
              (snd (splitLeaf_pages 5 (ridOf 5) 2
                      (snd (insertKeys (ascendingKeys 4) staleIndex))))
              3 2 3 (mkMeta "relA" 0 INTEGER 2))
    as (H1 & _ & _ & _ & _ & _ & H7 & _).
  - vm_compute. reflexivity.
  - vm_compute. discriminate.
  - split; [exact H1|]. exact H7.
Defined.

(** * Further properties of the index

    The properties below are read off the code of the operations: what the
    insertion does to a leaf or an internal node that has room, which child
    the descent chooses, what the scan returns on a tree that is a single
    leaf, and how constructor, insertion and scan compose on a relation that
    fits in one leaf. *)

(** ** A new key in a leaf that has room *)

(** The shifting loop of [insertEntryLeaf] on ascending keys that do not
    hold the key: the pair lands in its slot and the keys still ascend. *)
Lemma insertEntryLeaf_store_new_key (k : Z) (rid : RecordId) (L : Leaf.t) :
  0 <= Leaf.numOccupied L ->
  ascending (Leaf.keyArray L) (Leaf.numOccupied L) ->
  (forall x, 0 <= x < Leaf.numOccupied L -> Leaf.keyArray L x <> k) ->
  let N := Leaf.numOccupied L in
  let L' := insertEntryLeaf_store k rid L in
  Leaf.numOccupied L' = N + 1 /\
  Leaf.rightSibPageNo L' = Leaf.rightSibPageNo L /\
  ascending (Leaf.keyArray L') (N + 1) /\
  exists p, 0 <= p <= N /\
    (forall x, Leaf.keyArray L' x = if x =? p then k else shifted (Leaf.keyArray L) p N x) /\
    (forall x, Leaf.ridArray L' x = if x =? p then rid else shifted (Leaf.ridArray L) p N x).
Proof.
  intros HN Hasc Hnew. cbn zeta.
  destruct (slot_exists (Leaf.keyArray L) k (Z.to_nat (Leaf.numOccupied L)))
    as (p & Hp & Hlo & Hhi); rewrite ?Z2Nat.id by lia; try assumption.
  rewrite Z2Nat.id in Hp, Hhi by lia.
  assert (Hslot : slotFor (Leaf.keyArray L) k p (Leaf.numOccupied L - 1)).
  { split.
    - intros x Hx. specialize (Hhi x). lia.
    - intros Hpos. apply Hlo. lia. }
  destruct (insertEntryLeaf_store_spec k rid L p) as (E1 & E2 & E3 & E4);
    [lia | assumption |].
  split; [assumption|]. split; [assumption|]. split.
  - intros a b Ha Hab Hb. rewrite !E3. unfold shifted.
    pose proof (Hlo a). pose proof (Hlo b). pose proof (Hlo (a - 1)).
    pose proof (Hhi a). pose proof (Hhi b). pose proof (Hhi (b - 1)). pose proof (Hhi (a - 1)).
    pose proof (Hasc a b). pose proof (Hasc (a - 1) (b - 1)). pose proof (Hasc a (b - 1)).
    zcases; simpl; lia.
  - exists p. split; [assumption|]. split; assumption.
Qed.

(** X1: the descent for a key ends at a leaf that has room, whose keys
    ascend and do not hold the key.  [insertEntry] returns normally and
    changes that one page only: the leaf holds one entry more, the new pair
    at the place [p] that keeps the keys ascending, the entries before [p]
    where they were and the entries from [p] on moved up by one; the sibling
    link is kept. *)
Theorem insertEntry_new_key_in_leaf_with_room (s : BTreeIndex) (k : Z) (rid : RecordId)
    (pageNo : PageId) (visited : list PageId) (L : Leaf.t) :
  fst (searchEntry (descentFuel s) k (rootPageNum s) [] s) = Ok (pageNo, visited) ->
  pages (bufMgr s) !! pageNo = Some (LeafPage L) ->
  0 <= Leaf.numOccupied L < leafOccupancy s ->
  ascending (Leaf.keyArray L) (Leaf.numOccupied L) ->
  (forall x, 0 <= x < Leaf.numOccupied L -> Leaf.keyArray L x <> k) ->
  let L' := insertEntryLeaf_store k rid L in
  insertEntry k rid s =
    (Ok tt, set_bufMgr (set_pages (<[pageNo := LeafPage L']> (pages (bufMgr s)))
                          (bufMgr s)) s) /\
  Leaf.numOccupied L' = Leaf.numOccupied L + 1 /\
  Leaf.rightSibPageNo L' = Leaf.rightSibPageNo L /\
  ascending (Leaf.keyArray L') (Leaf.numOccupied L') /\
  exists p, 0 <= p <= Leaf.numOccupied L /\
    Leaf.keyArray L' p = k /\ Leaf.ridArray L' p = rid /\
    (forall x, 0 <= x < p ->
       Leaf.keyArray L' x = Leaf.keyArray L x /\ Leaf.ridArray L' x = Leaf.ridArray L x) /\
    (forall x, p <= x < Leaf.numOccupied L ->
       Leaf.keyArray L' (x + 1) = Leaf.keyArray L x /\
       Leaf.ridArray L' (x + 1) = Leaf.ridArray L x).
Proof.
  intros Hsearch Hpage [HN Hroom] Hasc Hnew. cbn zeta.
  destruct (insertEntryLeaf_store_new_key k rid L HN Hasc Hnew)
    as (E1 & E2 & E3 & p & Hp & EK & ER).
  cbn zeta in *.
  split.
  { rewrite (insertEntry_unfold k rid s pageNo visited Hsearch).
    apply insertEntryLeaf_room; assumption. }
  split; [assumption|]. split; [assumption|].
  split; [rewrite E1; exact E3|].
  exists p. split; [assumption|]. repeat split.
  - rewrite EK, Z.eqb_refl. reflexivity.
  - rewrite ER, Z.eqb_refl. reflexivity.
  - rewrite EK. arr.
  - rewrite ER. arr.
  - rewrite EK. arr.
  - rewrite ER. arr.
Qed.

(** ** The child that the descent chooses *)

(** The loop of [searchEntry] stops at the first key that is not below the
    searched key. *)
Lemma searchEntry_loop_spec (key : Z) (c : NonLeaf.t) : forall n i,
  Z.of_nat n = NonLeaf.numOccupied c - i -> 0 <= i ->
  (forall x, 0 <= x < i -> NonLeaf.keyArray c x < key) ->
  let r := searchEntry_loop n key c i in
  i <= r <= NonLeaf.numOccupied c /\
  (forall x, 0 <= x < r -> NonLeaf.keyArray c x < key) /\
  (r < NonLeaf.numOccupied c -> key <= NonLeaf.keyArray c r).
Proof.
  induction n as [|n IH]; intros i Hn Hi Hbelow; cbn zeta.
  - cbn [searchEntry_loop]. repeat split; try lia. exact Hbelow.
  - cbn [searchEntry_loop].
    destruct (Z.ltb_spec i (NonLeaf.numOccupied c)) as [Hlt|]; [|lia].
    destruct (Z.ltb_spec (NonLeaf.keyArray c i) key) as [Hk|Hk].
    + destruct (IH (i + 1)) as (E1 & E2 & E3); try lia.
      { intros x Hx. destruct (Z.eq_dec x i) as [->|]; [assumption|apply Hbelow; lia]. }
      repeat split; try assumption; lia.
    + repeat split; try lia. exact Hbelow.
Qed.

(** X2: on a tree with an internal root, [searchEntry] at a node of level 1
    returns the child [pageNoArray[i]], where [i] is the index of the first
    key of the node that is not below the searched key ([numOccupied] if
    there is none), and appends the node to the visited nodes; the index is
    left as it is.  A key equal to a separator is sent to the child on the
    left of the separator. *)
Theorem searchEntry_child_of_level1_node (s : BTreeIndex) (key : Z) (root : PageId)
    (visited : list PageId) (fuel : nat) (n : NonLeaf.t) :
  onlyOneRoot s = false ->
  pages (bufMgr s) !! root = Some (NonLeafPage n) ->
  NonLeaf.level n <> 0 ->
  0 <= NonLeaf.numOccupied n ->
  exists i, 0 <= i <= NonLeaf.numOccupied n /\
    (forall x, 0 <= x < i -> NonLeaf.keyArray n x < key) /\
    (i < NonLeaf.numOccupied n -> key <= NonLeaf.keyArray n i) /\
    searchEntry (S fuel) key root visited s =
      (Ok (NonLeaf.pageNoArray n i, root :: visited), s).
Proof.
  intros Hone Hpage Hlevel HN.
  destruct (searchEntry_loop_spec key n (Z.to_nat (NonLeaf.numOccupied n)) 0)
    as (E1 & E2 & E3); try lia.
  exists (searchEntry_loop (Z.to_nat (NonLeaf.numOccupied n)) key n 0).
  split; [exact E1|]. split; [exact E2|]. split; [exact E3|].
  cbn [searchEntry]. unfold readNonLeaf, readPage. run.
  rewrite Hone, Hpage. st_simpl.
  rewrite (proj2 (Z.eqb_neq _ _) Hlevel). reflexivity.
Qed.

(** ** A separator in an internal node that has room *)

Lemma insertEntryInternal_loop_spec (key : Z) : forall n c i p,
  Z.of_nat n = NonLeaf.numOccupied c - i -> 0 <= i ->
  0 <= p <= NonLeaf.numOccupied c - i ->
  slotFor (NonLeaf.keyArray c) key p (NonLeaf.numOccupied c - 1 - i) ->
  let N := NonLeaf.numOccupied c in
  let r := insertEntryInternal_loop n key c i in
  snd r = N - p /\
  NonLeaf.numOccupied (fst r) = N /\
  NonLeaf.level (fst r) = NonLeaf.level c /\
  (forall x, NonLeaf.keyArray (fst r) x = shifted (NonLeaf.keyArray c) p (N - i) x) /\
  (forall x, NonLeaf.pageNoArray (fst r) x = shifted (NonLeaf.pageNoArray c) p (N - i) x).
Proof.
  induction n as [|n IH]; intros c i p Hn Hi Hp [Hge Hlt]; cbn zeta.
  - simpl. assert (p = 0) by lia. subst p.
    repeat split; try lia; intros x; unfold shifted; zcases; simpl; try reflexivity; lia.
  - cbn [insertEntryInternal_loop]. cbn zeta.
    destruct (Z.ltb_spec i (NonLeaf.numOccupied c)) as [Hlt'|]; [|lia].
    rewrite Z.gtb_ltb.
    destruct (Z.ltb_spec (NonLeaf.keyArray c (NonLeaf.numOccupied c - 1 - i)) key) as [Hbr|Hsh].
    + assert (p = NonLeaf.numOccupied c - i).
      { destruct (Z.eq_dec p (NonLeaf.numOccupied c - i)) as [|Hne]; [assumption|].
        specialize (Hge (NonLeaf.numOccupied c - 1 - i)). lia. }
      subst p. simpl.
      repeat split; try lia; intros x; unfold shifted; zcases; simpl; try reflexivity; lia.
    + assert (Hp' : p <= NonLeaf.numOccupied c - 1 - i).
      { destruct (Z.eq_dec p (NonLeaf.numOccupied c - i)) as [He|Hne]; [|lia].
        assert (0 < p) as Hpos by lia. specialize (Hlt Hpos).
        replace (p - 1) with (NonLeaf.numOccupied c - 1 - i) in Hlt by lia. lia. }
      match goal with
      | |- context [insertEntryInternal_loop n key ?c2 (i + 1)] =>
        specialize (IH c2 (i + 1) p)
      end.
      cbn [NonLeaf.numOccupied NonLeaf.set_key NonLeaf.set_pageNo NonLeaf.keyArray
           NonLeaf.pageNoArray NonLeaf.level] in IH.
      destruct IH as (E1 & E2 & E3 & E4 & E5); try lia.
      { split.
        - intros x Hx. unfold aset. zcases; first [lia | apply Hge; lia].
        - intros Hpos. unfold aset. zcases; lia. }
      repeat split; try assumption.
      * intros x. rewrite E4. unfold shifted, aset.
        zcases; simpl; try reflexivity; try lia; f_equal; lia.
      * intros x. rewrite E5. unfold shifted, aset.
        zcases; simpl; try reflexivity; try lia; f_equal; lia.
Qed.

Lemma insertEntryInternal_store_spec (key : Z) (newPageNo : PageId) (sfl : bool)
    (c : NonLeaf.t) (p : Z) :
  0 <= p <= NonLeaf.numOccupied c ->
  slotFor (NonLeaf.keyArray c) key p (NonLeaf.numOccupied c - 1) ->
  let N := NonLeaf.numOccupied c in
  let c' := insertEntryInternal_store key newPageNo sfl c in
  NonLeaf.numOccupied c' = N + 1 /\
  NonLeaf.level c' = NonLeaf.level c /\
  (forall x, NonLeaf.keyArray c' x =
             if x =? p then key else shifted (NonLeaf.keyArray c) p N x) /\
  (forall x, NonLeaf.pageNoArray c' x =
             if x =? (if sfl then p + 1 else p) then newPageNo
             else shifted (NonLeaf.pageNoArray c) p (N + 1) x).
Proof.
  intros Hp Hslot. cbn zeta. unfold insertEntryInternal_store.
  pose proof (insertEntryInternal_loop_spec key (Z.to_nat (NonLeaf.numOccupied c))
                (NonLeaf.set_pageNo (NonLeaf.numOccupied c + 1)
                   (NonLeaf.pageNoArray c (NonLeaf.numOccupied c)) c) 0 p) as H.
  cbn zeta in H.
  cbn [NonLeaf.numOccupied NonLeaf.set_pageNo NonLeaf.keyArray NonLeaf.pageNoArray
       NonLeaf.level] in H.
  replace (NonLeaf.numOccupied c - 1 - 0) with (NonLeaf.numOccupied c - 1) in H by lia.
  replace (NonLeaf.numOccupied c - 0) with (NonLeaf.numOccupied c) in H by lia.
  destruct H as (E1 & E2 & E3 & E4 & E5); try lia; try assumption.
  destruct (insertEntryInternal_loop _ key _ 0) as [c1 i1]. simpl in *. subst i1.
  replace (NonLeaf.numOccupied c - (NonLeaf.numOccupied c - p)) with p by lia.
  destruct sfl; cbn [NonLeaf.numOccupied NonLeaf.set_pageNo NonLeaf.set_key
                     NonLeaf.set_numOccupied NonLeaf.keyArray NonLeaf.pageNoArray
                     NonLeaf.level].
  - repeat split; try assumption.
    + intros x. unfold aset. rewrite E4. reflexivity.
    + intros x. unfold aset. rewrite !E5. unfold shifted, aset.
      zcases; simpl; try reflexivity; try lia; f_equal; lia.
  - repeat split; try assumption.
    + intros x. unfold aset. rewrite E4. reflexivity.
    + intros x. unfold aset. rewrite !E5. unfold shifted, aset.
      zcases; simpl; try reflexivity; try lia; f_equal; lia.
Qed.

(** X3: an internal node with fewer than [nodeOccupancy] keys, ascending,
    receives a key that it does not hold.  [insertEntryInternal] returns
    normally and changes that one page only: the key is stored at the place
    [p] that keeps the keys ascending and the later keys and children move
    up by one.  Coming from a leaf split the new page becomes the child on
    the right of the key, the child on its left staying; coming from the
    split of an internal node the new page becomes the child on the left of
    the key. *)
Theorem insertEntryInternal_into_node_with_room (s : BTreeIndex) (key : Z)
    (pageNo newPageNo : PageId) (visited : list PageId) (splitFromLeaf : bool)
    (c : NonLeaf.t) :
  pages (bufMgr s) !! pageNo = Some (NonLeafPage c) ->
  0 <= NonLeaf.numOccupied c < nodeOccupancy s ->
  ascending (NonLeaf.keyArray c) (NonLeaf.numOccupied c) ->
  (forall x, 0 <= x < NonLeaf.numOccupied c -> NonLeaf.keyArray c x <> key) ->
  let N := NonLeaf.numOccupied c in
  let c' := insertEntryInternal_store key newPageNo splitFromLeaf c in
  insertEntryInternal key pageNo newPageNo visited splitFromLeaf s =
    (Ok tt, set_bufMgr (set_pages (<[pageNo := NonLeafPage c']> (pages (bufMgr s)))
                          (bufMgr s)) s) /\
  NonLeaf.numOccupied c' = N + 1 /\
  NonLeaf.level c' = NonLeaf.level c /\
  ascending (NonLeaf.keyArray c') (N + 1) /\
  exists p, 0 <= p <= N /\
    NonLeaf.keyArray c' p = key /\
    (forall x, 0 <= x < p -> NonLeaf.keyArray c' x = NonLeaf.keyArray c x) /\
    (forall x, p <= x < N -> NonLeaf.keyArray c' (x + 1) = NonLeaf.keyArray c x) /\
    (forall x, 0 <= x < p -> NonLeaf.pageNoArray c' x = NonLeaf.pageNoArray c x) /\
    (forall x, p < x <= N -> NonLeaf.pageNoArray c' (x + 1) = NonLeaf.pageNoArray c x) /\
    (if splitFromLeaf
     then NonLeaf.pageNoArray c' p = NonLeaf.pageNoArray c p /\
          NonLeaf.pageNoArray c' (p + 1) = newPageNo
     else NonLeaf.pageNoArray c' p = newPageNo /\
          NonLeaf.pageNoArray c' (p + 1) = NonLeaf.pageNoArray c p).
Proof.
  intros Hpage [HN Hroom] Hasc Hnew. cbn zeta.
  destruct (slot_exists (NonLeaf.keyArray c) key (Z.to_nat (NonLeaf.numOccupied c)))
    as (p & Hp & Hlo & Hhi); rewrite ?Z2Nat.id by lia; try assumption.
  rewrite Z2Nat.id in Hp, Hhi by lia.
  assert (Hslot : slotFor (NonLeaf.keyArray c) key p (NonLeaf.numOccupied c - 1)).
  { split.
    - intros x Hx. specialize (Hhi x). lia.
    - intros Hpos. apply Hlo. lia. }
  destruct (insertEntryInternal_store_spec key newPageNo splitFromLeaf c p)
    as (E1 & E2 & E3 & E4); [lia | assumption |].
  split.
  { unfold insertEntryInternal. cbn [insertEntryInternal_fuel].
    unfold readNonLeaf, readPage. run. rewrite Hpage. st_simpl.
    rewrite Z.gtb_ltb, (proj2 (Z.ltb_ge _ _)) by lia.
    unfold writePage. run. reflexivity. }
  split; [assumption|]. split; [assumption|]. split.
  - intros a b Ha Hab Hb. rewrite !E3. unfold shifted.
    pose proof (Hlo a). pose proof (Hlo b). pose proof (Hlo (a - 1)).
    pose proof (Hhi a). pose proof (Hhi b). pose proof (Hhi (b - 1)). pose proof (Hhi (a - 1)).
    pose proof (Hasc a b). pose proof (Hasc (a - 1) (b - 1)). pose proof (Hasc a (b - 1)).
    zcases; simpl; lia.
  - exists p. split; [assumption|].
    split; [rewrite E3, Z.eqb_refl; reflexivity|].
    split; [intros x Hx; rewrite E3; arr|].
    split; [intros x Hx; rewrite E3; arr|].
    split; [intros x Hx; rewrite E4; destruct splitFromLeaf; arr|].
    split; [intros x Hx; rewrite E4; destruct splitFromLeaf; arr|].
    destruct splitFromLeaf; split; rewrite E4; arr.
Qed.

(** ** The scan reads the tree and never changes it *)

Lemma endScan_tree (s : BTreeIndex) : treeState (snd (endScan s)) = treeState s.
Proof. unfold endScan. run. destruct (scanExecuting s); reflexivity. Qed.

Lemma scanNext_tree (s : BTreeIndex) : treeState (snd (scanNext s)) = treeState s.
Proof.
  unfold scanNext, readLeaf, readPage. run.
  destruct (scanExecuting s); st_simpl; [|reflexivity].
  destruct (pages (bufMgr s) !! currentPageNum s) as [pg|]; st_simpl; [|reflexivity].
  destruct (nextEntry s =? -1); [reflexivity|].
  destruct pg as [m|cur|n]; try reflexivity.
  repeat match goal with
         | |- context [if ?b then _ else _] => destruct b
         end; st_simpl; try reflexivity.
  all: destruct (pages (bufMgr s) !! Leaf.rightSibPageNo cur) as [[?|?|?]|];
    st_simpl; try reflexivity.
  all: repeat match goal with
         | |- context [if ?b then _ else _] => destruct b
         end; reflexivity.
Qed.

Lemma startScan_tree_fresh lo lop hi hop (s : BTreeIndex) :
  scanExecuting s = false ->
  treeState (snd (startScan lo lop hi hop s)) = treeState s.
Proof.
  intros Hex. unfold startScan. run. rewrite Hex. st_simpl.
  destruct (lo >? hi); [reflexivity|]. st_simpl.
  destruct (negb (Operator_eqb lop GT) && negb (Operator_eqb lop GTE)); [reflexivity|].
  destruct (negb (Operator_eqb hop LT) && negb (Operator_eqb hop LTE)); [reflexivity|].
  st_simpl.
  match goal with
  | |- context [searchEntry ?f ?k ?r ?v ?st] =>
    pose proof (searchEntry_state f k r v st) as Hst;
    destruct (searchEntry f k r v st) as [[res|e] st']
  end; cbn [fst snd] in Hst; subst st'; st_simpl; [|reflexivity].
  unfold readLeaf, readPage. run.
  destruct (pages (bufMgr s) !! fst res) as [[m|l|n]|]; st_simpl; try reflexivity.
  unfold endScan. run.
  repeat match goal with
         | |- context [if ?b then _ else _] => destruct b
         end; reflexivity.
Qed.

Lemma startScan_tree lo lop hi hop (s : BTreeIndex) :
  treeState (snd (startScan lo lop hi hop s)) = treeState s.
Proof.
  destruct (scanExecuting s) eqn:Hex.
  - rewrite (startScan_restart _ _ _ _ _ Hex).
    rewrite startScan_tree_fresh by reflexivity. reflexivity.
  - apply startScan_tree_fresh. exact Hex.
Qed.

Lemma drain_tree : forall (fuel : nat) (s : BTreeIndex),
  treeState (snd (drain fuel s)) = treeState s.
Proof.
  induction fuel as [|fuel IH]; intros s; [reflexivity|].
  cbn [drain]. pose proof (scanNext_tree s) as H1.
  destruct (scanNext s) as [[rid|e] s1]; cbn [fst snd] in *.
  - unfold bind. specialize (IH s1).
    destruct (drain fuel s1) as [[rest|e] s2]; cbn [fst snd ret] in *; congruence.
  - destruct e; exact H1.
Qed.

(** X4: [startScan], [scanNext] and [endScan], however they end, leave the
    buffer manager with the pages of the file, [headerPageNum],
    [rootPageNum], the attribute type and offset, the two capacities and
    [onlyOneRoot] as they were. *)
Theorem scan_never_changes_the_tree (s : BTreeIndex)
    (lo : Z) (lop : Operator) (hi : Z) (hop : Operator) :
  treeState (snd (startScan lo lop hi hop s)) = treeState s /\
  treeState (snd (scanNext s)) = treeState s /\
  treeState (snd (endScan s)) = treeState s.
Proof.
  split; [apply startScan_tree|]. split; [apply scanNext_tree|apply endScan_tree].
Qed.

(** ** The validation of [startScan] *)

(** The descent raises nothing but the exception of a missing page and the
    undefined behaviour of the model. *)
Lemma searchEntry_throws (fuel : nat) : forall key root visited s e,
  fst (searchEntry fuel key root visited s) = Throw e ->
  e = InvalidPageException \/ e = Undefined.
Proof.
  induction fuel as [|fuel IH]; intros key root visited s e;
    cbn [searchEntry]; unfold readNonLeaf, readPage; run;
    destruct (onlyOneRoot s); cbn [fst]; try discriminate.
  - intros [= <-]. right. reflexivity.
  - destruct (pages (bufMgr s) !! root) as [[m|l|n]|]; st_simpl;
      try (intros [= <-]; auto).
    destruct (NonLeaf.level n =? 0); [apply IH|discriminate].
Qed.

Lemma startScan_validation_fresh (s : BTreeIndex)
    (lo : Z) (lop : Operator) (hi : Z) (hop : Operator) :
  scanExecuting s = false ->
  (fst (startScan lo lop hi hop s) = Throw BadScanrangeException <-> hi < lo) /\
  (fst (startScan lo lop hi hop s) = Throw BadOpcodesException <->
   lo <= hi /\ ((lop <> GT /\ lop <> GTE) \/ (hop <> LT /\ hop <> LTE))).
Proof.
  intros Hex. unfold startScan. run. rewrite Hex. st_simpl.
  rewrite Z.gtb_ltb.
  destruct (Z.ltb_spec hi lo) as [Hr|Hr].
  { cbn [fst]. split; split; try discriminate; intros; try reflexivity; try assumption; lia. }
  st_simpl.
  destruct (negb (Operator_eqb lop GT) && negb (Operator_eqb lop GTE)) eqn:Hl.
  { cbn [fst]. split; split; try discriminate; intros; try reflexivity; try lia.
    split; [assumption|]. left. destruct lop; cbn in Hl; split; congruence. }
  destruct (negb (Operator_eqb hop LT) && negb (Operator_eqb hop LTE)) eqn:Hh.
  { cbn [fst]. split; split; try discriminate; intros; try reflexivity; try lia.
    split; [assumption|]. right. destruct hop; cbn in Hh; split; congruence. }
  assert (Hrest : forall o : Outcome unit,
            (forall e, o = Throw e -> e <> BadScanrangeException /\ e <> BadOpcodesException) ->
            (o = Throw BadScanrangeException <-> hi < lo) /\
            (o = Throw BadOpcodesException <->
             lo <= hi /\ ((lop <> GT /\ lop <> GTE) \/ (hop <> LT /\ hop <> LTE)))).
  { intros o Ho. split; split.
    - intros E. destruct (Ho _ E) as [H _]. congruence.
    - lia.
    - intros E. destruct (Ho _ E) as [_ H]. congruence.
    - intros [_ [[H1 H2]|[H1 H2]]]; exfalso.
      + destruct lop; cbn in Hl; congruence.
      + destruct hop; cbn in Hh; congruence. }
  apply Hrest. intros e. st_simpl.
  match goal with
  | |- context [searchEntry ?f ?k ?r ?v ?st] =>
    pose proof (searchEntry_throws f k r v st) as Hthrows;
    destruct (searchEntry f k r v st) as [[res|e'] st']
  end; cbn [fst snd] in *.
  2:{ intros [= <-]. destruct (Hthrows e' eq_refl) as [->| ->]; split; discriminate. }
  st_simpl. unfold readLeaf, readPage. run.
  destruct (pages (bufMgr st') !! fst res) as [[m|l|n]|]; st_simpl;
    try (intros [= <-]; split; discriminate).
  unfold endScan. run.
  repeat match goal with
         | |- context [if ?b then _ else _] => destruct b
         end; cbn [fst]; try discriminate; intros [= <-]; split; discriminate.
Qed.

(** X5: [startScan] raises [BadScanrange] exactly when the low value is
    above the high value, whatever the operators are, and [BadOpcodes]
    exactly when the values are in order and the low operator is not GT or
    GTE or the high operator is not LT or LTE. *)
Theorem startScan_validation (s : BTreeIndex)
    (lo : Z) (lop : Operator) (hi : Z) (hop : Operator) :
  (fst (startScan lo lop hi hop s) = Throw BadScanrangeException <-> hi < lo) /\
  (fst (startScan lo lop hi hop s) = Throw BadOpcodesException <->
   lo <= hi /\ ((lop <> GT /\ lop <> GTE) \/ (hop <> LT /\ hop <> LTE))).
Proof.
  destruct (scanExecuting s) eqn:Hex.
  - rewrite (startScan_restart _ _ _ _ _ Hex).
    apply startScan_validation_fresh. reflexivity.
  - apply startScan_validation_fresh. exact Hex.
Qed.

(** ** The scan of a single leaf *)

(** The loop of [startScan] finds the first entry that satisfies the low
    bound, or leaves [nextEntry] as it was. *)
Lemma startScan_loop_first (lo : Z) (lop : Operator) (l : Leaf.t) (ne : Z) : forall n i,
  Z.of_nat n = Leaf.numOccupied l - i -> 0 <= i ->
  let r := startScan_loop n lo lop l i ne in
  (r = ne /\ forall x, i <= x < Leaf.numOccupied l ->
               aboveLow lo lop (Leaf.keyArray l x) = false) \/
  (i <= r < Leaf.numOccupied l /\
   aboveLow lo lop (Leaf.keyArray l r) = true /\
   forall x, i <= x < r -> aboveLow lo lop (Leaf.keyArray l x) = false).
Proof.
  induction n as [|n IH]; intros i Hn Hi; cbn zeta.
  - left. split; [reflexivity|]. intros x Hx. lia.
  - cbn [startScan_loop].
    destruct (Z.ltb_spec i (Leaf.numOccupied l)) as [Hlt|]; [|lia].
    assert (Hnext : forall x, i <= x -> x <> i -> i + 1 <= x) by (intros; lia).
    destruct (Z.ltb_spec (Leaf.keyArray l i) lo) as [Hk|Hk].
    + assert (Hi0 : aboveLow lo lop (Leaf.keyArray l i) = false).
      { unfold aboveLow. destruct (Operator_eqb lop GTE); zcases; lia. }
      destruct (IH (i + 1)) as [[E1 E2]|(E1 & E2 & E3)]; try lia.
      * left. split; [exact E1|]. intros x Hx.
        destruct (Z.eq_dec x i) as [->|]; [assumption|apply E2; lia].
      * right. split; [lia|]. split; [exact E2|]. intros x Hx.
        destruct (Z.eq_dec x i) as [->|]; [assumption|apply E3; lia].
    + destruct (negb (Operator_eqb lop GTE) && (Leaf.keyArray l i =? lo)) eqn:Hskip.
      * assert (Hi0 : aboveLow lo lop (Leaf.keyArray l i) = false).
        { apply andb_prop in Hskip. destruct Hskip as [Hop Heq].
          unfold aboveLow. destruct (Operator_eqb lop GTE); [discriminate|].
          apply Z.eqb_eq in Heq. apply Z.ltb_ge. lia. }
        destruct (IH (i + 1)) as [[E1 E2]|(E1 & E2 & E3)]; try lia.
        -- left. split; [exact E1|]. intros x Hx.
           destruct (Z.eq_dec x i) as [->|]; [assumption|apply E2; lia].
        -- right. split; [lia|]. split; [exact E2|]. intros x Hx.
           destruct (Z.eq_dec x i) as [->|]; [assumption|apply E3; lia].
      * right. split; [lia|]. split; [|intros x Hx; lia].
        unfold aboveLow. destruct (Operator_eqb lop GTE); cbn in Hskip.
        -- apply Z.leb_le. lia.
        -- apply Z.eqb_neq in Hskip. apply Z.ltb_lt. lia.
Qed.

(** Both bounds are monotone in the key. *)
Lemma aboveLow_mono lo lop k k' :
  k <= k' -> aboveLow lo lop k = true -> aboveLow lo lop k' = true.
Proof.
  unfold aboveLow. intros Hk. destruct (Operator_eqb lop GTE).
  - rewrite !Z.leb_le. lia.
  - rewrite !Z.ltb_lt. lia.
Qed.

Lemma belowHigh_mono hi hop k k' :
  k <= k' -> belowHigh hi hop k = false -> belowHigh hi hop k' = false.
Proof.
  unfold belowHigh. intros Hk. destruct (Operator_eqb hop LTE).
  - rewrite !Z.leb_gt. lia.
  - rewrite !Z.ltb_ge. lia.
Qed.

Lemma ascending_le (K : Z -> Z) (N a b : Z) :
  ascending K N -> 0 <= a -> a <= b -> b < N -> K a <= K b.
Proof.
  intros Hasc Ha Hab Hb. destruct (Z.eq_dec a b) as [->|]; [lia|].
  specialize (Hasc a b). lia.
Qed.

(** [startScan] when the descent with the low value ends at the leaf [l]. *)
Lemma startScan_at_leaf (s : BTreeIndex) (pageNo : PageId) (visited : list PageId)
    (l : Leaf.t) (lo : Z) (lop : Operator) (hi : Z) (hop : Operator) :
  fst (searchEntry (descentFuel s) lo (rootPageNum s) [] s) = Ok (pageNo, visited) ->
  pages (bufMgr s) !! pageNo = Some (LeafPage l) ->
  lo <= hi -> validOperators lop hop ->
  let ne := startScan_loop (Z.to_nat (Leaf.numOccupied l)) lo lop l 0 (-1) in
  let r := startScan lo lop hi hop s in
  bufMgr (snd r) = bufMgr s /\
  currentPageNum (snd r) = pageNo /\
  nextEntry (snd r) = ne /\
  highValInt (snd r) = hi /\ highOp (snd r) = hop /\
  (if (ne =? Leaf.numOccupied l) || negb (belowHigh hi hop (Leaf.keyArray l ne))
   then fst r = Throw NoSuchKeyFoundException /\ scanExecuting (snd r) = false
   else fst r = Ok tt /\ scanExecuting (snd r) = true).
Proof.
  intros Hsearch Hpage Hrange [Hlop Hhop].
  assert (Hrun : forall s0 : BTreeIndex,
    bufMgr s0 = bufMgr s -> onlyOneRoot s0 = onlyOneRoot s ->
    rootPageNum s0 = rootPageNum s -> scanExecuting s0 = false ->
    let ne := startScan_loop (Z.to_nat (Leaf.numOccupied l)) lo lop l 0 (-1) in
    let r := startScan lo lop hi hop s0 in
    bufMgr (snd r) = bufMgr s /\
    currentPageNum (snd r) = pageNo /\
    nextEntry (snd r) = ne /\
    highValInt (snd r) = hi /\ highOp (snd r) = hop /\
    (if (ne =? Leaf.numOccupied l) || negb (belowHigh hi hop (Leaf.keyArray l ne))
     then fst r = Throw NoSuchKeyFoundException /\ scanExecuting (snd r) = false
     else fst r = Ok tt /\ scanExecuting (snd r) = true)).
  { intros s0 Hb0 Ho0 Hr0 Hex0. cbn zeta.
    unfold startScan. run. rewrite Hex0. st_simpl.
    rewrite Z.gtb_ltb, (proj2 (Z.ltb_ge _ _)) by lia. st_simpl.
    replace (negb (Operator_eqb lop GT) && negb (Operator_eqb lop GTE)) with false
      by (destruct Hlop; subst lop; reflexivity).
    replace (negb (Operator_eqb hop LT) && negb (Operator_eqb hop LTE)) with false
      by (destruct Hhop; subst hop; reflexivity).
    st_simpl.
    match goal with
    | |- context [searchEntry ?f ?k ?r ?v ?st] =>
      pose proof (searchEntry_state f k r v st) as Hst;
      pose proof (searchEntry_depends f k r v st s Hb0 Ho0) as Hdep;
      destruct (searchEntry f k r v st) as [o st']
    end.
    cbn [fst snd] in Hst, Hdep. subst st'.
    unfold descentFuel in Hdep. st_simpl_in Hdep. rewrite Hb0, Hr0 in Hdep.
    unfold descentFuel in Hsearch. rewrite Hsearch in Hdep. subst o. st_simpl.
    unfold readLeaf, readPage. run. rewrite Hb0, Hpage. st_simpl.
    set (ne := startScan_loop (Z.to_nat (Leaf.numOccupied l)) lo lop l 0 (-1)).
    destruct (ne =? Leaf.numOccupied l) eqn:Hne.
    - unfold endScan. run. repeat split; reflexivity || assumption.
    - cbn [orb].
      assert (Hhigh : (Leaf.keyArray l ne >? hi)
                      || ((Leaf.keyArray l ne =? hi) && Operator_eqb hop LT) =
                      negb (belowHigh hi hop (Leaf.keyArray l ne))).
      { unfold belowHigh. rewrite Z.gtb_ltb.
        destruct Hhop; subst hop; cbn [Operator_eqb]; zcases; simpl; lia || reflexivity. }
      rewrite Hhigh.
      destruct (belowHigh hi hop (Leaf.keyArray l ne)); cbn [negb].
      + repeat split; reflexivity || assumption.
      + unfold endScan. run. repeat split; reflexivity || assumption. }
  destruct (scanExecuting s) eqn:Hex.
  - rewrite (startScan_restart _ _ _ _ _ Hex). apply Hrun; reflexivity.
  - apply Hrun; reflexivity || assumption.
Qed.

Lemma startScan_root_leaf (s : BTreeIndex) (l : Leaf.t)
    (lo : Z) (lop : Operator) (hi : Z) (hop : Operator) :
  onlyOneRoot s = true ->
  pages (bufMgr s) !! rootPageNum s = Some (LeafPage l) ->
  lo <= hi -> validOperators lop hop ->
  let ne := startScan_loop (Z.to_nat (Leaf.numOccupied l)) lo lop l 0 (-1) in
  let r := startScan lo lop hi hop s in
  bufMgr (snd r) = bufMgr s /\
  currentPageNum (snd r) = rootPageNum s /\
  nextEntry (snd r) = ne /\
  highValInt (snd r) = hi /\ highOp (snd r) = hop /\
  (if (ne =? Leaf.numOccupied l) || negb (belowHigh hi hop (Leaf.keyArray l ne))
   then fst r = Throw NoSuchKeyFoundException /\ scanExecuting (snd r) = false
   else fst r = Ok tt /\ scanExecuting (snd r) = true).
Proof.
  intros Hone Hpage Hrange Hops.
  apply (startScan_at_leaf s (rootPageNum s) [] l); try assumption.
  rewrite searchEntry_onlyOneRoot by exact Hone. reflexivity.
Qed.

(** One [scanNext] inside a leaf that has no right sibling. *)
Lemma scanNext_in_last_leaf (s : BTreeIndex) (l : Leaf.t) :
  scanExecuting s = true ->
  pages (bufMgr s) !! currentPageNum s = Some (LeafPage l) ->
  nextEntry s <> -1 ->
  Leaf.rightSibPageNo l = INVALID_NUMBER ->
  scanNext s =
    (Ok (Leaf.ridArray l (nextEntry s)),
     set_nextEntry
       (if (nextEntry s + 1 <? Leaf.numOccupied l)
           && belowHigh (highValInt s) (highOp s) (Leaf.keyArray l (nextEntry s + 1))
        then nextEntry s + 1 else -1) s).
Proof.
  intros Hex Hpage Hne Hsib.
  unfold scanNext, readPage. run. rewrite Hex. st_simpl. rewrite Hpage. st_simpl.
  rewrite (proj2 (Z.eqb_neq _ _) Hne).
  destruct (nextEntry s + 1 <? Leaf.numOccupied l); cbn [andb].
  - unfold belowHigh.
    destruct (highOp s); cbn [Operator_eqb negb andb]; rewrite ?andb_true_r, ?andb_false_r;
      zcases; try reflexivity; lia.
  - rewrite Hsib. reflexivity.
Qed.

Lemma scanNext_completed (s : BTreeIndex) (pg : Page) :
  scanExecuting s = true ->
  pages (bufMgr s) !! currentPageNum s = Some pg ->
  nextEntry s = -1 ->
  scanNext s = (Throw IndexScanCompletedException, s).
Proof.
  intros Hex Hpage Hne.
  unfold scanNext, readPage. run. rewrite Hex. st_simpl. rewrite Hpage. st_simpl.
  rewrite Hne. reflexivity.
Qed.

Lemma filter_none {A : Type} (f : A -> bool) (l : list A) :
  (forall x, In x l -> f x = false) -> List.filter f l = [].
Proof.
  induction l as [|x l IH]; intros H; [reflexivity|].
  cbn. rewrite (H x (or_introl eq_refl)). apply IH. intros y Hy. apply H. right. exact Hy.
Qed.

Lemma in_entries (l : Leaf.t) (a n : nat) (e : Z * RecordId) :
  In e (map (entryAt l) (seq a n)) ->
  exists i, (a <= i < a + n)%nat /\ e = entryAt l i.
Proof.
  intros H. apply in_map_iff in H. destruct H as (i & Hi & Hin).
  apply in_seq in Hin. exists i. split; [lia|]. symmetry. exact Hi.
Qed.

Lemma drain_completed (fuel : nat) (s : BTreeIndex) (pg : Page) :
  scanExecuting s = true ->
  pages (bufMgr s) !! currentPageNum s = Some pg ->
  nextEntry s = -1 ->
  drain (S fuel) s = (Ok [], s).
Proof.
  intros Hex Hpage Hne. cbn [drain].
  rewrite (scanNext_completed s pg Hex Hpage Hne). reflexivity.
Qed.

Lemma drain_last_leaf (l : Leaf.t) : forall (n fuel : nat) (s : BTreeIndex) (a : nat),
  (a + S n)%nat = Z.to_nat (Leaf.numOccupied l) ->
  (S n < fuel)%nat ->
  scanExecuting s = true ->
  pages (bufMgr s) !! currentPageNum s = Some (LeafPage l) ->
  Leaf.rightSibPageNo l = INVALID_NUMBER ->
  ascending (Leaf.keyArray l) (Leaf.numOccupied l) ->
  nextEntry s = Z.of_nat a ->
  belowHigh (highValInt s) (highOp s) (Leaf.keyArray l (Z.of_nat a)) = true ->
  fst (drain fuel s) =
    Ok (map snd (List.filter (fun e => belowHigh (highValInt s) (highOp s) (fst e))
                   (map (entryAt l) (seq a (S n))))) /\
  scanExecuting (snd (drain fuel s)) = true /\
  bufMgr (snd (drain fuel s)) = bufMgr s.
Proof.
  induction n as [|n IH]; intros fuel s a Hlen Hfuel Hex Hpage Hsib Hasc Hne Hhead;
    (destruct fuel as [|fuel]; [lia|]);
    cbn [drain];
    rewrite (scanNext_in_last_leaf s l Hex Hpage ltac:(lia) Hsib);
    match goal with
    | |- context [seq a (S ?m)] => change (seq a (S m)) with (a :: seq (S a) m)
    end;
    cbn [map List.filter fst entryAt]; rewrite Hhead; cbn [map snd].
  - rewrite (proj2 (Z.ltb_ge _ _)) by lia. cbn [andb].
    destruct fuel as [|fuel]; [lia|].
    unfold bind. rewrite (drain_completed fuel _ (LeafPage l)); try reflexivity; try assumption.
    unfold ret. cbn [fst snd seq map List.filter]. rewrite Hne.
    repeat split; assumption || reflexivity.
  - rewrite (proj2 (Z.ltb_lt _ _)) by lia. cbn [andb].
    replace (nextEntry s + 1) with (Z.of_nat (S a)) by lia.
    destruct (belowHigh (highValInt s) (highOp s) (Leaf.keyArray l (Z.of_nat (S a)))) eqn:Hnext.
    + destruct (IH fuel (set_nextEntry (Z.of_nat (S a)) s) (S a)) as (E1 & E2 & E3);
        try assumption; try reflexivity; try lia.
      unfold bind.
      destruct (drain fuel (set_nextEntry (Z.of_nat (S a)) s)) as [[rest|e] s2];
        cbn [fst snd] in E1, E2, E3; [|discriminate].
      injection E1 as E1. subst rest.
      unfold ret. cbn [fst snd]. rewrite Hne.
      repeat split; assumption || reflexivity.
    + destruct fuel as [|fuel]; [lia|].
      unfold bind. rewrite (drain_completed fuel _ (LeafPage l)); try reflexivity; try assumption.
      unfold ret. cbn [fst snd]. rewrite Hne.
      rewrite (filter_none _ (map (entryAt l) (seq (S a) (S n)))).
      * repeat split; assumption || reflexivity.
      * intros e He. apply in_entries in He. destruct He as (i & Hi & ->).
        cbn [entryAt fst].
        apply (belowHigh_mono _ _ (Leaf.keyArray l (Z.of_nat (S a)))); [|exact Hnext].
        apply (ascending_le _ (Leaf.numOccupied l)); try assumption; lia.
Qed.

Lemma entriesOf_split (l : Leaf.t) (a n : nat) :
  (a + n)%nat = Z.to_nat (Leaf.numOccupied l) ->
  entriesOf l = map (entryAt l) (seq 0 a) ++ map (entryAt l) (seq a n).
Proof.
  intros H. unfold entriesOf. rewrite <- H, seq_app, map_app. reflexivity.
Qed.

(** The record ids that a drained scan of a single leaf returns are those of
    the entries in the range, in the order of the leaf. *)
Lemma scan_root_leaf (s : BTreeIndex) (l : Leaf.t)
    (lo : Z) (lop : Operator) (hi : Z) (hop : Operator) (fuel : nat) :
  rootLeaf s l ->
  lo <= hi -> validOperators lop hop ->
  (Z.to_nat (Leaf.numOccupied l) < fuel)%nat ->
  let r := startScan lo lop hi hop s in
  let expected := ridsInRange lo lop hi hop (entriesOf l) in
  bufMgr (snd r) = bufMgr s /\
  match fst r with
  | Ok _ => fst (drain fuel (snd r)) = Ok expected /\
            scanExecuting (snd (drain fuel (snd r))) = true /\
            bufMgr (snd (drain fuel (snd r))) = bufMgr s
  | Throw e => e = NoSuchKeyFoundException /\ expected = [] /\
               scanExecuting (snd r) = false
  end.
Proof.
  intros (Hone & Hpage & Hsib & HN & Hasc) Hrange Hops Hfuel. cbn zeta.
  destruct (startScan_root_leaf s l lo lop hi hop Hone Hpage Hrange Hops)
    as (Hbuf & Hcur & Hne & Hhi & Hhop & Hout).
  cbn zeta in *.
  split; [exact Hbuf|].
  set (r := startScan lo lop hi hop s) in *.
  assert (Hpage' : pages (bufMgr (snd r)) !! currentPageNum (snd r) = Some (LeafPage l)).
  { rewrite Hbuf, Hcur. exact Hpage. }
  destruct (startScan_loop_first lo lop l (-1) (Z.to_nat (Leaf.numOccupied l)) 0)
    as [[E1 E2]|(E1 & E2 & E3)]; try lia; cbn zeta in *.
  - (* no key satisfies the low bound *)
    assert (Hexp : ridsInRange lo lop hi hop (entriesOf l) = []).
    { unfold ridsInRange. rewrite filter_none; [reflexivity|].
      intros e He. apply in_entries in He. destruct He as (i & Hi & ->).
      unfold inRange. cbn [entryAt fst]. rewrite E2 by lia. reflexivity. }
    rewrite E1 in Hout, Hne.
    rewrite (proj2 (Z.eqb_neq (-1) (Leaf.numOccupied l))) in Hout by lia.
    cbn [orb] in Hout.
    destruct (belowHigh hi hop (Leaf.keyArray l (-1))); cbn [negb] in Hout;
      destruct Hout as [Hfst Hex]; rewrite Hfst.
    + destruct fuel as [|fuel]; [lia|].
      rewrite (drain_completed fuel (snd r) (LeafPage l)) by assumption.
      rewrite Hexp. repeat split; assumption || reflexivity.
    + repeat split; assumption || reflexivity.
  - (* the first key that satisfies the low bound *)
    set (ne := startScan_loop (Z.to_nat (Leaf.numOccupied l)) lo lop l 0 (-1)) in *.
    pose proof (entriesOf_split l (Z.to_nat ne) (S (Z.to_nat (Leaf.numOccupied l - ne - 1)))
                  ltac:(lia)) as Hsplit.
    assert (Hbefore : List.filter (inRange lo lop hi hop)
                        (map (entryAt l) (seq 0 (Z.to_nat ne))) = []).
    { apply filter_none. intros e He. apply in_entries in He. destruct He as (i & Hi & ->).
      unfold inRange. cbn [entryAt fst]. rewrite E3 by lia. reflexivity. }
    rewrite (proj2 (Z.eqb_neq ne (Leaf.numOccupied l))) in Hout by lia.
    cbn [orb] in Hout.
    destruct (belowHigh hi hop (Leaf.keyArray l ne)) eqn:Hfirst; cbn [negb] in Hout;
      destruct Hout as [Hfst Hex]; rewrite Hfst.
    + destruct (drain_last_leaf l (Z.to_nat (Leaf.numOccupied l - ne - 1)) fuel (snd r)
                  (Z.to_nat ne)) as (D1 & D2 & D3); try assumption; try lia.
      { rewrite Hhi, Hhop, Z2Nat.id by lia. exact Hfirst. }
      rewrite D1, D2, D3, Hhi, Hhop.
      split; [|split; [reflexivity|exact Hbuf]].
      f_equal. unfold ridsInRange. rewrite Hsplit, List.filter_app, Hbefore. cbn [app].
      f_equal. apply List.filter_ext_in.
      intros e He. apply in_entries in He. destruct He as (i & Hi & ->).
      unfold inRange. cbn [entryAt fst].
      rewrite (aboveLow_mono lo lop (Leaf.keyArray l ne)); [reflexivity| |exact E2].
      apply (ascending_le _ (Leaf.numOccupied l)); try assumption; lia.
    + split; [reflexivity|]. split; [|exact Hex].
      unfold ridsInRange. rewrite Hsplit, List.filter_app, Hbefore. cbn [app].
      rewrite filter_none; [reflexivity|].
      intros e He. apply in_entries in He. destruct He as (i & Hi & ->).
      unfold inRange. cbn [entryAt fst].
      rewrite (belowHigh_mono hi hop (Leaf.keyArray l ne)); [apply andb_false_r| |exact Hfirst].
      apply (ascending_le _ (Leaf.numOccupied l)); try assumption; lia.
Qed.

(** X6: the tree is a single leaf with ascending keys, the low value is not
    above the high value and the operators are valid.  If [startScan]
    returns, the calls of [scanNext] up to [IndexScanCompleted] return the
    record ids of the entries whose keys are in the range, in key order
    (none if the leaf holds no key for the low bound).  Otherwise
    [startScan] raises [NoSuchKeyFound], no key of the leaf is in the range
    and the scan is not active. *)
Theorem scan_of_root_leaf (s : BTreeIndex) (l : Leaf.t)
    (lo : Z) (lop : Operator) (hi : Z) (hop : Operator) (fuel : nat) :
  rootLeaf s l ->
  lo <= hi -> validOperators lop hop ->
  (Z.to_nat (Leaf.numOccupied l) < fuel)%nat ->
  let started := startScan lo lop hi hop s in
  match fst started with
  | Ok _ => fst (drain fuel (snd started)) = Ok (ridsInRange lo lop hi hop (entriesOf l))
  | Throw e => e = NoSuchKeyFoundException /\
               ridsInRange lo lop hi hop (entriesOf l) = [] /\
               scanExecuting (snd started) = false
  end.
Proof.
  intros Hleaf Hrange Hops Hfuel. cbn zeta.
  destruct (scan_root_leaf s l lo lop hi hop fuel Hleaf Hrange Hops Hfuel) as [_ Hscan].
  cbn zeta in Hscan.
  destruct (fst (startScan lo lop hi hop s)) as [u|e]; [apply Hscan|exact Hscan].
Qed.

(** ** An inserted pair is found by the scan of its key *)

(** A write of a leaf over a leaf is invisible to the descent. *)
Lemma searchEntry_leaf_written (pageNo : PageId) (L L' : Leaf.t) (fuel : nat) :
  forall key root visited s,
  pages (bufMgr s) !! pageNo = Some (LeafPage L) ->
  fst (searchEntry fuel key root visited
         (set_bufMgr (set_pages (<[pageNo := LeafPage L']> (pages (bufMgr s))) (bufMgr s)) s)) =
  fst (searchEntry fuel key root visited s).
Proof.
  induction fuel as [|fuel IH]; intros key root visited s Hpage;
    cbn [searchEntry]; unfold readNonLeaf, readPage; run;
    (destruct (onlyOneRoot s); [reflexivity|]); [reflexivity|].
  st_simpl. destruct (Z.eq_dec root pageNo) as [->|Hne].
  - rewrite lookup_insert_eq, Hpage. reflexivity.
  - rewrite lookup_insert_ne by congruence.
    destruct (pages (bufMgr s) !! root) as [[m|l|n]|]; st_simpl; try reflexivity.
    destruct (NonLeaf.level n =? 0); [|reflexivity].
    apply IH. exact Hpage.
Qed.

Lemma descentFuel_leaf_written (pageNo : PageId) (L : Page) (p : Page) (s : BTreeIndex) :
  pages (bufMgr s) !! pageNo = Some L ->
  descentFuel (set_bufMgr (set_pages (<[pageNo := p]> (pages (bufMgr s))) (bufMgr s)) s) =
  descentFuel s.
Proof.
  intros Hpage. unfold descentFuel. st_simpl.
  rewrite map_size_insert_Some by (eexists; exact Hpage). reflexivity.
Qed.

(** The slot of a key among keys that may hold it already. *)
Lemma slot_exists_nonstrict (K : Z -> Z) (key : Z) : forall n : nat,
  nondescending K (Z.of_nat n) ->
  exists p, 0 <= p <= Z.of_nat n /\
            (forall x, 0 <= x < p -> K x < key) /\
            (forall x, p <= x < Z.of_nat n -> key <= K x).
Proof.
  induction n as [|n IH]; intros Hasc.
  - exists 0. repeat split; intros; lia.
  - destruct IH as (p & Hp & Hlo & Hhi).
    + intros a b Ha Hab Hb. apply Hasc; lia.
    + destruct (Z.eq_dec p (Z.of_nat n)) as [->|Hpn].
      * destruct (Z_lt_le_dec (K (Z.of_nat n)) key) as [Hlt|Hge].
        -- exists (Z.of_nat n + 1). repeat split; try lia.
           intros x Hx. destruct (Z.eq_dec x (Z.of_nat n)) as [->|]; [assumption|].
           apply Hlo. lia.
        -- exists (Z.of_nat n). repeat split; try lia; [assumption|].
           intros x Hx. assert (x = Z.of_nat n) by lia. subst x. exact Hge.
      * exists p. repeat split; try lia; [assumption|].
        intros x Hx. destruct (Z.eq_dec x (Z.of_nat n)) as [->|].
        -- specialize (Hhi p). specialize (Hasc p (Z.of_nat n)). lia.
        -- apply Hhi. lia.
Qed.

Lemma scanNext_returns (s : BTreeIndex) (l : Leaf.t) :
  scanExecuting s = true ->
  pages (bufMgr s) !! currentPageNum s = Some (LeafPage l) ->
  nextEntry s <> -1 ->
  (nextEntry s + 1 < Leaf.numOccupied l \/
   Leaf.rightSibPageNo l = INVALID_NUMBER \/
   exists sib, pages (bufMgr s) !! Leaf.rightSibPageNo l = Some (LeafPage sib)) ->
  fst (scanNext s) = Ok (Leaf.ridArray l (nextEntry s)).
Proof.
  intros Hex Hpage Hne Hnext.
  unfold scanNext, readLeaf, readPage. run. rewrite Hex. st_simpl. rewrite Hpage. st_simpl.
  rewrite (proj2 (Z.eqb_neq _ _) Hne).
  destruct (Z.ltb_spec (nextEntry s + 1) (Leaf.numOccupied l)) as [Hin|Hout].
  - repeat match goal with
           | |- context [if ?b then _ else _] => destruct b
           end; reflexivity.
  - destruct (Z.eqb_spec (Leaf.rightSibPageNo l) INVALID_NUMBER) as [Hz|Hnz]; [reflexivity|].
    destruct Hnext as [H|[H|[sib Hsib]]]; [lia|congruence|].
    st_simpl. rewrite Hsib. st_simpl.
    repeat match goal with
           | |- context [if ?b then _ else _] => destruct b
           end; reflexivity.
Qed.

(** X7: the descent for a key ends at a leaf that has room, whose keys do not
    descend and whose right sibling, if it has one, is a leaf of the file.
    After [insertEntry] of the key with a record id, [startScan] for the
    range from the key to the key, both bounds included, returns normally
    and the first [scanNext] returns that record id, whether or not the key
    was stored before. *)
Theorem inserted_pair_is_found_by_scan_of_its_key (s : BTreeIndex) (k : Z) (rid : RecordId)
    (pageNo : PageId) (visited : list PageId) (L : Leaf.t) :
  fst (searchEntry (descentFuel s) k (rootPageNum s) [] s) = Ok (pageNo, visited) ->
  pages (bufMgr s) !! pageNo = Some (LeafPage L) ->
  0 <= Leaf.numOccupied L < leafOccupancy s ->
  nondescending (Leaf.keyArray L) (Leaf.numOccupied L) ->
  (Leaf.rightSibPageNo L = INVALID_NUMBER \/
   exists sib, pages (bufMgr s) !! Leaf.rightSibPageNo L = Some (LeafPage sib)) ->
  let inserted := insertEntry k rid s in
  let started := startScan k GTE k LTE (snd inserted) in
  fst inserted = Ok tt /\
  fst started = Ok tt /\
  fst (scanNext (snd started)) = Ok rid.
Proof.
  intros Hsearch Hpage [HN Hroom] Hasc Hsib. cbn zeta.
  destruct (slot_exists_nonstrict (Leaf.keyArray L) k (Z.to_nat (Leaf.numOccupied L)))
    as (p & Hp & Hlo & Hhi); rewrite ?Z2Nat.id by lia; try assumption.
  rewrite Z2Nat.id in Hp, Hhi by lia.
  assert (Hslot : slotFor (Leaf.keyArray L) k p (Leaf.numOccupied L - 1)).
  { split.
    - intros x Hx. apply Hhi. lia.
    - intros Hpos. apply Hlo. lia. }
  destruct (insertEntryLeaf_store_spec k rid L p) as (E1 & E2 & E3 & E4);
    [lia | assumption |].
  rewrite (insertEntry_unfold k rid s pageNo visited Hsearch).
  rewrite (insertEntryLeaf_room k rid s pageNo visited L Hpage Hroom).
  cbn [fst snd]. split; [reflexivity|].
  set (L' := insertEntryLeaf_store k rid L) in *.
  set (s1 := set_bufMgr (set_pages (<[pageNo := LeafPage L']> (pages (bufMgr s))) (bufMgr s)) s).
  assert (Hpage1 : pages (bufMgr s1) !! pageNo = Some (LeafPage L'))
    by apply lookup_insert_eq.
  assert (Hsearch1 : fst (searchEntry (descentFuel s1) k (rootPageNum s1) [] s1) =
                     Ok (pageNo, visited)).
  { unfold s1. rewrite (descentFuel_leaf_written pageNo (LeafPage L) _ s Hpage).
    rewrite (searchEntry_leaf_written pageNo L L' _ _ _ _ s Hpage). exact Hsearch. }
  destruct (startScan_at_leaf s1 pageNo visited L' k GTE k LTE Hsearch1 Hpage1)
    as (Hbuf & Hcur & Hne & _ & _ & Hout).
  { lia. }
  { split; [right|right]; reflexivity. }
  cbn zeta in *.
  assert (Hfirst : startScan_loop (Z.to_nat (Leaf.numOccupied L')) k GTE L' 0 (-1) = p).
  { destruct (startScan_loop_first k GTE L' (-1) (Z.to_nat (Leaf.numOccupied L')) 0)
      as [[F1 F2]|(F1 & F2 & F3)]; try lia; cbn zeta in *.
    - exfalso. specialize (F2 p ltac:(lia)). rewrite E3, Z.eqb_refl in F2.
      unfold aboveLow in F2. cbn in F2. apply Z.leb_gt in F2. lia.
    - set (ne := startScan_loop (Z.to_nat (Leaf.numOccupied L')) k GTE L' 0 (-1)) in *.
      destruct (Z_lt_le_dec p ne) as [Hlt|Hge].
      + exfalso. specialize (F3 p ltac:(lia)). rewrite E3, Z.eqb_refl in F3.
        unfold aboveLow in F3. cbn in F3. apply Z.leb_gt in F3. lia.
      + destruct (Z.eq_dec ne p) as [|Hneq]; [assumption|]. exfalso.
        replace (Leaf.keyArray L' ne) with (Leaf.keyArray L ne) in F2
          by (rewrite E3; arr).
        unfold aboveLow in F2. cbn [Operator_eqb] in F2. apply Z.leb_le in F2.
        specialize (Hlo ne). lia. }
  rewrite Hfirst in Hout, Hne.
  rewrite (proj2 (Z.eqb_neq p (Leaf.numOccupied L'))) in Hout by lia.
  assert (Hkey : Leaf.keyArray L' p = k) by (rewrite E3, Z.eqb_refl; reflexivity).
  rewrite Hkey in Hout. unfold belowHigh in Hout. cbn [Operator_eqb orb negb] in Hout.
  rewrite Z.leb_refl in Hout. cbn [negb] in Hout. destruct Hout as [Hok Hex].
  split; [exact Hok|].
  set (s2 := snd (startScan k GTE k LTE s1)) in *.
  assert (Hpage2 : pages (bufMgr s2) !! currentPageNum s2 = Some (LeafPage L')).
  { rewrite Hbuf, Hcur. exact Hpage1. }
  rewrite (scanNext_returns s2 L' Hex Hpage2).
  - rewrite Hne, E4, Z.eqb_refl. reflexivity.
  - lia.
  - right. rewrite E2, Hbuf. destruct Hsib as [Hz|[sib Hs]]; [left; exact Hz|].
    right. unfold s1. st_simpl.
    destruct (Z.eq_dec (Leaf.rightSibPageNo L) pageNo) as [->|Hd].
    + exists L'. apply lookup_insert_eq.
    + exists sib. rewrite lookup_insert_ne by congruence. exact Hs.
Qed.

(** ** The scan driver on a single leaf *)

(** The loop of [intScan] counts what the drained scan returns, as long as
    the relation file holds the records. *)
Lemma intScan_loop_drain (readRecord : RecordId -> Outcome unit) :
  forall (fuel : nat) (c : Z) (s : BTreeIndex) (rids : list RecordId),
  fst (drain fuel s) = Ok rids ->
  (forall rid, In rid rids -> readRecord rid = Ok tt) ->
  intScan_loop fuel readRecord c s =
    (Ok (c + Z.of_nat (length rids)), snd (drain fuel s)).
Proof.
  induction fuel as [|fuel IH]; intros c s rids Hd Hread; [discriminate|].
  cbn [drain intScan_loop] in *.
  destruct (scanNext s) as [[rid|e] s1].
  - unfold bind in *.
    specialize (IH (c + 1) s1).
    destruct (drain fuel s1) as [[rest|e] s2]; cbn [fst snd ret] in *; [|discriminate].
    injection Hd as <-.
    rewrite (Hread rid (or_introl eq_refl)).
    rewrite (IH rest eq_refl) by (intros r Hr; apply Hread; right; exact Hr).
    cbn [length]. f_equal. f_equal. lia.
  - destruct e; cbn [fst snd] in *; try discriminate.
    injection Hd as <-. cbn [length]. f_equal. f_equal. lia.
Qed.

Lemma in_ridsInRange lo lop hi hop (es : list (Z * RecordId)) (rid : RecordId) :
  In rid (ridsInRange lo lop hi hop es) -> exists k, In (k, rid) es.
Proof.
  unfold ridsInRange. intros H. apply in_map_iff in H. destruct H as ([k r] & <- & Hin).
  apply List.filter_In in Hin. exists k. apply Hin.
Qed.

Lemma intScan_counts_root_leaf (s : BTreeIndex) (l : Leaf.t)
    (readRecord : RecordId -> Outcome unit)
    (lo : Z) (lop : Operator) (hi : Z) (hop : Operator) (fuel : nat) :
  rootLeaf s l ->
  lo <= hi -> validOperators lop hop ->
  (forall e, In e (entriesOf l) -> readRecord (snd e) = Ok tt) ->
  (Z.to_nat (Leaf.numOccupied l) < fuel)%nat ->
  let r := intScan fuel readRecord lo lop hi hop s in
  fst r = Ok (Z.of_nat (length (List.filter (inRange lo lop hi hop) (entriesOf l)))) /\
  scanExecuting (snd r) = false /\
  treeState (snd r) = treeState s.
Proof.
  intros Hleaf Hrange Hops Hread Hfuel. cbn zeta.
  destruct (scan_root_leaf s l lo lop hi hop fuel Hleaf Hrange Hops Hfuel) as [Hbuf Hscan].
  cbn zeta in *.
  pose proof (startScan_tree lo lop hi hop s) as Htree.
  unfold intScan.
  destruct (startScan lo lop hi hop s) as [[u|e] s1]; cbn [fst snd] in *.
  - destruct Hscan as (Hd & Hex & Hbuf2).
    unfold bind.
    rewrite (intScan_loop_drain readRecord fuel 0 s1 _ Hd).
    + pose proof (drain_tree fuel s1) as Htree2.
      unfold endScan. run. rewrite Hex. unfold ridsInRange. rewrite length_map.
      split; [reflexivity|]. split; [reflexivity|].
      rewrite <- Htree, <- Htree2. reflexivity.
    + intros rid Hin. apply in_ridsInRange in Hin. destruct Hin as [k Hin].
      apply (Hread (k, rid) Hin).
  - destruct Hscan as (-> & Hexp & Hex).
    unfold ridsInRange in Hexp. apply map_eq_nil in Hexp. rewrite Hexp.
    repeat split; assumption.
Qed.

(** ** An index that fits in one leaf *)

Lemma entriesOf_length (l : Leaf.t) :
  length (entriesOf l) = Z.to_nat (Leaf.numOccupied l).
Proof. unfold entriesOf. rewrite length_map, length_seq. reflexivity. Qed.

Lemma in_entriesOf (l : Leaf.t) (x : Z) :
  0 <= x < Leaf.numOccupied l ->
  In (Leaf.keyArray l x, Leaf.ridArray l x) (entriesOf l).
Proof.
  intros Hx. unfold entriesOf. apply in_map_iff. exists (Z.to_nat x). split.
  - unfold entryAt. rewrite Z2Nat.id by lia. reflexivity.
  - apply in_seq. lia.
Qed.

Lemma entries_sorted (l : Leaf.t) :
  ascending (Leaf.keyArray l) (Leaf.numOccupied l) ->
  forall n a, (a + n <= Z.to_nat (Leaf.numOccupied l))%nat ->
  StronglySorted keyOrder (map (entryAt l) (seq a n)).
Proof.
  intros Hasc. induction n as [|n IH]; intros a Hlen; cbn [seq map].
  - constructor.
  - constructor; [apply IH; lia|].
    apply List.Forall_forall. intros e He. apply in_entries in He. destruct He as (i & Hi & ->).
    unfold keyOrder, entryAt. cbn [fst]. apply Hasc; lia.
Qed.

Lemma entriesOf_sorted (l : Leaf.t) :
  ascending (Leaf.keyArray l) (Leaf.numOccupied l) ->
  StronglySorted keyOrder (entriesOf l).
Proof. intros Hasc. apply entries_sorted; [assumption|lia]. Qed.

(** The entries of a leaf after [insertEntryLeaf_store] has placed a pair at
    the slot [p]. *)
Lemma entriesOf_store (k : Z) (rid : RecordId) (L L' : Leaf.t) (p : Z) :
  0 <= p <= Leaf.numOccupied L ->
  Leaf.numOccupied L' = Leaf.numOccupied L + 1 ->
  (forall x, Leaf.keyArray L' x =
             if x =? p then k else shifted (Leaf.keyArray L) p (Leaf.numOccupied L) x) ->
  (forall x, Leaf.ridArray L' x =
             if x =? p then rid else shifted (Leaf.ridArray L) p (Leaf.numOccupied L) x) ->
  Permutation (entriesOf L') ((k, rid) :: entriesOf L).
Proof.
  intros Hp HN EK ER.
  rewrite (entriesOf_split L' (Z.to_nat p) (S (Z.to_nat (Leaf.numOccupied L - p)))) by lia.
  rewrite (entriesOf_split L (Z.to_nat p) (Z.to_nat (Leaf.numOccupied L - p))) by lia.
  cbn [seq map].
  assert (E1 : map (entryAt L') (seq 0 (Z.to_nat p)) = map (entryAt L) (seq 0 (Z.to_nat p))).
  { apply map_ext_in. intros i Hi. apply in_seq in Hi. unfold entryAt.
    rewrite EK, ER. unfold shifted. zcases; simpl; try lia. reflexivity. }
  assert (E2 : entryAt L' (Z.to_nat p) = (k, rid)).
  { unfold entryAt. rewrite EK, ER, Z2Nat.id, Z.eqb_refl by lia. reflexivity. }
  assert (E3 : map (entryAt L') (seq (S (Z.to_nat p)) (Z.to_nat (Leaf.numOccupied L - p))) =
               map (entryAt L) (seq (Z.to_nat p) (Z.to_nat (Leaf.numOccupied L - p)))).
  { rewrite <- seq_shift, map_map. apply map_ext_in. intros i Hi. apply in_seq in Hi.
    unfold entryAt. rewrite EK, ER. unfold shifted.
    replace (Z.of_nat (S i) - 1) with (Z.of_nat i) by lia.
    zcases; simpl; try lia. reflexivity. }
  rewrite E1, E2, E3. symmetry. apply Permutation_middle.
Qed.

Lemma insertEntry_single_leaf (s : BTreeIndex) (relName : string) (offset : Z)
    (attrTy : Datatype) (es : list (Z * RecordId)) (k : Z) (rid : RecordId) :
  singleLeafIndex s relName offset attrTy es ->
  Z.of_nat (length es) < leafOccupancy s ->
  ~ In k (map fst es) ->
  fst (insertEntry k rid s) = Ok tt /\
  singleLeafIndex (snd (insertEntry k rid s)) relName offset attrTy ((k, rid) :: es) /\
  leafOccupancy (snd (insertEntry k rid s)) = leafOccupancy s.
Proof.
  intros (Hhdr & Hroot & Hmeta & L & (Hone & Hpage & Hsib & HN & Hasc) & Hperm) Hroom Hnew.
  assert (Hlen : Z.of_nat (length es) = Leaf.numOccupied L).
  { rewrite <- (Permutation_length Hperm), entriesOf_length. lia. }
  assert (Hnew' : forall x, 0 <= x < Leaf.numOccupied L -> Leaf.keyArray L x <> k).
  { intros x Hx Heq. apply Hnew. apply in_map_iff.
    exists (Leaf.keyArray L x, Leaf.ridArray L x). split; [exact Heq|].
    apply (Permutation_in _ Hperm). apply in_entriesOf. exact Hx. }
  destruct (insertEntryLeaf_store_new_key k rid L HN Hasc Hnew')
    as (E1 & E2 & E3 & p & Hp & EK & ER).
  cbn zeta in *.
  rewrite (insertEntry_unfold k rid s (rootPageNum s) []).
  2:{ rewrite searchEntry_onlyOneRoot by exact Hone. reflexivity. }
  rewrite (insertEntryLeaf_room k rid s (rootPageNum s) [] L Hpage ltac:(lia)).
  cbn [fst snd]. split; [reflexivity|]. split; [|reflexivity].
  unfold singleLeafIndex, rootLeaf. st_simpl.
  split; [exact Hhdr|]. split; [exact Hroot|]. split.
  { rewrite lookup_insert_ne by lia. exact Hmeta. }
  exists (insertEntryLeaf_store k rid L). split.
  - split; [exact Hone|]. split; [apply lookup_insert_eq|].
    split; [congruence|]. split; [lia|]. rewrite E1. exact E3.
  - etransitivity; [apply (entriesOf_store k rid L _ p); assumption|].
    apply perm_skip. exact Hperm.
Qed.

Lemma insertAll_single_leaf (relName : string) (offset : Z) (attrTy : Datatype) :
  forall (rel es : list (Z * RecordId)) (s : BTreeIndex),
  singleLeafIndex s relName offset attrTy es ->
  List.NoDup (map fst (rel ++ es)) ->
  Z.of_nat (length (rel ++ es)) <= leafOccupancy s ->
  fst (insertAll rel s) = Ok tt /\
  singleLeafIndex (snd (insertAll rel s)) relName offset attrTy (rel ++ es) /\
  leafOccupancy (snd (insertAll rel s)) = leafOccupancy s /\
  scanState (snd (insertAll rel s)) = scanState s.
Proof.
  induction rel as [|[k rid] rel IH]; intros es s Hinv Hnodup Hlen.
  - split; [reflexivity|]. split; [exact Hinv|]. split; reflexivity.
  - cbn [insertAll]. unfold bind.
    cbn [app map fst length] in Hnodup, Hlen.
    assert (Hperm : Permutation ((k, rid) :: rel ++ es) (rel ++ (k, rid) :: es))
      by apply Permutation_middle.
    destruct (insertEntry_single_leaf s relName offset attrTy es k rid Hinv) as (E1 & E2 & E3).
    { rewrite length_app in Hlen. lia. }
    { apply List.NoDup_cons_iff in Hnodup. destruct Hnodup as [Hnotin _].
      intros Hin. apply Hnotin.
      rewrite map_app. apply in_or_app. right. exact Hin. }
    pose proof (keepsScan_insertEntry k rid s) as Hscan.
    destruct (insertEntry k rid s) as [[u|e] s1]; cbn [fst snd] in *; [|discriminate].
    destruct (IH ((k, rid) :: es) s1 E2) as (F1 & F2 & F3 & F4).
    { apply (Permutation_NoDup (l := map fst ((k, rid) :: rel ++ es))); [|exact Hnodup].
      apply Permutation_map. exact Hperm. }
    { rewrite E3, <- (Permutation_length Hperm). cbn [length]. lia. }
    split; [exact F1|]. split; [|split; congruence].
    destruct F2 as (G1 & G2 & G3 & l & G4 & G5).
    split; [exact G1|]. split; [exact G2|]. split; [exact G3|].
    exists l. split; [exact G4|]. rewrite G5. symmetry. exact Hperm.
Qed.

(** The create path of the constructor up to the insertion of the
    relation: page 1 is the header page, page 2 the empty root leaf. *)
Lemma create_unfold (relName : string) (offset : Z) (attrTy : Datatype) (L N : Z)
    (rel : list (Z * RecordId)) (s : BTreeIndex) :
  pages (bufMgr s) = ∅ ->
  exists s0,
    BTreeIndex_create relName offset attrTy L N rel s = insertAll rel s0 /\
    singleLeafIndex s0 relName offset attrTy [] /\
    leafOccupancy s0 = L /\ nodeOccupancy s0 = N /\ scanExecuting s0 = false.
Proof.
  intros Hempty.
  unfold BTreeIndex_create, allocMeta, allocLeaf, writePage, nextPageNo. run.
  rewrite Hempty.
  rewrite map_size_empty. cbn [Z.of_nat Z.add].
  rewrite insert_empty, map_size_singleton.
  change (Z.of_nat 1 + 1) with 2. change (0 + 1) with 1.
  eexists. split; [reflexivity|].
  split; [|st_simpl; repeat split; reflexivity].
  unfold singleLeafIndex, rootLeaf. st_simpl.
  split; [reflexivity|]. split; [reflexivity|]. split.
  { rewrite lookup_insert_ne by lia. rewrite lookup_insert_eq. reflexivity. }
  eexists. split.
  - split; [reflexivity|]. split; [apply lookup_insert_eq|].
    cbn. split; [reflexivity|]. split; [lia|]. intros i j Hi Hij Hj. lia.
  - cbn. constructor.
Qed.

(** The constructor on a relation with distinct keys that is not larger
    than a leaf. *)
Lemma constructor_single_leaf (this : BTreeIndex) (bufMgrIn : BufMgr) (relName : string)
    (offset : Z) (attrTy : Datatype) (L N : Z) (rel : list (Z * RecordId)) :
  List.NoDup (map fst rel) ->
  Z.of_nat (length rel) <= L ->
  let built := BTreeIndex_new this bufMgrIn None relName offset attrTy L N rel in
  fst built = Ok tt /\
  singleLeafIndex (snd built) relName offset attrTy rel /\
  leafOccupancy (snd built) = L /\
  scanExecuting (snd built) = false.
Proof.
  intros Hnodup Hlen. cbn zeta. unfold BTreeIndex_new.
  destruct (create_unfold relName offset attrTy L N rel
              (set_bufMgr (set_pages ∅ bufMgrIn)
                 (set_attrByteOffset offset (set_attributeType attrTy this))))
    as (s0 & -> & Hinv & HL & _ & Hex); [reflexivity|].
  destruct (insertAll_single_leaf relName offset attrTy rel [] s0 Hinv)
    as (E1 & E2 & E3 & E4).
  - rewrite app_nil_r. exact Hnodup.
  - rewrite app_nil_r, HL. exact Hlen.
  - rewrite app_nil_r in E2.
    split; [exact E1|]. split; [exact E2|]. split; [congruence|].
    unfold scanState in E4. congruence.
Qed.

Lemma filter_length_Permutation {A : Type} (f : A -> bool) (l l' : list A) :
  Permutation l l' -> length (List.filter f l) = length (List.filter f l').
Proof.
  induction 1 as [|x l l' _ IH|x y l|l l' l'' _ IH1 _ IH2]; cbn [List.filter].
  - reflexivity.
  - destruct (f x); cbn [length]; congruence.
  - destruct (f x), (f y); reflexivity.
  - congruence.
Qed.

(** X8: the index file does not exist and the relation holds distinct keys,
    not more than [INTARRAYLEAFSIZE].  The constructor returns normally,
    and a scan of the new index with valid arguments, drained by [scanNext],
    returns the record ids of the tuples whose keys are in the range, in
    ascending key order; [startScan] raises [NoSuchKeyFound] only if no
    tuple is in the range. *)
Theorem scan_of_index_built_from_small_relation (this : BTreeIndex) (bufMgrIn : BufMgr)
    (relName : string) (offset : Z) (attrTy : Datatype) (L N : Z)
    (rel : list (Z * RecordId))
    (lo : Z) (lop : Operator) (hi : Z) (hop : Operator) (fuel : nat) :
  List.NoDup (map fst rel) ->
  Z.of_nat (length rel) <= L ->
  lo <= hi -> validOperators lop hop ->
  (length rel < fuel)%nat ->
  let built := BTreeIndex_new this bufMgrIn None relName offset attrTy L N rel in
  let started := startScan lo lop hi hop (snd built) in
  fst built = Ok tt /\
  exists sorted : list (Z * RecordId),
    Permutation sorted rel /\ StronglySorted keyOrder sorted /\
    match fst started with
    | Ok _ => fst (drain fuel (snd started)) = Ok (ridsInRange lo lop hi hop sorted)
    | Throw e => e = NoSuchKeyFoundException /\
                 ridsInRange lo lop hi hop sorted = [] /\
                 scanExecuting (snd started) = false
    end.
Proof.
  intros Hnodup Hlen Hrange Hops Hfuel. cbn zeta.
  destruct (constructor_single_leaf this bufMgrIn relName offset attrTy L N rel Hnodup Hlen)
    as (E1 & (_ & _ & _ & l & Hleaf & Hperm) & _ & _).
  cbn zeta in *. split; [exact E1|].
  exists (entriesOf l). split; [exact Hperm|].
  split; [apply entriesOf_sorted; apply Hleaf|].
  destruct (scan_root_leaf _ l lo lop hi hop fuel Hleaf Hrange Hops) as [_ Hscan].
  { rewrite <- entriesOf_length, (Permutation_length Hperm). exact Hfuel. }
  cbn zeta in Hscan.
  destruct (fst (startScan lo lop hi hop _)) as [u|e].
  - apply Hscan.
  - exact Hscan.
Qed.

(** X9: on the same index the scan driver [intScan] of [main.cpp] returns
    the number of tuples of the relation whose keys are in the range, and
    leaves no scan active. *)
Theorem intScan_of_index_built_from_small_relation (this : BTreeIndex) (bufMgrIn : BufMgr)
    (relName : string) (offset : Z) (attrTy : Datatype) (L N : Z)
    (rel : list (Z * RecordId)) (readRecord : RecordId -> Outcome unit)
    (lo : Z) (lop : Operator) (hi : Z) (hop : Operator) (fuel : nat) :
  List.NoDup (map fst rel) ->
  Z.of_nat (length rel) <= L ->
  lo <= hi -> validOperators lop hop ->
  (forall e, In e rel -> readRecord (snd e) = Ok tt) ->
  (length rel < fuel)%nat ->
  let built := BTreeIndex_new this bufMgrIn None relName offset attrTy L N rel in
  let counted := intScan fuel readRecord lo lop hi hop (snd built) in
  fst built = Ok tt /\
  fst counted = Ok (Z.of_nat (length (List.filter (inRange lo lop hi hop) rel))) /\
  scanExecuting (snd counted) = false.
Proof.
  intros Hnodup Hlen Hrange Hops Hread Hfuel. cbn zeta.
  destruct (constructor_single_leaf this bufMgrIn relName offset attrTy L N rel Hnodup Hlen)
    as (E1 & (_ & _ & _ & l & Hleaf & Hperm) & _ & _).
  cbn zeta in *. split; [exact E1|].
  destruct (intScan_counts_root_leaf _ l readRecord lo lop hi hop fuel Hleaf Hrange Hops)
    as (F1 & F2 & _).
  - intros e He. apply Hread. apply (Permutation_in _ Hperm). exact He.
  - rewrite <- entriesOf_length, (Permutation_length Hperm). exact Hfuel.
  - split; [|exact F2]. rewrite F1.
    rewrite (filter_length_Permutation _ _ _ Hperm). reflexivity.
Qed.



(** ** A new index has no scan *)

Lemma keepsScan_insertAll (rel : list (Z * RecordId)) : keepsScan (insertAll rel).
Proof.
  induction rel as [|[k rid] rel IH]; cbn [insertAll].
  - apply keepsScan_ret.
  - apply keepsScan_bind; [apply keepsScan_insertEntry|intros _; exact IH].
Qed.

(** X11: after the create path of the constructor, whatever the relation
    holds and however its insertion ends, no scan is active: [endScan] and
    [scanNext] raise [ScanNotInitialized] and change nothing, as the first
    two error tests of [main.cpp] expect. *)
Theorem new_index_has_no_scan (this : BTreeIndex) (bufMgrIn : BufMgr)
    (relName : string) (offset : Z) (attrTy : Datatype) (L N : Z)
    (rel : list (Z * RecordId)) :
  let built := BTreeIndex_new this bufMgrIn None relName offset attrTy L N rel in
  scanExecuting (snd built) = false /\
  endScan (snd built) = (Throw ScanNotInitializedException, snd built) /\
  scanNext (snd built) = (Throw ScanNotInitializedException, snd built).
Proof.
  cbn zeta. unfold BTreeIndex_new.
  destruct (create_unfold relName offset attrTy L N rel
              (set_bufMgr (set_pages ∅ bufMgrIn)
                 (set_attrByteOffset offset (set_attributeType attrTy this))))
    as (s0 & -> & _ & _ & _ & Hex); [reflexivity|].
  pose proof (keepsScan_insertAll rel s0) as Hscan.
  assert (Hex' : scanExecuting (snd (insertAll rel s0)) = false).
  { unfold scanState in Hscan. congruence. }
  split; [exact Hex'|]. split.
  - unfold endScan. run. rewrite Hex'. reflexivity.
  - unfold scanNext. run. rewrite Hex'. reflexivity.
Qed.

(** ** Instances of the further properties *)

Lemma tensLeaf_rootLeaf : rootLeaf (tensIndex 3) (tensLeaf 3).
Proof.
  split; [reflexivity|]. split; [vm_compute; reflexivity|].
  split; [reflexivity|]. split; [cbn; lia|]. apply tensLeaf_ascending.
Qed.

Lemma threeTuples_distinct : List.NoDup (map fst threeTuples).
Proof. cbn. repeat constructor; cbn; intuition lia. Qed.

Lemma insertEntry_new_key_in_leaf_with_room_witness :
  fst (insertEntry 25 (mkRid 9 9) (tensIndex 3)) = Ok tt /\
  ascending (Leaf.keyArray (insertEntryLeaf_store 25 (mkRid 9 9) (tensLeaf 3))) 4.
Proof.
  destruct (insertEntry_new_key_in_leaf_with_room (tensIndex 3) 25 (mkRid 9 9) 2 []
              (tensLeaf 3)) as (H1 & H2 & _ & H4 & _).
  - vm_compute. reflexivity.
  - vm_compute. reflexivity.
  - cbn. lia.
  - apply tensLeaf_ascending.
  - intros x Hx. cbn. lia.
  - split; [rewrite H1; reflexivity|]. rewrite H2 in H4. exact H4.
Defined.

Lemma searchEntry_child_of_level1_node_witness :
  exists i,
    searchEntry 1 7 4 [] twoLevelIndex =
      (Ok (NonLeaf.pageNoArray (nonLeafAt twoLevelIndex 4) i, [4]), twoLevelIndex).
Proof.
  destruct (searchEntry_child_of_level1_node twoLevelIndex 7 4 [] 0
              (nonLeafAt twoLevelIndex 4)) as (i & _ & _ & _ & H).
  - reflexivity.
  - vm_compute. reflexivity.
  - vm_compute. discriminate.
  - vm_compute. discriminate.
  - exists i. exact H.
Defined.

Lemma insertEntryInternal_into_node_with_room_witness :
  fst (insertEntryInternal 7 4 9 [] true twoLevelIndex) = Ok tt /\
  NonLeaf.numOccupied (insertEntryInternal_store 7 9 true (nonLeafAt twoLevelIndex 4)) = 2.
Proof.
  destruct (insertEntryInternal_into_node_with_room twoLevelIndex 7 4 9 [] true
              (nonLeafAt twoLevelIndex 4)) as (H1 & H2 & _).
  - vm_compute. reflexivity.
  - split; vm_compute; [discriminate|reflexivity].
  - intros i j Hi Hij Hj.
    change (NonLeaf.numOccupied (nonLeafAt twoLevelIndex 4)) with 1 in Hj. lia.
  - intros x Hx.
    change (NonLeaf.numOccupied (nonLeafAt twoLevelIndex 4)) with 1 in Hx.
    assert (x = 0) by lia. subst x. vm_compute. discriminate.
  - split; [rewrite H1; reflexivity|]. rewrite H2. reflexivity.
Defined.

Lemma scan_of_root_leaf_witness :
  fst (startScan 15 GTE 25 LTE (tensIndex 3)) = Ok tt /\
  fst (drain 10 (snd (startScan 15 GTE 25 LTE (tensIndex 3)))) = Ok [mkRid 1 20].
Proof.
  assert (E : fst (startScan 15 GTE 25 LTE (tensIndex 3)) = Ok tt)
    by (vm_compute; reflexivity).
  split; [exact E|].
  pose proof (scan_of_root_leaf (tensIndex 3) (tensLeaf 3) 15 GTE 25 LTE 10
                tensLeaf_rootLeaf) as H.
  cbn zeta in H. rewrite E in H. rewrite H.
  - reflexivity.
  - lia.
  - split; right; reflexivity.
  - cbn. lia.
Defined.

Lemma inserted_pair_is_found_by_scan_of_its_key_witness :
  fst (scanNext (snd (startScan 25 GTE 25 LTE
                        (snd (insertEntry 25 (mkRid 9 9) (tensIndex 3)))))) =
  Ok (mkRid 9 9).
Proof.
  apply (inserted_pair_is_found_by_scan_of_its_key (tensIndex 3) 25 (mkRid 9 9) 2 []
           (tensLeaf 3)).
  - vm_compute. reflexivity.
  - vm_compute. reflexivity.
  - cbn. lia.
  - intros i j Hi Hij Hj. cbn. lia.
  - left. reflexivity.
Defined.

Lemma scan_of_index_built_from_small_relation_witness :
  fst (BTreeIndex_new rawIndex zeroBufMgr None "relA" 0 INTEGER 4 4 threeTuples) = Ok tt /\
  exists sorted : list (Z * RecordId),
    Permutation sorted threeTuples /\ StronglySorted keyOrder sorted /\
    fst (drain 10 (snd (startScan 10 GTE 20 LTE indexOfThreeTuples))) =
      Ok (ridsInRange 10 GTE 20 LTE sorted).
Proof.
  destruct (scan_of_index_built_from_small_relation rawIndex zeroBufMgr "relA" 0 INTEGER
              4 4 threeTuples 10 GTE 20 LTE 10) as (H1 & sorted & H2 & H3 & H4).
  - exact threeTuples_distinct.
  - cbn. lia.
  - lia.
  - split; right; reflexivity.
  - cbn. lia.
  - split; [exact H1|]. exists sorted. split; [exact H2|]. split; [exact H3|].
    change (fst (startScan 10 GTE 20 LTE
                   (snd (BTreeIndex_new rawIndex zeroBufMgr None "relA" 0 INTEGER 4 4
                           threeTuples)))) with (@Ok unit tt) in H4.
    exact H4.
Defined.

Lemma intScan_of_index_built_from_small_relation_witness :
  fst (intScan 10 allRecords 10 GTE 20 LTE indexOfThreeTuples) = Ok 2 /\
  scanExecuting (snd (intScan 10 allRecords 10 GTE 20 LTE indexOfThreeTuples)) = false.
Proof.
  destruct (intScan_of_index_built_from_small_relation rawIndex zeroBufMgr "relA" 0 INTEGER
              4 4 threeTuples allRecords 10 GTE 20 LTE 10) as (_ & H2 & H3).
  - exact threeTuples_distinct.
  - cbn. lia.
  - lia.
  - split; right; reflexivity.
  - intros e He. reflexivity.
  - cbn. lia.
  - unfold indexOfThreeTuples. split; [rewrite H2; reflexivity|exact H3].
Defined.


(** The index over the three tuples 30, 10, 20 at the leaf capacity 4: the
    scan of [10, 20] returns the record ids of 10 and 20, the driver counts
    the two, the scan of [21, 29] raises [NoSuchKeyFound] and the driver
    returns 0. *)
Example scans_of_three_tuples :
  fst (scanRange 10 GTE 20 LTE indexOfThreeTuples) = Ok [ridOf 10; ridOf 20] /\
  fst (intScan 10 allRecords 10 GTE 20 LTE indexOfThreeTuples) = Ok 2 /\
  fst (startScan 21 GTE 29 LTE indexOfThreeTuples) = Throw NoSuchKeyFoundException /\
  fst (intScan 10 allRecords 21 GTE 29 LTE indexOfThreeTuples) = Ok 0.
Proof. vm_compute. repeat split; reflexivity. Qed.

(** * The index below one root

    The properties below follow the tree from the first split of the root
    leaf up to the first split of the root: what the insertion does to a
    root directly above its leaves, how the scan follows the chain of the
    leaves, and how constructor, insertion and scan compose on a relation
    that the leaves below one root can hold. *)

(** ** The shape of a tree of two levels *)

Section TwoLevelFacts.
Variables (s : BTreeIndex) (n : NonLeaf.t) (child : Z -> Leaf.t).
Hypothesis HT : twoLevel s n child.
Hypothesis HL : 3 <= leafOccupancy s.

Lemma tl_cap : 2 <= capacityOf (leafOccupancy s).
Proof. pose proof (capacityOf_bounds (leafOccupancy s) ltac:(lia)). lia. Qed.

Lemma tl_nonempty (i : Z) :
  0 <= i <= NonLeaf.numOccupied n -> 2 <= Leaf.numOccupied (child i).
Proof. intros Hi. pose proof (tl_fill _ _ _ HT i Hi). pose proof tl_cap. lia. Qed.

Lemma tl_child_not_root (i : Z) :
  0 <= i <= NonLeaf.numOccupied n -> NonLeaf.pageNoArray n i <> rootPageNum s.
Proof.
  intros Hi E. pose proof (tl_child _ _ _ HT i Hi) as H1.
  rewrite E, (tl_root _ _ _ HT) in H1. discriminate.
Qed.

Lemma tl_child_numbered (i : Z) :
  0 <= i <= NonLeaf.numOccupied n ->
  1 <= NonLeaf.pageNoArray n i < nextPageNo (bufMgr s).
Proof.
  intros Hi. pose proof (tl_child _ _ _ HT i Hi) as H1.
  assert (H2 : is_Some (pages (bufMgr s) !! NonLeaf.pageNoArray n i)) by (eexists; exact H1).
  apply (tl_numbered _ _ _ HT) in H2. unfold nextPageNo. lia.
Qed.

Lemma tl_root_numbered : 1 <= rootPageNum s < nextPageNo (bufMgr s).
Proof.
  assert (H2 : is_Some (pages (bufMgr s) !! rootPageNum s))
    by (eexists; exact (tl_root _ _ _ HT)).
  apply (tl_numbered _ _ _ HT) in H2. unfold nextPageNo. lia.
Qed.

(** Keys in leaf order: a key of a leaf is below the separator on its
    right and not below the separator on its left. *)
Lemma tl_key_below (i x : Z) :
  0 <= i < NonLeaf.numOccupied n -> 0 <= x < Leaf.numOccupied (child i) ->
  Leaf.keyArray (child i) x < NonLeaf.keyArray n i.
Proof.
  intros Hi Hx. pose proof (tl_below _ _ _ HT i Hi).
  pose proof (ascending_le _ _ x (Leaf.numOccupied (child i) - 1)
                (tl_ascending _ _ _ HT i ltac:(lia)) ltac:(lia) ltac:(lia) ltac:(lia)).
  lia.
Qed.

Lemma tl_key_above (i x : Z) :
  0 < i <= NonLeaf.numOccupied n -> 0 <= x < Leaf.numOccupied (child i) ->
  NonLeaf.keyArray n (i - 1) <= Leaf.keyArray (child i) x.
Proof.
  intros Hi Hx. pose proof (tl_separator _ _ _ HT (i - 1) ltac:(lia)) as H.
  replace (i - 1 + 1) with i in H by lia. rewrite H.
  apply (ascending_le _ (Leaf.numOccupied (child i))); try lia.
  apply (tl_ascending _ _ _ HT). lia.
Qed.

Lemma tl_keys_le (i j : Z) :
  0 <= i -> i <= j -> j < NonLeaf.numOccupied n ->
  NonLeaf.keyArray n i <= NonLeaf.keyArray n j.
Proof. intros. apply (ascending_le _ (NonLeaf.numOccupied n)); try lia. apply (tl_keys _ _ _ HT). Qed.

Lemma tl_order (i j x y : Z) :
  0 <= i -> i < j -> j <= NonLeaf.numOccupied n ->
  0 <= x < Leaf.numOccupied (child i) -> 0 <= y < Leaf.numOccupied (child j) ->
  Leaf.keyArray (child i) x < Leaf.keyArray (child j) y.
Proof.
  intros Hi Hij Hj Hx Hy.
  pose proof (tl_key_below i x ltac:(lia) Hx).
  pose proof (tl_key_above j y ltac:(lia) Hy).
  pose proof (tl_keys_le i (j - 1) ltac:(lia) ltac:(lia) ltac:(lia)). lia.
Qed.

(** The descent on a tree of two levels. *)
Lemma searchEntry_two_level (key : Z) :
  exists i, 0 <= i <= NonLeaf.numOccupied n /\
    (forall x, 0 <= x < i -> NonLeaf.keyArray n x < key) /\
    (i < NonLeaf.numOccupied n -> key <= NonLeaf.keyArray n i) /\
    searchEntry (descentFuel s) key (rootPageNum s) [] s =
      (Ok (NonLeaf.pageNoArray n i, [rootPageNum s]), s).
Proof.
  pose proof (tl_count _ _ _ HT) as HN.
  destruct (searchEntry_loop_spec key n (Z.to_nat (NonLeaf.numOccupied n)) 0)
    as (E1 & E2 & E3); try lia.
  exists (searchEntry_loop (Z.to_nat (NonLeaf.numOccupied n)) key n 0).
  split; [exact E1|]. split; [exact E2|]. split; [exact E3|].
  unfold descentFuel. cbn [searchEntry]. unfold readNonLeaf, readPage. run.
  rewrite (tl_flag _ _ _ HT), (tl_root _ _ _ HT). st_simpl.
  rewrite (proj2 (Z.eqb_neq _ _) (tl_level _ _ _ HT)). reflexivity.
Qed.

End TwoLevelFacts.

(** ** The entries of a chain of leaves *)

Lemma leafEntries_app (child : Z -> Leaf.t) (a m1 m2 : nat) :
  leafEntries child a (m1 + m2) = leafEntries child a m1 ++ leafEntries child (a + m1) m2.
Proof. unfold leafEntries. rewrite seq_app, flat_map_app. reflexivity. Qed.

Lemma leafEntries_one (child : Z -> Leaf.t) (a : nat) :
  leafEntries child a 1 = entriesOf (child (Z.of_nat a)).
Proof. unfold leafEntries. cbn. apply app_nil_r. Qed.

Lemma leafEntries_cons (child : Z -> Leaf.t) (a m : nat) :
  leafEntries child a (S m) = entriesOf (child (Z.of_nat a)) ++ leafEntries child (S a) m.
Proof. reflexivity. Qed.

Lemma leafEntries_ext (child child' : Z -> Leaf.t) : forall (m a : nat),
  (forall j, (a <= j < a + m)%nat -> child' (Z.of_nat j) = child (Z.of_nat j)) ->
  leafEntries child' a m = leafEntries child a m.
Proof.
  induction m as [|m IH]; intros a H; [reflexivity|].
  rewrite !leafEntries_cons, H by lia. f_equal. apply IH. intros j Hj. apply H. lia.
Qed.

Lemma leafEntries_shift (child child' : Z -> Leaf.t) : forall (m a : nat),
  (forall j, (a <= j < a + m)%nat -> child' (Z.of_nat (S j)) = child (Z.of_nat j)) ->
  leafEntries child' (S a) m = leafEntries child a m.
Proof.
  induction m as [|m IH]; intros a H; [reflexivity|].
  rewrite !leafEntries_cons, H by lia. f_equal. apply IH. intros j Hj. apply H. lia.
Qed.

Lemma in_leafEntries (child : Z -> Leaf.t) (e : Z * RecordId) : forall (m a : nat),
  In e (leafEntries child a m) ->
  exists (j : nat) (x : nat), (a <= j < a + m)%nat /\
    (x < Z.to_nat (Leaf.numOccupied (child (Z.of_nat j))))%nat /\
    e = entryAt (child (Z.of_nat j)) x.
Proof.
  induction m as [|m IH]; intros a H; [destruct H|].
  rewrite leafEntries_cons in H. apply in_app_or in H. destruct H as [H|H].
  - apply in_entries in H. destruct H as (x & Hx & ->).
    exists a, x. split; [lia|]. split; [lia|reflexivity].
  - destruct (IH _ H) as (j & x & Hj & Hx & ->). exists j, x. split; [lia|]. split; [lia|reflexivity].
Qed.

Lemma leafEntries_in (child : Z -> Leaf.t) (j x : Z) : forall (m a : nat),
  Z.of_nat a <= j < Z.of_nat a + Z.of_nat m ->
  0 <= x < Leaf.numOccupied (child j) ->
  In (Leaf.keyArray (child j) x, Leaf.ridArray (child j) x) (leafEntries child a m).
Proof.
  induction m as [|m IH]; intros a Hj Hx; [lia|].
  rewrite leafEntries_cons. apply in_or_app.
  destruct (Z.eq_dec j (Z.of_nat a)) as [->|Hne].
  - left. apply in_entriesOf. exact Hx.
  - right. apply IH; lia.
Qed.

Lemma leafEntries_length_ge (child : Z -> Leaf.t) (c : Z) : forall (m a : nat),
  (forall j, (a <= j < a + m)%nat -> c <= Leaf.numOccupied (child (Z.of_nat j))) ->
  0 <= c ->
  Z.of_nat m * c <= Z.of_nat (length (leafEntries child a m)).
Proof.
  induction m as [|m IH]; intros a H Hc; [cbn; lia|].
  rewrite leafEntries_cons, length_app, entriesOf_length.
  specialize (IH (S a) ltac:(intros j Hj; apply H; lia) Hc).
  specialize (H a ltac:(lia)). nia.
Qed.

Lemma StronglySorted_app {A : Type} (R : A -> A -> Prop) (l1 l2 : list A) :
  StronglySorted R l1 -> StronglySorted R l2 ->
  (forall a b, In a l1 -> In b l2 -> R a b) ->
  StronglySorted R (l1 ++ l2).
Proof.
  induction l1 as [|x l1 IH]; intros H1 H2 H; [exact H2|].
  cbn. inversion H1 as [|? ? Hs Hf]; subst. constructor.
  - apply IH; [assumption|assumption|]. intros a b Ha Hb. apply H; [right; exact Ha|exact Hb].
  - apply List.Forall_forall. intros b Hb. apply in_app_or in Hb. destruct Hb as [Hb|Hb].
    + rewrite List.Forall_forall in Hf. apply Hf. exact Hb.
    + apply H; [left; reflexivity|exact Hb].
Qed.

Lemma allEntries_sorted (s : BTreeIndex) (n : NonLeaf.t) (child : Z -> Leaf.t) :
  twoLevel s n child ->
  StronglySorted keyOrder (allEntries n child).
Proof.
  intros HT. unfold allEntries.
  pose proof (tl_count _ _ _ HT) as HN.
  assert (H : forall (m a : nat), Z.of_nat a + Z.of_nat m = NonLeaf.numOccupied n + 1 ->
            StronglySorted keyOrder (leafEntries child a m)).
  { induction m as [|m IH]; intros a Ha; [constructor|].
    rewrite leafEntries_cons. apply StronglySorted_app.
    - apply entriesOf_sorted. apply (tl_ascending _ _ _ HT). lia.
    - apply IH. lia.
    - intros e1 e2 H1 H2. apply in_entries in H1. destruct H1 as (x & Hx & ->).
      apply in_leafEntries in H2. destruct H2 as (j & y & Hj & Hy & ->).
      unfold keyOrder, entryAt. cbn [fst].
      apply (tl_order s n child HT); lia. }
  apply H. lia.
Qed.

(** The keys of the tree are pairwise distinct from a key that is not an
    entry. *)
Lemma tl_new_key (s : BTreeIndex) (n : NonLeaf.t) (child : Z -> Leaf.t) (k : Z) :
  twoLevel s n child ->
  ~ In k (map fst (allEntries n child)) ->
  forall j x, 0 <= j <= NonLeaf.numOccupied n -> 0 <= x < Leaf.numOccupied (child j) ->
  Leaf.keyArray (child j) x <> k.
Proof.
  intros HT Hnew j x Hj Hx E. apply Hnew. apply in_map_iff.
  exists (Leaf.keyArray (child j) x, Leaf.ridArray (child j) x). split; [exact E|].
  apply leafEntries_in; lia.
Qed.

(** A write to a page of the file keeps the numbering of the pages. *)
Lemma pagesNumbered_write (s : BTreeIndex) (pageNo : PageId) (old new : Page) :
  pagesNumbered s ->
  pages (bufMgr s) !! pageNo = Some old ->
  pagesNumbered (set_bufMgr (set_pages (<[pageNo := new]> (pages (bufMgr s))) (bufMgr s)) s).
Proof.
  intros Hnum Hold p. st_simpl.
  rewrite map_size_insert_Some by (eexists; exact Hold).
  rewrite <- (Hnum p).
  destruct (Z.eq_dec p pageNo) as [->|Hne].
  - rewrite lookup_insert_eq, Hold. split; intros _; eexists; reflexivity.
  - rewrite lookup_insert_ne by congruence. reflexivity.
Qed.

(** The three parts of the chain around the leaf [i]. *)
Lemma allEntries_around (n : NonLeaf.t) (child : Z -> Leaf.t) (i : Z) :
  0 <= i <= NonLeaf.numOccupied n ->
  allEntries n child =
    leafEntries child 0 (Z.to_nat i) ++ entriesOf (child i) ++
    leafEntries child (S (Z.to_nat i)) (Z.to_nat (NonLeaf.numOccupied n - i)).
Proof.
  intros Hi. unfold allEntries.
  replace (Z.to_nat (NonLeaf.numOccupied n + 1))
    with (Z.to_nat i + S (Z.to_nat (NonLeaf.numOccupied n - i)))%nat by lia.
  rewrite leafEntries_app, leafEntries_cons. cbn [Nat.add].
  rewrite Z2Nat.id by lia. reflexivity.
Qed.

Lemma insert_room_two_level (s : BTreeIndex) (n : NonLeaf.t) (child : Z -> Leaf.t)
    (k : Z) (rid : RecordId) (i : Z) :
  twoLevel s n child ->
  3 <= leafOccupancy s ->
  ~ In k (map fst (allEntries n child)) ->
  0 <= i <= NonLeaf.numOccupied n ->
  (forall x, 0 <= x < i -> NonLeaf.keyArray n x < k) ->
  (i < NonLeaf.numOccupied n -> k <= NonLeaf.keyArray n i) ->
  Leaf.numOccupied (child i) < leafOccupancy s ->
  let l' := insertEntryLeaf_store k rid (child i) in
  let child' := fun j => if j =? i then l' else child j in
  let s' := set_bufMgr (set_pages (<[NonLeaf.pageNoArray n i := LeafPage l']>
                                     (pages (bufMgr s))) (bufMgr s)) s in
  twoLevel s' n child' /\
  Permutation (allEntries n child') ((k, rid) :: allEntries n child).
Proof.
  intros HT HL Hnew Hi Hlo Hhi Hroom. cbn zeta.
  pose proof (tl_nonempty s n child HT HL i Hi) as Hne.
  pose proof (tl_new_key s n child k HT Hnew) as Hkeys.
  destruct (insertEntryLeaf_store_new_key k rid (child i) ltac:(lia)
              (tl_ascending _ _ _ HT i Hi) (fun x => Hkeys i x Hi))
    as (E1 & E2 & E3 & p & Hp & EK & ER).
  cbn zeta in *.
  set (l := child i) in *. set (l' := insertEntryLeaf_store k rid l) in *.
  (* the incoming key is above the first key of a leaf that is not the leftmost *)
  assert (Hfirst : 0 < i -> Leaf.keyArray l' 0 = Leaf.keyArray l 0).
  { intros Hpos.
    pose proof (tl_separator _ _ _ HT (i - 1) ltac:(lia)) as Hsep.
    replace (i - 1 + 1) with i in Hsep by lia. fold l in Hsep.
    pose proof (Hlo (i - 1) ltac:(lia)) as Hk.
    assert (Hp0 : p <> 0).
    { intros ->. pose proof (EK 0) as E0. rewrite Z.eqb_refl in E0.
      pose proof (E3 0 1 ltac:(lia) ltac:(lia) ltac:(lia)) as Hasc.
      rewrite E0, (EK 1) in Hasc. unfold shifted in Hasc. revert Hasc.
      zcases; simpl; try lia.
      intros Hasc. replace (1 - 1) with 0 in Hasc by lia. lia. }
    rewrite EK. arr. }
  assert (Hlast : i < NonLeaf.numOccupied n ->
                  Leaf.keyArray l' (Leaf.numOccupied l) < NonLeaf.keyArray n i).
  { intros Hlt. pose proof (tl_below _ _ _ HT i ltac:(lia)) as Hb. fold l in Hb.
    pose proof (tl_separator _ _ _ HT i ltac:(lia)) as Hsep.
    pose proof (Hkeys (i + 1) 0 ltac:(lia)
                  ltac:(pose proof (tl_nonempty s n child HT HL (i + 1)); lia)) as Hk.
    specialize (Hhi Hlt).
    rewrite EK. unfold shifted. zcases; simpl; lia. }
  split.
  - constructor; st_simpl.
    + apply (tl_flag _ _ _ HT).
    + rewrite lookup_insert_ne by (apply (tl_child_not_root s n child HT); lia).
      apply (tl_root _ _ _ HT).
    + apply (tl_level _ _ _ HT).
    + apply (tl_count _ _ _ HT).
    + apply (tl_keys _ _ _ HT).
    + intros j Hj. destruct (Z.eqb_spec j i) as [->|Hne'].
      * apply lookup_insert_eq.
      * rewrite lookup_insert_ne; [apply (tl_child _ _ _ HT); lia|].
        destruct (Z_lt_le_dec i j); [apply (tl_distinct _ _ _ HT)|
                                     apply not_eq_sym, (tl_distinct _ _ _ HT)]; lia.
    + apply (tl_distinct _ _ _ HT).
    + intros j Hj. destruct (Z.eqb_spec j i) as [->|Hne'].
      * pose proof (tl_fill _ _ _ HT i Hi). fold l in H. lia.
      * apply (tl_fill _ _ _ HT); lia.
    + intros j Hj. destruct (Z.eqb_spec j i) as [->|Hne'].
      * rewrite E1. exact E3.
      * apply (tl_ascending _ _ _ HT); lia.
    + intros j Hj. destruct (Z.eqb_spec (j + 1) i) as [Heq|Hne'].
      * rewrite Hfirst by lia. subst i. apply (tl_separator _ _ _ HT). lia.
      * apply (tl_separator _ _ _ HT); lia.
    + intros j Hj. destruct (Z.eqb_spec j i) as [->|Hne'].
      * rewrite E1. replace (Leaf.numOccupied l + 1 - 1) with (Leaf.numOccupied l) by lia.
        apply Hlast. lia.
      * apply (tl_below _ _ _ HT); lia.
    + intros j Hj. destruct (Z.eqb_spec j i) as [->|Hne'].
      * rewrite E2. apply (tl_sibling _ _ _ HT). lia.
      * apply (tl_sibling _ _ _ HT); lia.
    + destruct (Z.eqb_spec (NonLeaf.numOccupied n) i) as [Heq|Hne'].
      * rewrite E2. unfold l. rewrite <- Heq. apply (tl_last _ _ _ HT).
      * apply (tl_last _ _ _ HT).
    + apply (pagesNumbered_write s _ (LeafPage l)); [apply (tl_numbered _ _ _ HT)|].
      apply (tl_child _ _ _ HT). lia.
  - rewrite (allEntries_around n _ i Hi), (allEntries_around n child i Hi).
    rewrite Z.eqb_refl.
    rewrite (leafEntries_ext child) by (intros j Hj; destruct (Z.eqb_spec (Z.of_nat j) i); [lia|reflexivity]).
    rewrite (leafEntries_ext child _ _ (S (Z.to_nat i)))
      by (intros j Hj; destruct (Z.eqb_spec (Z.of_nat j) i); [lia|reflexivity]).
    fold l.
    symmetry.
    etransitivity; [apply Permutation_middle|].
    apply Permutation_app_head.
    change ((k, rid) :: entriesOf l ++ ?r) with (((k, rid) :: entriesOf l) ++ r).
    apply Permutation_app_tail. symmetry.
    apply (entriesOf_store k rid l l' p); assumption.
Qed.

(** ** The split of a leaf below a root that has room *)

(** The first part of [splitLeaf] on the page store. *)
Lemma splitLeaf_pages_run (s : BTreeIndex) (pageNo : PageId) (l : Leaf.t)
    (k : Z) (rid : RecordId) :
  pages (bufMgr s) !! pageNo = Some (LeafPage l) ->
  let new := nextPageNo (bufMgr s) in
  let junk := undefLeaf (bufMgr s) new in
  let r := splitLeaf_nodes (leafOccupancy s) k rid new l junk in
  splitLeaf_pages k rid pageNo s =
    (Ok (new, snd r),
     set_bufMgr
       (set_pages
          (<[new := LeafPage (snd (fst r))]>
             (<[pageNo := LeafPage (fst (fst r))]>
                (<[new := LeafPage junk]> (pages (bufMgr s)))))
          (bufMgr s)) s).
Proof.
  intros Hpage. cbn zeta.
  unfold splitLeaf_pages, readLeaf, readPage, bind, allocLeaf, get, writePage, modify, ret.
  rewrite Hpage. reflexivity.
Qed.

(** [insertEntry] when the descent ends at a full leaf directly below the
    root and the root takes the separator. *)
Lemma insertEntry_split_run (s : BTreeIndex) (root pageNo : PageId) (l : Leaf.t)
    (n : NonLeaf.t) (k : Z) (rid : RecordId) :
  searchEntry (descentFuel s) k (rootPageNum s) [] s = (Ok (pageNo, [root]), s) ->
  pages (bufMgr s) !! pageNo = Some (LeafPage l) ->
  pages (bufMgr s) !! root = Some (NonLeafPage n) ->
  root <> nextPageNo (bufMgr s) ->
  leafOccupancy s <= Leaf.numOccupied l ->
  NonLeaf.numOccupied n <= nodeOccupancy s ->
  let new := nextPageNo (bufMgr s) in
  let junk := undefLeaf (bufMgr s) new in
  let r := splitLeaf_nodes (leafOccupancy s) k rid new l junk in
  insertEntry k rid s =
    (Ok tt,
     set_bufMgr
       (set_pages
          (<[root := NonLeafPage (insertEntryInternal_store (snd r) new true n)]>
             (<[new := LeafPage (snd (fst r))]>
                (<[pageNo := LeafPage (fst (fst r))]>
                   (<[new := LeafPage junk]> (pages (bufMgr s))))))
          (bufMgr s)) s).
Proof.
  intros Hsearch Hpage Hroot Hfresh Hfull Hroom. cbn zeta.
  assert (Hne : root <> pageNo).
  { intros E. rewrite E, Hpage in Hroot. discriminate. }
  rewrite (insertEntry_unfold k rid s pageNo [root]) by (rewrite Hsearch; reflexivity).
  unfold insertEntryLeaf. unfold bind at 1. unfold readLeaf, readPage.
  unfold bind at 1. rewrite Hpage. unfold ret at 1. unfold bind at 1. unfold get at 1.
  rewrite Z.geb_leb, (proj2 (Z.leb_le _ _) Hfull).
  unfold splitLeaf. unfold bind at 1.
  rewrite (splitLeaf_pages_run s pageNo l k rid Hpage). cbn [fst snd].
  unfold insertEntryInternal. cbn [length insertEntryInternal_fuel].
  unfold readNonLeaf, readPage. run.
  rewrite lookup_insert_ne by congruence.
  rewrite lookup_insert_ne by congruence.
  rewrite lookup_insert_ne by congruence.
  rewrite Hroot. st_simpl.
  rewrite Z.gtb_ltb, (proj2 (Z.ltb_ge _ _)) by lia.
  unfold writePage. run. reflexivity.
Qed.

Lemma map_seq_from {A : Type} (f : nat -> A) : forall (m a : nat),
  map f (seq a m) = map (fun y => f (a + y)%nat) (seq 0 m).
Proof.
  induction m as [|m IH]; intros a; [reflexivity|].
  cbn [seq map]. rewrite Nat.add_0_r. f_equal.
  rewrite IH, <- seq_shift, map_map. apply map_ext. intros y. f_equal. lia.
Qed.

(** The two leaves of a split hold the entries of the old leaf and the new
    pair. *)
Lemma split_entries (M key : Z) (rid : RecordId) (l L1 L2 : Leaf.t) (p cap : Z) :
  Leaf.numOccupied l = M -> 0 <= p <= M -> 0 <= cap <= M + 1 ->
  Leaf.numOccupied L1 = cap ->
  Leaf.numOccupied L2 = M + 1 - cap ->
  (forall x, 0 <= x < cap ->
     Leaf.keyArray L1 x = mergedK M key (Leaf.keyArray l) p x /\
     Leaf.ridArray L1 x = mergedR M rid (Leaf.ridArray l) p x) ->
  (forall y, 0 <= y < M + 1 - cap ->
     Leaf.keyArray L2 y = mergedK M key (Leaf.keyArray l) p (cap + y) /\
     Leaf.ridArray L2 y = mergedR M rid (Leaf.ridArray l) p (cap + y)) ->
  Permutation (entriesOf L1 ++ entriesOf L2) ((key, rid) :: entriesOf l).
Proof.
  intros HN Hp Hcap H1 H2 E1 E2.
  etransitivity; [|apply (entriesOf_store key rid l (mergedLeaf M key rid l p) p)].
  - rewrite (entriesOf_split (mergedLeaf M key rid l p) (Z.to_nat cap) (Z.to_nat (M + 1 - cap)))
      by (cbn; lia).
    apply Permutation_app.
    + unfold entriesOf. rewrite H1.
      erewrite map_ext_in; [reflexivity|].
      intros x Hx. apply in_seq in Hx. unfold entryAt.
      destruct (E1 (Z.of_nat x) ltac:(lia)) as [-> ->]. reflexivity.
    + unfold entriesOf. rewrite H2.
      rewrite (map_seq_from (entryAt (mergedLeaf M key rid l p))).
      erewrite map_ext_in; [reflexivity|].
      intros y Hy. apply in_seq in Hy. unfold entryAt.
      destruct (E2 (Z.of_nat y) ltac:(lia)) as [-> ->]. cbn.
      replace (Z.of_nat (Z.to_nat cap + y)) with (cap + Z.of_nat y) by lia. reflexivity.
  - lia.
  - cbn. lia.
  - intros x. cbn. rewrite HN. reflexivity.
  - intros x. cbn. rewrite HN. reflexivity.
Qed.

(** A key of the merged entries is the new key or a key of the old leaf. *)
Lemma mergedK_cases (M key : Z) (K0 : Z -> Z) (p x : Z) :
  0 <= p <= M -> 0 <= x <= M ->
  mergedK M key K0 p x = key \/ exists y, 0 <= y < M /\ mergedK M key K0 p x = K0 y.
Proof.
  intros Hp Hx. unfold mergedK, shifted.
  destruct (Z.eqb_spec x p); [left; reflexivity|]. right.
  destruct (Z.leb_spec (p + 1) x); destruct (Z.leb_spec x M); cbn [andb].
  - exists (x - 1). split; [lia|reflexivity].
  - lia.
  - exists x. split; [lia|reflexivity].
  - lia.
Qed.

(** A new page keeps the numbering of the pages. *)
Lemma pagesNumbered_alloc (s : BTreeIndex) (new : Page) :
  pagesNumbered s ->
  pagesNumbered (set_bufMgr (set_pages (<[nextPageNo (bufMgr s) := new]> (pages (bufMgr s)))
                               (bufMgr s)) s).
Proof.
  intros Hnum p. st_simpl.
  assert (Hfresh : pages (bufMgr s) !! nextPageNo (bufMgr s) = None).
  { destruct (pages (bufMgr s) !! nextPageNo (bufMgr s)) eqn:E; [|reflexivity].
    assert (H : is_Some (pages (bufMgr s) !! nextPageNo (bufMgr s))) by (eexists; exact E).
    apply Hnum in H. unfold nextPageNo in H. lia. }
  rewrite map_size_insert_None by exact Hfresh.
  destruct (Z.eq_dec p (nextPageNo (bufMgr s))) as [->|Hne].
  - rewrite lookup_insert_eq. unfold nextPageNo. split; [lia|]. intros _. eexists; reflexivity.
  - rewrite lookup_insert_ne by congruence. rewrite (Hnum p). unfold nextPageNo in Hne. lia.
Qed.

Lemma insert_split_two_level (s : BTreeIndex) (n : NonLeaf.t) (child : Z -> Leaf.t)
    (k : Z) (rid : RecordId) (i : Z) :
  twoLevel s n child ->
  3 <= leafOccupancy s ->
  ~ In k (map fst (allEntries n child)) ->
  0 <= i <= NonLeaf.numOccupied n ->
  (forall x, 0 <= x < i -> NonLeaf.keyArray n x < k) ->
  (i < NonLeaf.numOccupied n -> k <= NonLeaf.keyArray n i) ->
  Leaf.numOccupied (child i) = leafOccupancy s ->
  NonLeaf.numOccupied n < nodeOccupancy s ->
  let new := nextPageNo (bufMgr s) in
  let r := splitLeaf_nodes (leafOccupancy s) k rid new (child i) (undefLeaf (bufMgr s) new) in
  let n' := insertEntryInternal_store (snd r) new true n in
  let child' := splitChild child i (fst (fst r)) (snd (fst r)) in
  let s' := set_bufMgr
              (set_pages
                 (<[rootPageNum s := NonLeafPage n']>
                    (<[new := LeafPage (snd (fst r))]>
                       (<[NonLeaf.pageNoArray n i := LeafPage (fst (fst r))]>
                          (<[new := LeafPage (undefLeaf (bufMgr s) new)]>
                             (pages (bufMgr s))))))
                 (bufMgr s)) s in
  twoLevel s' n' child' /\
  Permutation (allEntries n' child') ((k, rid) :: allEntries n child).
Proof.
  intros HT HL Hnew Hi Hlo Hhi Hfull Hroom. cbn zeta.
  pose proof (tl_new_key s n child k HT Hnew) as Hkeys.
  pose proof (tl_count _ _ _ HT) as HN.
  set (M := leafOccupancy s) in *.
  set (l := child i) in *.
  set (new := nextPageNo (bufMgr s)).
  pose proof (capacityOf_bounds M ltac:(lia)) as Hcap.
  set (cap := capacityOf M) in *.
  (* the slot of the key in the leaf *)
  destruct (slot_exists (Leaf.keyArray l) k (Z.to_nat M)) as (pl & Hpl & Hpl_lo & Hpl_hi).
  { rewrite Z2Nat.id by lia. rewrite <- Hfull. apply (tl_ascending _ _ _ HT). lia. }
  { rewrite Z2Nat.id by lia. intros x Hx. apply (Hkeys i x Hi). fold l. lia. }
  rewrite Z2Nat.id in Hpl, Hpl_hi by lia.
  pose proof (splitLeaf_nodes_spec M k rid new l (undefLeaf (bufMgr s) new) pl
                HL Hfull Hpl Hpl_lo Hpl_hi) as Hspec.
  cbn zeta in Hspec. fold cap in Hspec.
  set (r := splitLeaf_nodes M k rid new l (undefLeaf (bufMgr s) new)) in *.
  set (L1 := fst (fst r)) in *. set (L2 := snd (fst r)) in *.
  destruct Hspec as (S1 & S2 & S3 & S4 & S5 & S6 & S7).
  assert (Hasc_l : ascending (Leaf.keyArray l) M).
  { rewrite <- Hfull. apply (tl_ascending _ _ _ HT). lia. }
  pose proof (mergedK_ascending M k (Leaf.keyArray l) pl Hpl Hasc_l Hpl_lo Hpl_hi) as Hmk.
  set (mk := mergedK M k (Leaf.keyArray l) pl) in *.
  (* the merged keys lie between the separators around the leaf *)
  assert (Hk_hi : i < NonLeaf.numOccupied n -> k < NonLeaf.keyArray n i).
  { intros Hlt. specialize (Hhi Hlt).
    pose proof (tl_separator _ _ _ HT i ltac:(lia)) as Hsep.
    pose proof (Hkeys (i + 1) 0 ltac:(lia)
                  ltac:(pose proof (tl_nonempty s n child HT HL (i + 1)); lia)).
    lia. }
  assert (Hm_hi : i < NonLeaf.numOccupied n -> forall x, 0 <= x <= M ->
                  mk x < NonLeaf.keyArray n i).
  { intros Hlt x Hx.
    destruct (mergedK_cases M k (Leaf.keyArray l) pl x Hpl Hx) as [E|(y & Hy & E)];
      fold mk in E; rewrite E.
    - apply Hk_hi. exact Hlt.
    - apply (tl_key_below s n child HT); fold l; lia. }
  assert (Hm_0 : 0 < i -> mk 0 = NonLeaf.keyArray n (i - 1)).
  { intros Hpos.
    pose proof (tl_separator _ _ _ HT (i - 1) ltac:(lia)) as Hsep.
    replace (i - 1 + 1) with i in Hsep by lia. fold l in Hsep.
    pose proof (Hlo (i - 1) ltac:(lia)) as Hk.
    assert (Hp0 : 0 < pl).
    { destruct (Z.eq_dec pl 0) as [->|]; [|lia]. specialize (Hpl_hi 0). lia. }
    unfold mk. rewrite mergedK_below by lia. symmetry. exact Hsep. }
  assert (Hm_lo : 0 < i -> forall x, 0 < x <= M -> NonLeaf.keyArray n (i - 1) < mk x).
  { intros Hpos x Hx. rewrite <- (Hm_0 Hpos). apply Hmk; lia. }
  (* the separator and its slot in the root *)
  assert (Hsep : snd r = mk cap).
  { rewrite S7. destruct (S4 0 ltac:(lia)) as [E _]. rewrite E. f_equal. lia. }
  assert (Hsep_lo : forall x, 0 <= x < i -> NonLeaf.keyArray n x < mk cap).
  { intros x Hx. pose proof (Hm_lo ltac:(lia) cap ltac:(lia)).
    pose proof (tl_keys_le s n child HT x (i - 1) ltac:(lia) ltac:(lia) ltac:(lia)). lia. }
  assert (Hsep_hi : forall x, i <= x < NonLeaf.numOccupied n -> mk cap < NonLeaf.keyArray n x).
  { intros x Hx. pose proof (Hm_hi ltac:(lia) cap ltac:(lia)).
    pose proof (tl_keys_le s n child HT i x ltac:(lia) ltac:(lia) ltac:(lia)). lia. }
  destruct (insertEntryInternal_store_spec (snd r) new true n i) as (N1 & N2 & NK & NC).
  { lia. }
  { rewrite Hsep. split.
    - intros x Hx. specialize (Hsep_hi x). lia.
    - intros Hpos. apply Hsep_lo. lia. }
  set (n' := insertEntryInternal_store (snd r) new true n) in *.
  rewrite Hsep in NK.
  assert (NK' : forall x, NonLeaf.keyArray n' x =
                          mergedK (NonLeaf.numOccupied n) (mk cap) (NonLeaf.keyArray n) i x).
  { intros x. rewrite NK. reflexivity. }
  pose proof (mergedK_ascending (NonLeaf.numOccupied n) (mk cap) (NonLeaf.keyArray n) i
                Hi (tl_keys _ _ _ HT) Hsep_lo Hsep_hi) as Hasc_n'.
  (* the pages *)
  pose proof (tl_root_numbered s n child HT) as Hroot_num.
  assert (Hchild_num : forall j, 0 <= j <= NonLeaf.numOccupied n ->
            1 <= NonLeaf.pageNoArray n j < new /\
            NonLeaf.pageNoArray n j <> rootPageNum s).
  { intros j Hj. split; [apply (tl_child_numbered s n child HT j Hj)|].
    apply (tl_child_not_root s n child HT j Hj). }
  assert (Hdist : forall a b, 0 <= a <= NonLeaf.numOccupied n ->
            0 <= b <= NonLeaf.numOccupied n -> a <> b ->
            NonLeaf.pageNoArray n a <> NonLeaf.pageNoArray n b).
  { intros a b Ha Hb Hab. destruct (Z_lt_le_dec a b).
    - apply (tl_distinct _ _ _ HT); lia.
    - apply not_eq_sym, (tl_distinct _ _ _ HT); lia. }
  assert (HC : forall x, 0 <= x <= NonLeaf.numOccupied n + 1 ->
            NonLeaf.pageNoArray n' x =
            if x <=? i then NonLeaf.pageNoArray n x
            else if x =? i + 1 then new else NonLeaf.pageNoArray n (x - 1)).
  { intros x Hx. rewrite NC. unfold shifted. zcases; simpl; try lia; reflexivity. }
  split.
  - constructor; st_simpl.
    + apply (tl_flag _ _ _ HT).
    + apply lookup_insert_eq.
    + rewrite N2. apply (tl_level _ _ _ HT).
    + lia.
    + rewrite N1. intros a b Ha Hab Hb. rewrite !NK'. apply Hasc_n'; lia.
    + (* children *)
      intros j Hj. rewrite N1 in Hj. rewrite HC by lia. unfold splitChild.
      destruct (Z.leb_spec j i) as [Hle|Hgt].
      * destruct (Hchild_num j ltac:(lia)) as [Hj1 Hj2].
        rewrite lookup_insert_ne by congruence.
        rewrite lookup_insert_ne by (fold new; lia).
        destruct (Z.ltb_spec j i) as [Hlt|Hge].
        -- rewrite lookup_insert_ne by (apply Hdist; lia).
           rewrite lookup_insert_ne by (fold new; lia).
           apply (tl_child _ _ _ HT). lia.
        -- assert (j = i) by lia. subst j. rewrite Z.eqb_refl. apply lookup_insert_eq.
      * destruct (Z.ltb_spec j i) as [|_]; [lia|].
        destruct (Z.eqb_spec j i) as [|_]; [lia|].
        destruct (Z.eqb_spec j (i + 1)) as [->|Hne].
        -- rewrite lookup_insert_ne by (fold new; lia). apply lookup_insert_eq.
        -- destruct (Hchild_num (j - 1) ltac:(lia)) as [Hj1 Hj2].
           rewrite lookup_insert_ne by congruence.
           rewrite lookup_insert_ne by (fold new; lia).
           rewrite lookup_insert_ne by (apply Hdist; lia).
           rewrite lookup_insert_ne by (fold new; lia).
           apply (tl_child _ _ _ HT). lia.
    + (* the children are distinct *)
      intros a b Ha Hab Hb. rewrite N1 in Hb. rewrite !HC by lia.
      destruct (Z.leb_spec a i) as [Ha1|Ha1].
      * destruct (Z.leb_spec b i) as [Hb1|Hb1]; [apply Hdist; lia|].
        destruct (Z.eqb_spec b (i + 1)) as [Hb2|Hb2].
        -- destruct (Hchild_num a ltac:(lia)) as [Hn _]. lia.
        -- apply Hdist; lia.
      * destruct (Z.leb_spec b i) as [Hb1|Hb1]; [lia|].
        destruct (Z.eqb_spec b (i + 1)) as [Hb2|Hb2]; [lia|].
        destruct (Z.eqb_spec a (i + 1)) as [Ha2|Ha2].
        -- destruct (Hchild_num (b - 1) ltac:(lia)) as [Hn _]. lia.
        -- apply Hdist; lia.
    + (* fill *)
      intros j Hj. rewrite N1 in Hj. unfold splitChild.
      pose proof (tl_fill _ _ _ HT j). pose proof (tl_fill _ _ _ HT (j - 1)).
      fold M cap in H, H0 |- *.
      zcases; fold L1 L2; lia.
    + (* keys of the leaves *)
      intros j Hj. rewrite N1 in Hj. unfold splitChild.
      destruct (Z.ltb_spec j i); [apply (tl_ascending _ _ _ HT); lia|].
      destruct (Z.eqb_spec j i).
      { fold L1. intros a b Ha Hab Hb. rewrite S1 in Hb.
        destruct (S3 a ltac:(lia)) as [-> _]. destruct (S3 b ltac:(lia)) as [-> _].
        apply Hmk; lia. }
      destruct (Z.eqb_spec j (i + 1)).
      { fold L2. intros a b Ha Hab Hb. rewrite S2 in Hb.
        destruct (S4 a ltac:(lia)) as [-> _]. destruct (S4 b ltac:(lia)) as [-> _].
        apply Hmk; lia. }
      apply (tl_ascending _ _ _ HT); lia.
    + (* separators *)
      intros j Hj. rewrite N1 in Hj. rewrite NK. unfold splitChild, shifted.
      destruct (Z.eqb_spec j i) as [->|Hne].
      { destruct (Z.ltb_spec (i + 1) i); [lia|].
        destruct (Z.eqb_spec (i + 1) i); [lia|]. rewrite Z.eqb_refl. fold L2.
        destruct (S4 0 ltac:(lia)) as [-> _]. f_equal. lia. }
      destruct (Z.ltb_spec (j + 1) i) as [Hlt|Hge].
      { destruct (Z.leb_spec (i + 1) j); [lia|]. cbn [andb].
        apply (tl_separator _ _ _ HT). lia. }
      destruct (Z.eqb_spec (j + 1) i) as [Heq|Hne2].
      { destruct (Z.leb_spec (i + 1) j); [lia|]. cbn [andb]. fold L1.
        destruct (S3 0 ltac:(lia)) as [-> _]. fold mk. rewrite Hm_0 by lia.
        f_equal. lia. }
      destruct (Z.eqb_spec (j + 1) (i + 1)); [lia|].
      destruct (Z.leb_spec (i + 1) j); [|lia].
      destruct (Z.leb_spec j (NonLeaf.numOccupied n)); [|lia]. cbn [andb].
      replace (j + 1 - 1) with (j - 1 + 1) by lia.
      apply (tl_separator _ _ _ HT). lia.
    + (* the last key of a leaf is below the separator on its right *)
      intros j Hj. rewrite N1 in Hj. rewrite NK. unfold splitChild, shifted.
      destruct (Z.ltb_spec j i) as [Hlt|Hge].
      { destruct (Z.eqb_spec j i); [lia|].
        destruct (Z.leb_spec (i + 1) j); [lia|]. cbn [andb].
        apply (tl_below _ _ _ HT). lia. }
      destruct (Z.eqb_spec j i) as [->|Hne].
      { fold L1. rewrite S1. destruct (S3 (cap - 1) ltac:(lia)) as [-> _].
        apply Hmk; lia. }
      destruct (Z.leb_spec (i + 1) j); [|lia].
      destruct (Z.leb_spec j (NonLeaf.numOccupied n)); [|lia]. cbn [andb].
      destruct (Z.eqb_spec j (i + 1)) as [->|Hne2].
      { fold L2. rewrite S2. destruct (S4 (M + 1 - cap - 1) ltac:(lia)) as [-> _].
        replace (i + 1 - 1) with i by lia. apply Hm_hi; lia. }
      apply (tl_below _ _ _ HT). lia.
    + (* the chain of the leaves *)
      intros j Hj. rewrite N1 in Hj. rewrite HC by lia. unfold splitChild.
      destruct (Z.ltb_spec j i) as [Hlt|Hge].
      { destruct (Z.leb_spec (j + 1) i); [|lia]. apply (tl_sibling _ _ _ HT). lia. }
      destruct (Z.leb_spec (j + 1) i); [lia|].
      destruct (Z.eqb_spec j i) as [->|Hne].
      { rewrite Z.eqb_refl. fold L1. exact S5. }
      destruct (Z.eqb_spec (j + 1) (i + 1)); [lia|].
      destruct (Z.eqb_spec j (i + 1)) as [->|Hne2].
      { fold L2. rewrite S6. replace (i + 1 + 1 - 1) with (i + 1) by lia.
        apply (tl_sibling _ _ _ HT). lia. }
      replace (j + 1 - 1) with (j - 1 + 1) by lia.
      apply (tl_sibling _ _ _ HT). lia.
    + (* the last leaf *)
      rewrite N1. unfold splitChild.
      destruct (Z.ltb_spec (NonLeaf.numOccupied n + 1) i); [lia|].
      destruct (Z.eqb_spec (NonLeaf.numOccupied n + 1) i); [lia|].
      destruct (Z.eqb_spec (NonLeaf.numOccupied n + 1) (i + 1)) as [Heq|Hne].
      * fold L2. rewrite S6. assert (i = NonLeaf.numOccupied n) by lia. subst i.
        apply (tl_last _ _ _ HT).
      * replace (NonLeaf.numOccupied n + 1 - 1) with (NonLeaf.numOccupied n) by lia.
        apply (tl_last _ _ _ HT).
    + (* the numbering of the pages *)
      pose proof (pagesNumbered_alloc s (LeafPage (undefLeaf (bufMgr s) new))
                    (tl_numbered _ _ _ HT)) as P1.
      fold new in P1.
      match type of P1 with pagesNumbered ?s1 =>
        pose proof (pagesNumbered_write s1 (NonLeaf.pageNoArray n i)
                      (LeafPage l) (LeafPage L1) P1) as P2
      end.
      st_simpl_in P2.
      specialize (P2 ltac:(rewrite lookup_insert_ne by (destruct (Hchild_num i Hi); lia);
                           apply (tl_child _ _ _ HT); lia)).
      match type of P2 with pagesNumbered ?s2 =>
        pose proof (pagesNumbered_write s2 new
                      (LeafPage (undefLeaf (bufMgr s) new)) (LeafPage L2) P2) as P3
      end.
      st_simpl_in P3.
      specialize (P3 ltac:(rewrite lookup_insert_ne by (destruct (Hchild_num i Hi); lia);
                           apply lookup_insert_eq)).
      match type of P3 with pagesNumbered ?s3 =>
        pose proof (pagesNumbered_write s3 (rootPageNum s)
                      (NonLeafPage n) (NonLeafPage n') P3) as P4
      end.
      st_simpl_in P4.
      apply P4.
      rewrite lookup_insert_ne by (fold new; lia).
      rewrite lookup_insert_ne by (destruct (Hchild_num i Hi); congruence).
      rewrite lookup_insert_ne by (fold new; lia).
      apply (tl_root _ _ _ HT).
  - (* the entries *)
    unfold allEntries at 1. rewrite N1.
    replace (Z.to_nat (NonLeaf.numOccupied n + 1 + 1))
      with (Z.to_nat i + (2 + Z.to_nat (NonLeaf.numOccupied n - i)))%nat by lia.
    rewrite leafEntries_app. cbn [Nat.add]. rewrite !leafEntries_cons.
    rewrite (allEntries_around n child i Hi).
    rewrite (leafEntries_ext child) by
      (intros j Hj; unfold splitChild; destruct (Z.ltb_spec (Z.of_nat j) i); [reflexivity|lia]).
    rewrite (leafEntries_shift child _ _ (S (Z.to_nat i))).
    2:{ intros j Hj. unfold splitChild.
        destruct (Z.ltb_spec (Z.of_nat (S j)) i); [lia|].
        destruct (Z.eqb_spec (Z.of_nat (S j)) i); [lia|].
        destruct (Z.eqb_spec (Z.of_nat (S j)) (i + 1)); [lia|].
        f_equal. lia. }
    unfold splitChild.
    replace (Z.of_nat (S (Z.to_nat i))) with (i + 1) by lia.
    rewrite Z2Nat.id by lia.
    destruct (Z.ltb_spec i i); [lia|]. rewrite Z.eqb_refl.
    destruct (Z.ltb_spec (i + 1) i); [lia|].
    destruct (Z.eqb_spec (i + 1) i); [lia|]. rewrite Z.eqb_refl.
    fold L1 L2 l.
    symmetry.
    etransitivity; [apply Permutation_middle|].
    apply Permutation_app_head.
    rewrite app_assoc.
    change ((k, rid) :: entriesOf l ++ ?t) with (((k, rid) :: entriesOf l) ++ t).
    apply Permutation_app_tail. symmetry.
    apply (split_entries M k rid l L1 L2 pl cap); try assumption; lia.
Qed.

(** The number of entries of a tree whose leaf [i] is full. *)
Lemma allEntries_length_full (s : BTreeIndex) (n : NonLeaf.t) (child : Z -> Leaf.t) (i : Z) :
  twoLevel s n child ->
  3 <= leafOccupancy s ->
  0 <= i <= NonLeaf.numOccupied n ->
  Leaf.numOccupied (child i) = leafOccupancy s ->
  NonLeaf.numOccupied n * capacityOf (leafOccupancy s) + leafOccupancy s <=
  Z.of_nat (length (allEntries n child)).
Proof.
  intros HT HL Hi Hfull.
  pose proof (tl_cap s HL) as Hcap.
  rewrite (allEntries_around n child i Hi), !length_app, entriesOf_length, Hfull.
  pose proof (leafEntries_length_ge child (capacityOf (leafOccupancy s)) (Z.to_nat i) 0) as H1.
  pose proof (leafEntries_length_ge child (capacityOf (leafOccupancy s))
                (Z.to_nat (NonLeaf.numOccupied n - i)) (S (Z.to_nat i))) as H2.
  specialize (H1 ltac:(intros j Hj; apply (tl_fill _ _ _ HT); lia) ltac:(lia)).
  specialize (H2 ltac:(intros j Hj; apply (tl_fill _ _ _ HT); lia) ltac:(lia)).
  nia.
Qed.

(** [insertEntry] of a new key keeps a tree of two levels in shape, as long
    as the root does not have to take more keys than it has room for. *)
Lemma insertEntry_two_level (s : BTreeIndex) (n : NonLeaf.t) (child : Z -> Leaf.t)
    (es : list (Z * RecordId)) (k : Z) (rid : RecordId) :
  twoLevel s n child ->
  3 <= leafOccupancy s ->
  Permutation (allEntries n child) es ->
  ~ In k (map fst es) ->
  Z.of_nat (length es) <
    nodeOccupancy s * capacityOf (leafOccupancy s) + leafOccupancy s ->
  exists (n' : NonLeaf.t) (child' : Z -> Leaf.t),
    fst (insertEntry k rid s) = Ok tt /\
    twoLevel (snd (insertEntry k rid s)) n' child' /\
    Permutation (allEntries n' child') ((k, rid) :: es) /\
    leafOccupancy (snd (insertEntry k rid s)) = leafOccupancy s /\
    nodeOccupancy (snd (insertEntry k rid s)) = nodeOccupancy s.
Proof.
  intros HT HL Hperm Hnew Hlen.
  assert (Hnew' : ~ In k (map fst (allEntries n child))).
  { intros Hin. apply Hnew. apply (Permutation_in _ (Permutation_map fst Hperm)). exact Hin. }
  destruct (searchEntry_two_level s n child HT k) as (i & Hi & Hlo & Hhi & Hsearch).
  pose proof (tl_fill _ _ _ HT i Hi) as Hfill.
  destruct (Z_lt_le_dec (Leaf.numOccupied (child i)) (leafOccupancy s)) as [Hroom|Hfull].
  - destruct (insert_room_two_level s n child k rid i HT HL Hnew' Hi Hlo Hhi Hroom)
      as [HT' Hperm'].
    cbn zeta in *.
    rewrite (insertEntry_unfold k rid s (NonLeaf.pageNoArray n i) [rootPageNum s])
      by (rewrite Hsearch; reflexivity).
    rewrite (insertEntryLeaf_room k rid s _ _ (child i) (tl_child _ _ _ HT i Hi) Hroom).
    cbn [fst snd]. eexists _, _. split; [reflexivity|]. split; [exact HT'|].
    split; [|split; reflexivity].
    rewrite Hperm'. apply perm_skip. exact Hperm.
  - assert (Hfull' : Leaf.numOccupied (child i) = leafOccupancy s) by lia.
    pose proof (allEntries_length_full s n child i HT HL Hi Hfull') as Hcount.
    rewrite (Permutation_length Hperm) in Hcount.
    pose proof (tl_cap s HL) as Hcap.
    assert (Hrootroom : NonLeaf.numOccupied n < nodeOccupancy s) by nia.
    destruct (insert_split_two_level s n child k rid i HT HL Hnew' Hi Hlo Hhi Hfull' Hrootroom)
      as [HT' Hperm'].
    cbn zeta in *.
    rewrite (insertEntry_split_run s (rootPageNum s) (NonLeaf.pageNoArray n i) (child i) n k rid
               Hsearch (tl_child _ _ _ HT i Hi) (tl_root _ _ _ HT)).
    + cbn [fst snd]. eexists _, _. split; [reflexivity|]. split; [exact HT'|].
      split; [|split; reflexivity].
      rewrite Hperm'. apply perm_skip. exact Hperm.
    + pose proof (tl_root_numbered s n child HT). lia.
    + lia.
    + lia.
Qed.

(** ** The split of the root leaf *)

Lemma pagesNumbered_fresh (s : BTreeIndex) :
  pagesNumbered s -> pages (bufMgr s) !! nextPageNo (bufMgr s) = None.
Proof.
  intros Hnum.
  destruct (pages (bufMgr s) !! nextPageNo (bufMgr s)) eqn:E; [|reflexivity].
  assert (H : is_Some (pages (bufMgr s) !! nextPageNo (bufMgr s))) by (eexists; exact E).
  apply Hnum in H. unfold nextPageNo in H. lia.
Qed.

Lemma insertEntry_root_split_run (s : BTreeIndex) (l : Leaf.t) (m : IndexMetaInfo)
    (k : Z) (rid : RecordId) :
  onlyOneRoot s = true ->
  pages (bufMgr s) !! rootPageNum s = Some (LeafPage l) ->
  pages (bufMgr s) !! headerPageNum s = Some (MetaPage m) ->
  pagesNumbered s ->
  leafOccupancy s <= Leaf.numOccupied l ->
  let root := rootPageNum s in
  let new := nextPageNo (bufMgr s) in
  let junk := undefLeaf (bufMgr s) new in
  let r := splitLeaf_nodes (leafOccupancy s) k rid new l junk in
  let junkRoot := undefNonLeaf (bufMgr s) (new + 1) in
  insertEntry k rid s =
    (Ok tt,
     set_bufMgr
       (set_pages
          (<[headerPageNum s :=
               MetaPage (mkMeta (relationName m) (attrByteOffset m) (attrType m) (new + 1))]>
             (<[new + 1 := NonLeafPage (newRoot 1 (snd r) root new junkRoot)]>
                (<[new + 1 := NonLeafPage junkRoot]>
                   (<[new := LeafPage (snd (fst r))]>
                      (<[root := LeafPage (fst (fst r))]>
                         (<[new := LeafPage junk]> (pages (bufMgr s))))))))
          (bufMgr s))
       (set_rootPageNum (new + 1) (set_onlyOneRoot false s))).
Proof.
  intros Hone Hpage Hmeta Hnum Hfull. cbn zeta.
  pose proof (pagesNumbered_fresh s Hnum) as Hfresh.
  assert (Hroot_in : rootPageNum s <> nextPageNo (bufMgr s)).
  { intros E. rewrite E, Hfresh in Hpage. discriminate. }
  assert (Hhdr_in : headerPageNum s <> nextPageNo (bufMgr s)).
  { intros E. rewrite E, Hfresh in Hmeta. discriminate. }
  assert (Hhdr_root : headerPageNum s <> rootPageNum s).
  { intros E. rewrite E, Hpage in Hmeta. discriminate. }
  assert (Hhdr_num : headerPageNum s <> nextPageNo (bufMgr s) + 1).
  { assert (H : is_Some (pages (bufMgr s) !! headerPageNum s)) by (eexists; exact Hmeta).
    apply Hnum in H. unfold nextPageNo. lia. }
  rewrite (insertEntry_unfold k rid s (rootPageNum s) [])
    by (rewrite searchEntry_onlyOneRoot by exact Hone; reflexivity).
  unfold insertEntryLeaf. unfold bind at 1. unfold readLeaf, readPage.
  unfold bind at 1. rewrite Hpage. unfold ret at 1. unfold bind at 1. unfold get at 1.
  rewrite Z.geb_leb, (proj2 (Z.leb_le _ _) Hfull).
  unfold splitLeaf. unfold bind at 1.
  rewrite (splitLeaf_pages_run s (rootPageNum s) l k rid Hpage). cbn [fst snd].
  unfold splitLeaf_newRoot, allocNonLeaf, updateHeaderRoot, readMeta, readPage, writePage,
    nextPageNo.
  run.
  rewrite map_size_insert_Some
    by (rewrite lookup_insert_ne by (unfold nextPageNo in *; congruence);
        rewrite lookup_insert_eq; eexists; reflexivity).
  rewrite map_size_insert_Some
    by (eexists; rewrite lookup_insert_ne by (unfold nextPageNo in *; congruence);
        exact Hpage).
  rewrite map_size_insert_None by exact Hfresh.
  replace (Z.of_nat (S (size (pages (bufMgr s)))) + 1)
    with (Z.of_nat (size (pages (bufMgr s))) + 1 + 1) by lia.
  unfold nextPageNo in *.
  rewrite lookup_insert_ne by congruence.
  rewrite lookup_insert_ne by congruence.
  rewrite lookup_insert_ne by congruence.
  rewrite lookup_insert_ne by congruence.
  rewrite lookup_insert_ne by congruence.
  rewrite Hmeta. st_simpl. reflexivity.
Qed.

Lemma insertEntry_leafTree_split (s : BTreeIndex) (l : Leaf.t) (k : Z) (rid : RecordId) :
  leafTree s l ->
  3 <= leafOccupancy s ->
  Leaf.numOccupied l = leafOccupancy s ->
  1 <= nodeOccupancy s ->
  (forall x, 0 <= x < Leaf.numOccupied l -> Leaf.keyArray l x <> k) ->
  exists (n' : NonLeaf.t) (child' : Z -> Leaf.t),
    fst (insertEntry k rid s) = Ok tt /\
    twoLevel (snd (insertEntry k rid s)) n' child' /\
    NonLeaf.numOccupied n' = 1 /\
    Permutation (allEntries n' child') ((k, rid) :: entriesOf l) /\
    leafOccupancy (snd (insertEntry k rid s)) = leafOccupancy s /\
    nodeOccupancy (snd (insertEntry k rid s)) = nodeOccupancy s.
Proof.
  intros ((Hone & Hpage & Hsib & HN & Hasc) & Hmax & Hnum & [m Hmeta] & Hjunk) HL Hfull Hnode Hnew.
  rewrite (insertEntry_root_split_run s l m k rid Hone Hpage Hmeta Hnum ltac:(lia)).
  cbn [fst snd].
  pose proof (pagesNumbered_fresh s Hnum) as Hfresh.
  assert (Hroot_lt : 1 <= rootPageNum s < nextPageNo (bufMgr s)).
  { assert (H : is_Some (pages (bufMgr s) !! rootPageNum s)) by (eexists; exact Hpage).
    apply Hnum in H. unfold nextPageNo. lia. }
  assert (Hhdr_lt : 1 <= headerPageNum s < nextPageNo (bufMgr s)).
  { assert (H : is_Some (pages (bufMgr s) !! headerPageNum s)) by (eexists; exact Hmeta).
    apply Hnum in H. unfold nextPageNo. lia. }
  assert (Hhdr_root : headerPageNum s <> rootPageNum s).
  { intros E. rewrite E, Hpage in Hmeta. discriminate. }
  set (M := leafOccupancy s) in *.
  set (new := nextPageNo (bufMgr s)) in *.
  pose proof (capacityOf_bounds M ltac:(lia)) as Hcap.
  set (cap := capacityOf M) in *.
  destruct (slot_exists (Leaf.keyArray l) k (Z.to_nat M)) as (pl & Hpl & Hpl_lo & Hpl_hi).
  { rewrite Z2Nat.id by lia. rewrite <- Hfull. exact Hasc. }
  { rewrite Z2Nat.id by lia. rewrite <- Hfull. exact Hnew. }
  rewrite Z2Nat.id in Hpl, Hpl_hi by lia.
  pose proof (splitLeaf_nodes_spec M k rid new l (undefLeaf (bufMgr s) new) pl
                HL Hfull Hpl Hpl_lo Hpl_hi) as Hspec.
  cbn zeta in Hspec. fold cap in Hspec.
  set (r := splitLeaf_nodes M k rid new l (undefLeaf (bufMgr s) new)) in *.
  set (L1 := fst (fst r)) in *. set (L2 := snd (fst r)) in *.
  destruct Hspec as (S1 & S2 & S3 & S4 & S5 & S6 & S7).
  assert (Hasc_l : ascending (Leaf.keyArray l) M) by (rewrite <- Hfull; exact Hasc).
  pose proof (mergedK_ascending M k (Leaf.keyArray l) pl Hpl Hasc_l Hpl_lo Hpl_hi) as Hmk.
  set (junkRoot := undefNonLeaf (bufMgr s) (new + 1)) in *.
  set (n' := newRoot 1 (snd r) (rootPageNum s) new junkRoot).
  assert (N1 : NonLeaf.numOccupied n' = 1) by (cbn; lia).
  exists n', (firstChildren L1 L2).
  split; [reflexivity|]. split; [|split; [exact N1|split; [|split; reflexivity]]].
  - constructor; st_simpl.
    + reflexivity.
    + rewrite lookup_insert_ne by lia. apply lookup_insert_eq.
    + cbn. discriminate.
    + rewrite N1. lia.
    + rewrite N1. intros a b Ha Hab Hb. lia.
    + rewrite N1. intros j Hj. unfold firstChildren.
      destruct (Z.eqb_spec j 0) as [->|Hne].
      * cbn [n' newRoot NonLeaf.pageNoArray NonLeaf.set_level incr NonLeaf.set_numOccupied
             NonLeaf.set_pageNo NonLeaf.set_key]. unfold aset. cbn [Z.eqb].
        rewrite lookup_insert_ne by congruence.
        rewrite lookup_insert_ne by lia.
        rewrite lookup_insert_ne by lia.
        rewrite lookup_insert_ne by lia.
        apply lookup_insert_eq.
      * assert (j = 1) by lia. subst j.
        cbn [n' newRoot NonLeaf.pageNoArray NonLeaf.set_level incr NonLeaf.set_numOccupied
             NonLeaf.set_pageNo NonLeaf.set_key]. unfold aset. cbn [Z.eqb Pos.eqb].
        rewrite lookup_insert_ne by lia.
        rewrite lookup_insert_ne by lia.
        rewrite lookup_insert_ne by lia.
        apply lookup_insert_eq.
    + rewrite N1. intros a b Ha Hab Hb. assert (a = 0) by lia. assert (b = 1) by lia.
      subst a b. cbn. lia.
    + rewrite N1. intros j Hj. unfold firstChildren. fold M cap.
      destruct (Z.eqb_spec j 0); lia.
    + rewrite N1. intros j Hj. unfold firstChildren.
      destruct (Z.eqb_spec j 0).
      * intros a b Ha Hab Hb. rewrite S1 in Hb.
        destruct (S3 a ltac:(lia)) as [-> _]. destruct (S3 b ltac:(lia)) as [-> _].
        apply Hmk; lia.
      * intros a b Ha Hab Hb. rewrite S2 in Hb.
        destruct (S4 a ltac:(lia)) as [-> _]. destruct (S4 b ltac:(lia)) as [-> _].
        apply Hmk; lia.
    + rewrite N1. intros j Hj. assert (j = 0) by lia. subst j. cbn. exact S7.
    + rewrite N1. intros j Hj. assert (j = 0) by lia. subst j.
      unfold firstChildren. cbn [Z.eqb].
      replace (NonLeaf.keyArray n' 0) with (Leaf.keyArray L2 0) by (cbn; symmetry; exact S7).
      rewrite S1. destruct (S3 (cap - 1) ltac:(lia)) as [-> _].
      destruct (S4 0 ltac:(lia)) as [-> _]. apply Hmk; lia.
    + rewrite N1. intros j Hj. assert (j = 0) by lia. subst j. cbn. exact S5.
    + rewrite N1. unfold firstChildren. cbn [Z.eqb]. rewrite S6. exact Hsib.
    + pose proof (pagesNumbered_alloc s (LeafPage (undefLeaf (bufMgr s) new)) Hnum) as P1.
      fold new in P1.
      match type of P1 with pagesNumbered ?s1 =>
        pose proof (pagesNumbered_write s1 (rootPageNum s) (LeafPage l) (LeafPage L1) P1) as P2
      end.
      st_simpl_in P2.
      specialize (P2 ltac:(rewrite lookup_insert_ne by lia; exact Hpage)).
      match type of P2 with pagesNumbered ?s2 =>
        pose proof (pagesNumbered_write s2 new
                      (LeafPage (undefLeaf (bufMgr s) new)) (LeafPage L2) P2) as P3
      end.
      st_simpl_in P3.
      specialize (P3 ltac:(rewrite lookup_insert_ne by lia; apply lookup_insert_eq)).
      assert (Hnext : forall b, nextPageNo
                (set_pages (<[new := LeafPage L2]>
                   (<[rootPageNum s := LeafPage L1]>
                      (<[new := LeafPage (undefLeaf (bufMgr s) new)]> (pages (bufMgr s))))) b)
              = new + 1).
      { intros b. unfold nextPageNo. st_simpl.
        rewrite map_size_insert_Some
          by (eexists; rewrite lookup_insert_ne by lia; apply lookup_insert_eq).
        rewrite map_size_insert_Some
          by (eexists; rewrite lookup_insert_ne by lia; exact Hpage).
        rewrite map_size_insert_None by exact Hfresh. unfold new, nextPageNo. lia. }
      match type of P3 with pagesNumbered ?s3 =>
        pose proof (pagesNumbered_alloc s3 (NonLeafPage junkRoot) P3) as P4
      end.
      st_simpl_in P4. rewrite Hnext in P4.
      match type of P4 with pagesNumbered ?s4 =>
        pose proof (pagesNumbered_write s4 (new + 1) (NonLeafPage junkRoot) (NonLeafPage n') P4)
          as P5
      end.
      st_simpl_in P5. specialize (P5 ltac:(apply lookup_insert_eq)).
      match type of P5 with pagesNumbered ?s5 =>
        pose proof (pagesNumbered_write s5 (headerPageNum s) (MetaPage m)
                      (MetaPage (mkMeta (relationName m) (attrByteOffset m) (attrType m)
                                   (new + 1))) P5) as P6
      end.
      st_simpl_in P6.
      specialize (P6 ltac:(rewrite !lookup_insert_ne by lia; exact Hmeta)).
      intros p. specialize (P6 p). st_simpl_in P6. st_simpl. exact P6.
  - unfold allEntries, leafEntries. rewrite N1.
    change (Z.to_nat (1 + 1)) with 2%nat. cbn [seq flat_map].
    rewrite app_nil_r. unfold firstChildren.
    change (Z.of_nat 0) with 0. change (Z.of_nat 1) with 1. cbn [Z.eqb].
    apply (split_entries M k rid l L1 L2 pl cap); try assumption; lia.
Qed.

(** ** The growth of the tree up to the first split of the root *)

Lemma insertEntry_leafTree_room (s : BTreeIndex) (l : Leaf.t) (k : Z) (rid : RecordId) :
  leafTree s l ->
  Leaf.numOccupied l < leafOccupancy s ->
  (forall x, 0 <= x < Leaf.numOccupied l -> Leaf.keyArray l x <> k) ->
  exists l',
    fst (insertEntry k rid s) = Ok tt /\
    leafTree (snd (insertEntry k rid s)) l' /\
    Permutation (entriesOf l') ((k, rid) :: entriesOf l) /\
    leafOccupancy (snd (insertEntry k rid s)) = leafOccupancy s /\
    nodeOccupancy (snd (insertEntry k rid s)) = nodeOccupancy s.
Proof.
  intros ((Hone & Hpage & Hsib & HN & Hasc) & Hmax & Hnum & [m Hmeta] & Hjunk) Hroom Hnew.
  destruct (insertEntryLeaf_store_new_key k rid l HN Hasc Hnew)
    as (E1 & E2 & E3 & p & Hp & EK & ER).
  cbn zeta in *.
  rewrite (insertEntry_unfold k rid s (rootPageNum s) [])
    by (rewrite searchEntry_onlyOneRoot by exact Hone; reflexivity).
  rewrite (insertEntryLeaf_room k rid s (rootPageNum s) [] l Hpage Hroom).
  cbn [fst snd]. exists (insertEntryLeaf_store k rid l).
  split; [reflexivity|]. split; [|split; [|split; reflexivity]].
  - unfold leafTree, rootLeaf. st_simpl.
    split; [|split; [lia|split; [|split]]].
    + split; [exact Hone|]. split; [apply lookup_insert_eq|].
      split; [congruence|]. split; [lia|]. rewrite E1. exact E3.
    + apply (pagesNumbered_write s _ (LeafPage l)); assumption.
    + exists m. rewrite lookup_insert_ne; [exact Hmeta|].
      intros E. rewrite <- E, Hpage in Hmeta. discriminate.
    + unfold nextPageNo in *. st_simpl.
      rewrite map_size_insert_Some by (eexists; exact Hpage). exact Hjunk.
  - apply (entriesOf_store k rid l _ p); assumption.
Qed.

Lemma insertEntry_smallTree (s : BTreeIndex) (es : list (Z * RecordId))
    (k : Z) (rid : RecordId) :
  smallTree s es ->
  3 <= leafOccupancy s -> 1 <= nodeOccupancy s ->
  ~ In k (map fst es) ->
  Z.of_nat (length es) <
    nodeOccupancy s * capacityOf (leafOccupancy s) + leafOccupancy s ->
  fst (insertEntry k rid s) = Ok tt /\
  smallTree (snd (insertEntry k rid s)) ((k, rid) :: es) /\
  leafOccupancy (snd (insertEntry k rid s)) = leafOccupancy s /\
  nodeOccupancy (snd (insertEntry k rid s)) = nodeOccupancy s.
Proof.
  intros [(l & Hleaf & Hperm)|(n & child & HT & Hperm)] HL HNode Hnew Hlen.
  - assert (Hnew' : forall x, 0 <= x < Leaf.numOccupied l -> Leaf.keyArray l x <> k).
    { intros x Hx Heq. apply Hnew. apply in_map_iff.
      exists (Leaf.keyArray l x, Leaf.ridArray l x). split; [exact Heq|].
      apply (Permutation_in _ Hperm). apply in_entriesOf. exact Hx. }
    destruct (Z_lt_le_dec (Leaf.numOccupied l) (leafOccupancy s)) as [Hroom|Hfull].
    + destruct (insertEntry_leafTree_room s l k rid Hleaf Hroom Hnew')
        as (l' & E1 & E2 & E3 & E4 & E5).
      split; [exact E1|]. split; [|split; assumption].
      left. exists l'. split; [exact E2|]. rewrite E3. apply perm_skip. exact Hperm.
    + assert (Hfull' : Leaf.numOccupied l = leafOccupancy s).
      { destruct Hleaf as (_ & Hmax & _). lia. }
      destruct (insertEntry_leafTree_split s l k rid Hleaf HL Hfull' HNode Hnew')
        as (n' & child' & E1 & E2 & _ & E3 & E4 & E5).
      split; [exact E1|]. split; [|split; assumption].
      right. exists n', child'. split; [exact E2|]. rewrite E3. apply perm_skip. exact Hperm.
  - destruct (insertEntry_two_level s n child es k rid HT HL Hperm Hnew Hlen)
      as (n' & child' & E1 & E2 & E3 & E4 & E5).
    split; [exact E1|]. split; [|split; assumption].
    right. exists n', child'. split; assumption.
Qed.

Lemma insertAll_smallTree : forall (rel es : list (Z * RecordId)) (s : BTreeIndex),
  smallTree s es ->
  3 <= leafOccupancy s -> 1 <= nodeOccupancy s ->
  List.NoDup (map fst (rel ++ es)) ->
  Z.of_nat (length (rel ++ es)) <=
    nodeOccupancy s * capacityOf (leafOccupancy s) + leafOccupancy s ->
  fst (insertAll rel s) = Ok tt /\
  smallTree (snd (insertAll rel s)) (rel ++ es) /\
  leafOccupancy (snd (insertAll rel s)) = leafOccupancy s /\
  nodeOccupancy (snd (insertAll rel s)) = nodeOccupancy s.
Proof.
  induction rel as [|[k rid] rel IH]; intros es s Hinv HL HNode Hnodup Hlen.
  - split; [reflexivity|]. split; [exact Hinv|]. split; reflexivity.
  - cbn [insertAll]. unfold bind.
    cbn [app map fst length] in Hnodup, Hlen.
    assert (Hperm : Permutation ((k, rid) :: rel ++ es) (rel ++ (k, rid) :: es))
      by apply Permutation_middle.
    destruct (insertEntry_smallTree s es k rid Hinv HL HNode) as (E1 & E2 & E3 & E4).
    { apply List.NoDup_cons_iff in Hnodup. destruct Hnodup as [Hnotin _].
      intros Hin. apply Hnotin. rewrite map_app. apply in_or_app. right. exact Hin. }
    { rewrite length_app in Hlen. lia. }
    destruct (insertEntry k rid s) as [[u|e] s1]; cbn [fst snd] in *; [|discriminate].
    destruct (IH ((k, rid) :: es) s1 E2) as (F1 & F2 & F3 & F4).
    { lia. }
    { lia. }
    { apply (Permutation_NoDup (l := map fst ((k, rid) :: rel ++ es))); [|exact Hnodup].
      apply Permutation_map. exact Hperm. }
    { rewrite E3, E4, <- (Permutation_length Hperm). cbn [length]. lia. }
    split; [exact F1|]. split; [|split; congruence].
    destruct F2 as [(l & G1 & G2)|(n & child & G1 & G2)].
    + left. exists l. split; [exact G1|]. rewrite G2. symmetry. exact Hperm.
    + right. exists n, child. split; [exact G1|]. rewrite G2. symmetry. exact Hperm.
Qed.

(** The create path of the constructor up to the insertion of the relation. *)
Lemma create_leafTree (relName : string) (offset : Z) (attrTy : Datatype) (L N : Z)
    (rel : list (Z * RecordId)) (s : BTreeIndex) :
  pages (bufMgr s) = ∅ ->
  0 <= L ->
  NonLeaf.numOccupied (undefNonLeaf (bufMgr s) 4) = 0 ->
  exists s0 l0,
    BTreeIndex_create relName offset attrTy L N rel s = insertAll rel s0 /\
    leafTree s0 l0 /\ entriesOf l0 = [] /\
    leafOccupancy s0 = L /\ nodeOccupancy s0 = N.
Proof.
  intros Hempty HL Hjunk.
  unfold BTreeIndex_create, allocMeta, allocLeaf, writePage, nextPageNo. run.
  rewrite Hempty.
  rewrite map_size_empty. cbn [Z.of_nat Z.add].
  rewrite insert_empty, map_size_singleton.
  change (Z.of_nat 1 + 1) with 2. change (Z.of_nat 0 + 1) with 1.
  eexists. eexists. split; [reflexivity|].
  split; [|split; [|st_simpl; split; reflexivity]].
  - unfold leafTree, rootLeaf. st_simpl.
    split.
    { split; [reflexivity|]. split; [apply lookup_insert_eq|].
      cbn. split; [reflexivity|]. split; [lia|]. intros i j Hi Hij Hj. lia. }
    split; [cbn; exact HL|]. split; [|split].
    + intros p. st_simpl.
      rewrite map_size_insert_Some
        by (eexists; rewrite lookup_insert_ne by lia; apply lookup_insert_eq).
      rewrite map_size_insert_Some
        by (eexists; rewrite lookup_insert_ne by lia; apply lookup_singleton_eq).
      rewrite map_size_insert_None by (apply lookup_singleton_ne; lia).
      rewrite map_size_singleton.
      destruct (Z.eq_dec p 2) as [->|H2].
      { rewrite lookup_insert_eq. split; [lia|]. intros _. eexists; reflexivity. }
      rewrite lookup_insert_ne by congruence.
      destruct (Z.eq_dec p 1) as [->|H1].
      { rewrite lookup_insert_eq. split; [lia|]. intros _. eexists; reflexivity. }
      rewrite lookup_insert_ne by congruence.
      rewrite lookup_insert_ne by congruence.
      rewrite lookup_singleton_ne by congruence.
      split; [intros [x Hx]; discriminate|lia].
    + eexists. rewrite lookup_insert_ne by lia. apply lookup_insert_eq.
    + unfold nextPageNo. st_simpl.
      rewrite map_size_insert_Some
        by (eexists; rewrite lookup_insert_ne by lia; apply lookup_insert_eq).
      rewrite map_size_insert_Some
        by (eexists; rewrite lookup_insert_ne by lia; apply lookup_singleton_eq).
      rewrite map_size_insert_None by (apply lookup_singleton_ne; lia).
      rewrite map_size_singleton. exact Hjunk.
  - reflexivity.
Qed.

(** ** The scan along the chain of leaves *)

(** One [scanNext] that stays in its leaf. *)
Lemma scanNext_inside_leaf (s : BTreeIndex) (l : Leaf.t) :
  scanExecuting s = true ->
  pages (bufMgr s) !! currentPageNum s = Some (LeafPage l) ->
  nextEntry s <> -1 ->
  nextEntry s + 1 < Leaf.numOccupied l ->
  scanNext s =
    (Ok (Leaf.ridArray l (nextEntry s)),
     set_nextEntry
       (if belowHigh (highValInt s) (highOp s) (Leaf.keyArray l (nextEntry s + 1))
        then nextEntry s + 1 else -1) s).
Proof.
  intros Hex Hpage Hne Hin.
  unfold scanNext, readPage. run. rewrite Hex. st_simpl. rewrite Hpage. st_simpl.
  rewrite (proj2 (Z.eqb_neq _ _) Hne).
  rewrite (proj2 (Z.ltb_lt _ _) Hin).
  unfold belowHigh.
  destruct (highOp s); cbn [Operator_eqb negb andb]; rewrite ?andb_true_r, ?andb_false_r;
    zcases; try reflexivity; lia.
Qed.

(** One [scanNext] at the last entry of a leaf that has a right sibling:
    the scan moves to the sibling. *)
Lemma scanNext_to_sibling (s : BTreeIndex) (l l2 : Leaf.t) :
  scanExecuting s = true ->
  pages (bufMgr s) !! currentPageNum s = Some (LeafPage l) ->
  nextEntry s <> -1 ->
  Leaf.numOccupied l <= nextEntry s + 1 ->
  Leaf.rightSibPageNo l <> INVALID_NUMBER ->
  pages (bufMgr s) !! Leaf.rightSibPageNo l = Some (LeafPage l2) ->
  Leaf.numOccupied l2 <> 0 ->
  (highOp s = LTE -> Leaf.keyArray l2 0 <> highValInt s) ->
  scanNext s =
    (Ok (Leaf.ridArray l (nextEntry s)),
     set_nextEntry
       (if belowHigh (highValInt s) (highOp s) (Leaf.keyArray l2 0) then 0 else -1)
       (set_currentPageNum (Leaf.rightSibPageNo l) s)).
Proof.
  intros Hex Hpage Hne Hlast Hsib Hpage2 Hcount Hhi.
  unfold scanNext, readLeaf, readPage. run. rewrite Hex. st_simpl. rewrite Hpage. st_simpl.
  rewrite (proj2 (Z.eqb_neq _ _) Hne).
  rewrite (proj2 (Z.ltb_ge _ _) Hlast).
  rewrite (proj2 (Z.eqb_neq _ _) Hsib). st_simpl.
  rewrite Hpage2. st_simpl.
  rewrite (proj2 (Z.eqb_neq _ _) Hcount).
  unfold belowHigh.
  destruct (highOp s) eqn:Hop; cbn [Operator_eqb negb andb];
    rewrite ?andb_true_r, ?andb_false_r;
    try (specialize (Hhi eq_refl)); zcases; try reflexivity; lia.
Qed.

Section ChainScan.
Variables (s0 : BTreeIndex) (n : NonLeaf.t) (child : Z -> Leaf.t).
Hypothesis HT : twoLevel s0 n child.
Hypothesis HL : 3 <= leafOccupancy s0.

(** The entries from position [a] of leaf [i] to the end of the chain. *)
Lemma chain_keys_ge (i a c m : nat) (e : Z * RecordId) :
  Z.of_nat i + Z.of_nat m = NonLeaf.numOccupied n ->
  (a + S c)%nat = Z.to_nat (Leaf.numOccupied (child (Z.of_nat i))) ->
  In e (map (entryAt (child (Z.of_nat i))) (seq a (S c)) ++ leafEntries child (S i) m) ->
  Leaf.keyArray (child (Z.of_nat i)) (Z.of_nat a) <= fst e.
Proof.
  intros Hi Ha Hin. apply in_app_or in Hin. destruct Hin as [Hin|Hin].
  - apply in_entries in Hin. destruct Hin as (x & Hx & ->). cbn [entryAt fst].
    apply (ascending_le _ (Leaf.numOccupied (child (Z.of_nat i)))); try lia.
    apply (tl_ascending _ _ _ HT). lia.
  - apply in_leafEntries in Hin. destruct Hin as (j & y & Hj & Hy & ->). cbn [entryAt fst].
    apply Z.lt_le_incl. apply (tl_order s0 n child HT); lia.
Qed.

Lemma drain_chain (hi : Z) (hop : Operator) :
  (hop = LTE -> forall j, 0 <= j < NonLeaf.numOccupied n -> NonLeaf.keyArray n j <> hi) ->
  forall (fuel : nat) (m c i a : nat) (s : BTreeIndex),
  Z.of_nat i + Z.of_nat m = NonLeaf.numOccupied n ->
  (a + S c)%nat = Z.to_nat (Leaf.numOccupied (child (Z.of_nat i))) ->
  (S c + length (leafEntries child (S i) m) < fuel)%nat ->
  scanAt s0 hi hop (NonLeaf.pageNoArray n (Z.of_nat i)) (Z.of_nat a) s ->
  belowHigh hi hop (Leaf.keyArray (child (Z.of_nat i)) (Z.of_nat a)) = true ->
  fst (drain fuel s) =
    Ok (map snd (List.filter (fun e => belowHigh hi hop (fst e))
                   (map (entryAt (child (Z.of_nat i))) (seq a (S c)) ++
                    leafEntries child (S i) m))) /\
  scanExecuting (snd (drain fuel s)) = true /\
  bufMgr (snd (drain fuel s)) = bufMgr s0.
Proof.
  intros Hsep.
  induction fuel as [|fuel IH]; intros m c i a s Hi Ha Hfuel
    (Hex & Hbuf & Hcur & Hne & Hhi & Hhop) Hhead; [lia|].
  pose proof (tl_count _ _ _ HT) as HN.
  assert (Hpage : pages (bufMgr s) !! currentPageNum s = Some (LeafPage (child (Z.of_nat i)))).
  { rewrite Hbuf, Hcur. apply (tl_child _ _ _ HT). lia. }
  cbn [drain].
  change (seq a (S c)) with (a :: seq (S a) c).
  cbn [map app List.filter fst entryAt]. rewrite Hhead. cbn [map snd].
  destruct c as [|c].
  - (* the last entry of the leaf *)
    destruct m as [|m].
    + rewrite (scanNext_in_last_leaf s _ Hex Hpage ltac:(lia)).
      2:{ replace (Z.of_nat i) with (NonLeaf.numOccupied n) by lia. apply (tl_last _ _ _ HT). }
      rewrite (proj2 (Z.ltb_ge _ _)) by lia. cbn [andb].
      destruct fuel as [|fuel]; [cbn in Hfuel; lia|].
      unfold bind.
      rewrite (drain_completed fuel _ (LeafPage (child (Z.of_nat i))));
        try reflexivity; try assumption.
      unfold ret. cbn [fst snd seq map List.filter leafEntries flat_map app]. rewrite Hne.
      repeat split; assumption || reflexivity.
    + pose proof (tl_sibling _ _ _ HT (Z.of_nat i) ltac:(lia)) as Hsib.
      pose proof (tl_child _ _ _ HT (Z.of_nat i + 1) ltac:(lia)) as Hpage2.
      pose proof (tl_child_numbered s0 n child HT (Z.of_nat i + 1) ltac:(lia)) as Hnum.
      pose proof (tl_nonempty s0 n child HT HL (Z.of_nat i + 1) ltac:(lia)) as Hcount.
      pose proof (tl_separator _ _ _ HT (Z.of_nat i) ltac:(lia)) as Hfirst.
      rewrite (scanNext_to_sibling s (child (Z.of_nat i)) (child (Z.of_nat i + 1))
                 Hex Hpage ltac:(lia) ltac:(lia)).
      2:{ rewrite Hsib. unfold INVALID_NUMBER. lia. }
      2:{ rewrite Hbuf, Hsib. exact Hpage2. }
      2:{ lia. }
      2:{ rewrite Hhi, Hhop. intros Hop. rewrite <- Hfirst. apply (Hsep Hop). lia. }
      rewrite Hhi, Hhop, Hsib, Hne.
      rewrite leafEntries_cons.
      replace (Z.of_nat (S i)) with (Z.of_nat i + 1) by lia.
      set (l2 := child (Z.of_nat i + 1)) in *.
      destruct (belowHigh hi hop (Leaf.keyArray l2 0)) eqn:Hnext.
      * destruct (IH m (Z.to_nat (Leaf.numOccupied l2 - 1)) (S i) 0%nat
                    (set_nextEntry 0 (set_currentPageNum (NonLeaf.pageNoArray n (Z.of_nat i + 1)) s)))
          as (E1 & E2 & E3).
        { lia. }
        { replace (Z.of_nat (S i)) with (Z.of_nat i + 1) by lia. fold l2. lia. }
        { rewrite leafEntries_cons, length_app, entriesOf_length in Hfuel.
          replace (Z.of_nat (S i)) with (Z.of_nat i + 1) in Hfuel by lia. fold l2 in Hfuel.
          lia. }
        { unfold scanAt. st_simpl.
          replace (Z.of_nat (S i)) with (Z.of_nat i + 1) by lia.
          repeat split; assumption || reflexivity. }
        { replace (Z.of_nat (S i)) with (Z.of_nat i + 1) by lia. exact Hnext. }
        unfold bind.
        destruct (drain fuel _) as [[rest|e] s2]; cbn [fst snd] in E1, E2, E3; [|discriminate].
        injection E1 as E1. subst rest.
        unfold ret. cbn [fst snd].
        replace (Z.of_nat (S i)) with (Z.of_nat i + 1) by lia. fold l2.
        unfold entriesOf.
        replace (Z.to_nat (Leaf.numOccupied l2)) with (S (Z.to_nat (Leaf.numOccupied l2 - 1)))
          by lia.
        repeat split; assumption || reflexivity.
      * destruct fuel as [|fuel]; [cbn in Hfuel; lia|].
        unfold bind.
        rewrite (drain_completed fuel _ (LeafPage l2)).
        2:{ st_simpl. exact Hex. }
        2:{ st_simpl. rewrite Hbuf. exact Hpage2. }
        2:{ reflexivity. }
        unfold ret. cbn [fst snd].
        rewrite filter_none.
        -- st_simpl. repeat split; assumption || reflexivity.
        -- intros e He.
           apply (belowHigh_mono hi hop (Leaf.keyArray l2 0)); [|exact Hnext].
           cbn [seq map app] in He.
           pose proof (chain_keys_ge (S i) 0 (Z.to_nat (Leaf.numOccupied l2 - 1)) m e) as Hge.
           replace (Z.of_nat (S i)) with (Z.of_nat i + 1) in Hge by lia. fold l2 in Hge.
           replace (S (Z.to_nat (Leaf.numOccupied l2 - 1)))
             with (Z.to_nat (Leaf.numOccupied l2)) in Hge by lia.
           apply Hge; [lia|lia|exact He].
  - (* the next entry is in the same leaf *)
    rewrite (scanNext_inside_leaf s _ Hex Hpage ltac:(lia) ltac:(lia)).
    rewrite Hhi, Hhop, Hne.
    replace (Z.of_nat a + 1) with (Z.of_nat (S a)) by lia.
    destruct (belowHigh hi hop (Leaf.keyArray (child (Z.of_nat i)) (Z.of_nat (S a)))) eqn:Hnext.
    + destruct (IH m c i (S a) (set_nextEntry (Z.of_nat (S a)) s)) as (E1 & E2 & E3);
        try assumption; try lia.
      { unfold scanAt. st_simpl. repeat split; assumption || reflexivity. }
      unfold bind.
      destruct (drain fuel _) as [[rest|e] s2]; cbn [fst snd] in E1, E2, E3; [|discriminate].
      injection E1 as E1. subst rest.
      unfold ret. cbn [fst snd].
      repeat split; assumption || reflexivity.
    + destruct fuel as [|fuel]; [lia|].
      unfold bind.
      rewrite (drain_completed fuel _ (LeafPage (child (Z.of_nat i))));
        try reflexivity; try assumption.
      unfold ret. cbn [fst snd].
      rewrite filter_none.
      * st_simpl. repeat split; assumption || reflexivity.
      * intros e He.
        apply (belowHigh_mono hi hop (Leaf.keyArray (child (Z.of_nat i)) (Z.of_nat (S a))));
          [|exact Hnext].
        apply (chain_keys_ge i (S a) c m); try assumption; lia.
Qed.

End ChainScan.

Lemma aboveLow_below (lo : Z) (lop : Operator) (k : Z) :
  k < lo -> aboveLow lo lop k = false.
Proof.
  intros H. unfold aboveLow. destruct (Operator_eqb lop GTE).
  - apply Z.leb_gt. lia.
  - apply Z.ltb_ge. lia.
Qed.

(** The scan of a tree of two levels: [i] is the leaf that the descent
    with the low value reaches. *)
Lemma scan_two_level (s : BTreeIndex) (n : NonLeaf.t) (child : Z -> Leaf.t)
    (lo : Z) (lop : Operator) (hi : Z) (hop : Operator) (i : Z) (fuel : nat) :
  twoLevel s n child -> 3 <= leafOccupancy s ->
  lo <= hi -> validOperators lop hop ->
  0 <= i <= NonLeaf.numOccupied n ->
  (0 < i -> NonLeaf.keyArray n (i - 1) < lo) ->
  (i < NonLeaf.numOccupied n -> lo <= NonLeaf.keyArray n i) ->
  aboveLow lo lop (Leaf.keyArray (child i) (Leaf.numOccupied (child i) - 1)) = true ->
  (hop = LTE -> forall j, 0 <= j < NonLeaf.numOccupied n -> NonLeaf.keyArray n j <> hi) ->
  (length (allEntries n child) < fuel)%nat ->
  let r := startScan lo lop hi hop s in
  let expected := ridsInRange lo lop hi hop (allEntries n child) in
  bufMgr (snd r) = bufMgr s /\
  match fst r with
  | Ok _ => fst (drain fuel (snd r)) = Ok expected /\
            scanExecuting (snd (drain fuel (snd r))) = true /\
            bufMgr (snd (drain fuel (snd r))) = bufMgr s
  | Throw e => e = NoSuchKeyFoundException /\ expected = [] /\
               scanExecuting (snd r) = false
  end.
Proof.
  intros HT HL Hrange Hops Hi Hleft Hright Hlast Hsep Hfuel. cbn zeta.
  pose proof (tl_count _ _ _ HT) as HN.
  pose proof (tl_nonempty s n child HT HL i Hi) as Hcount.
  pose proof (tl_ascending _ _ _ HT i Hi) as Hasc.
  (* the descent *)
  destruct (searchEntry_two_level s n child HT lo) as (i' & Hi' & Hbelow & Habove & Hsearch).
  assert (i' = i).
  { destruct (Z.lt_trichotomy i' i) as [Hlt|[Heq|Hgt]]; [|exact Heq|].
    - specialize (Habove ltac:(lia)).
      pose proof (tl_keys_le s n child HT i' (i - 1) ltac:(lia) ltac:(lia) ltac:(lia)).
      specialize (Hleft ltac:(lia)). lia.
    - specialize (Hbelow i ltac:(lia)). specialize (Hright ltac:(lia)). lia. }
  subst i'.
  destruct (startScan_at_leaf s (NonLeaf.pageNoArray n i) [rootPageNum s] (child i)
              lo lop hi hop) as (Hbuf & Hcur & Hne & Hhi & Hhop & Hout);
    try assumption.
  { rewrite Hsearch. reflexivity. }
  { apply (tl_child _ _ _ HT). exact Hi. }
  cbn zeta in *.
  split; [exact Hbuf|].
  set (r := startScan lo lop hi hop s) in *.
  set (l := child i) in *.
  destruct (startScan_loop_first lo lop l (-1) (Z.to_nat (Leaf.numOccupied l)) 0)
    as [[E1 E2]|(E1 & E2 & E3)]; try lia; cbn zeta in *.
  { rewrite E2 in Hlast by lia. discriminate. }
  set (ne := startScan_loop (Z.to_nat (Leaf.numOccupied l)) lo lop l 0 (-1)) in *.
  (* the entries of the tree around the first entry of the scan *)
  set (k := Z.to_nat i).
  set (m := Z.to_nat (NonLeaf.numOccupied n - i)).
  assert (Hk : i = Z.of_nat k) by lia.
  assert (Hall : allEntries n child =
                 leafEntries child 0 k ++
                 (map (entryAt l) (seq 0 (Z.to_nat ne)) ++
                  map (entryAt l) (seq (Z.to_nat ne) (S (Z.to_nat (Leaf.numOccupied l - ne - 1))))) ++
                 leafEntries child (S k) m).
  { unfold allEntries.
    replace (Z.to_nat (NonLeaf.numOccupied n + 1)) with (k + S m)%nat by lia.
    rewrite leafEntries_app, Nat.add_0_l, leafEntries_cons. rewrite <- Hk. fold l.
    rewrite <- (entriesOf_split l (Z.to_nat ne)) by lia. reflexivity. }
  assert (Hbefore : List.filter (inRange lo lop hi hop) (leafEntries child 0 k) = []).
  { apply filter_none. intros e He. apply in_leafEntries in He.
    destruct He as (j & x & Hj & Hx & ->).
    unfold inRange. cbn [entryAt fst]. rewrite aboveLow_below; [reflexivity|].
    pose proof (tl_key_below s n child HT (Z.of_nat j) (Z.of_nat x) ltac:(lia) ltac:(lia)).
    pose proof (tl_keys_le s n child HT (Z.of_nat j) (i - 1) ltac:(lia) ltac:(lia) ltac:(lia)).
    specialize (Hleft ltac:(lia)). lia. }
  assert (Hbefore' : List.filter (inRange lo lop hi hop)
                       (map (entryAt l) (seq 0 (Z.to_nat ne))) = []).
  { apply filter_none. intros e He. apply in_entries in He. destruct He as (x & Hx & ->).
    unfold inRange. cbn [entryAt fst]. rewrite E3 by lia. reflexivity. }
  assert (Hrest : forall e,
            In e (map (entryAt l) (seq (Z.to_nat ne) (S (Z.to_nat (Leaf.numOccupied l - ne - 1)))) ++
                  leafEntries child (S k) m) ->
            Leaf.keyArray l ne <= fst e).
  { intros e He.
    pose proof (chain_keys_ge s n child HT k (Z.to_nat ne)
                  (Z.to_nat (Leaf.numOccupied l - ne - 1)) m e) as Hge.
    rewrite <- Hk in Hge. fold l in Hge. rewrite Z2Nat.id in Hge by lia.
    apply Hge; [lia|lia|exact He]. }
  assert (Hexp : ridsInRange lo lop hi hop (allEntries n child) =
                 map snd (List.filter (fun e => belowHigh hi hop (fst e))
                   (map (entryAt l) (seq (Z.to_nat ne) (S (Z.to_nat (Leaf.numOccupied l - ne - 1)))) ++
                    leafEntries child (S k) m))).
  { unfold ridsInRange. rewrite Hall.
    rewrite List.filter_app, Hbefore. cbn [app].
    rewrite <- app_assoc, List.filter_app, Hbefore'. cbn [app].
    f_equal. apply List.filter_ext_in. intros e He.
    unfold inRange.
    rewrite (aboveLow_mono lo lop (Leaf.keyArray l ne)); [reflexivity| |exact E2].
    apply Hrest. exact He. }
  rewrite (proj2 (Z.eqb_neq ne (Leaf.numOccupied l))) in Hout by lia.
  cbn [orb] in Hout.
  destruct (belowHigh hi hop (Leaf.keyArray l ne)) eqn:Hfirst; cbn [negb] in Hout;
    destruct Hout as [Hfst Hex]; rewrite Hfst.
  - destruct (drain_chain s n child HT HL hi hop Hsep fuel m
                (Z.to_nat (Leaf.numOccupied l - ne - 1)) k (Z.to_nat ne) (snd r))
      as (D1 & D2 & D3).
    { lia. }
    { rewrite <- Hk. fold l. lia. }
    { apply (f_equal (@length _)) in Hall.
      rewrite !length_app, !length_map, !length_seq in Hall.
      lia. }
    { unfold scanAt. rewrite <- Hk, Z2Nat.id by lia.
      repeat split; assumption. }
    { rewrite <- Hk, Z2Nat.id by lia. exact Hfirst. }
    rewrite <- Hk in D1. fold l in D1.
    rewrite D1, D2, D3, Hexp. repeat split; reflexivity.
  - split; [reflexivity|]. split; [|exact Hex].
    rewrite Hexp, filter_none; [reflexivity|].
    intros e He.
    apply (belowHigh_mono hi hop (Leaf.keyArray l ne)); [|exact Hfirst].
    apply Hrest. exact He.
Qed.

(** ** An index whose root has not split *)

Lemma aboveLow_le (lo : Z) (lop : Operator) (k : Z) :
  aboveLow lo lop k = true -> lo <= k.
Proof.
  unfold aboveLow. destruct (Operator_eqb lop GTE); intros H.
  - apply Z.leb_le in H. exact H.
  - apply Z.ltb_lt in H. lia.
Qed.

(** The constructor on a relation with distinct keys that the leaves below
    one root can hold. *)
Lemma constructor_smallTree (this : BTreeIndex) (bufMgrIn : BufMgr) (relName : string)
    (offset : Z) (attrTy : Datatype) (L N : Z) (rel : list (Z * RecordId)) :
  List.NoDup (map fst rel) ->
  3 <= L -> 1 <= N ->
  Z.of_nat (length rel) <= N * capacityOf L + L ->
  NonLeaf.numOccupied (undefNonLeaf bufMgrIn 4) = 0 ->
  let built := BTreeIndex_new this bufMgrIn None relName offset attrTy L N rel in
  fst built = Ok tt /\
  smallTree (snd built) rel /\
  leafOccupancy (snd built) = L /\ nodeOccupancy (snd built) = N.
Proof.
  intros Hnodup HL HN Hlen Hjunk. cbn zeta. unfold BTreeIndex_new.
  destruct (create_leafTree relName offset attrTy L N rel
              (set_bufMgr (set_pages ∅ bufMgrIn)
                 (set_attrByteOffset offset (set_attributeType attrTy this))))
    as (s0 & l0 & -> & Hleaf & Hnil & E1 & E2).
  { reflexivity. }
  { lia. }
  { exact Hjunk. }
  destruct (insertAll_smallTree rel [] s0) as (F1 & F2 & F3 & F4).
  - left. exists l0. split; [exact Hleaf|]. rewrite Hnil. constructor.
  - lia.
  - lia.
  - rewrite app_nil_r. exact Hnodup.
  - rewrite app_nil_r, E1, E2. exact Hlen.
  - rewrite app_nil_r in F2.
    split; [exact F1|]. split; [exact F2|]. split; congruence.
Qed.

(** The scan of such a tree when every key satisfies the low bound. *)
Lemma scan_smallTree (s : BTreeIndex) (es : list (Z * RecordId))
    (lo : Z) (lop : Operator) (hi : Z) (hop : Operator) (fuel : nat) :
  smallTree s es -> 3 <= leafOccupancy s ->
  lo <= hi -> validOperators lop hop ->
  (forall e, In e es -> aboveLow lo lop (fst e) = true) ->
  (hop = LTE -> ~ In hi (map fst es)) ->
  (length es < fuel)%nat ->
  exists sorted : list (Z * RecordId),
    Permutation sorted es /\ StronglySorted keyOrder sorted /\
    let r := startScan lo lop hi hop s in
    match fst r with
    | Ok _ => fst (drain fuel (snd r)) = Ok (ridsInRange lo lop hi hop sorted) /\
              scanExecuting (snd (drain fuel (snd r))) = true
    | Throw e => e = NoSuchKeyFoundException /\
                 ridsInRange lo lop hi hop sorted = [] /\
                 scanExecuting (snd r) = false
    end.
Proof.
  intros [(l & Hleaf & Hperm)|(n & child & HT & Hperm)] HL Hrange Hops Hlow Hhigh Hfuel.
  - exists (entriesOf l). split; [exact Hperm|].
    split; [apply entriesOf_sorted; apply Hleaf|].
    destruct (scan_root_leaf s l lo lop hi hop fuel (proj1 Hleaf) Hrange Hops) as [_ Hscan].
    { rewrite <- entriesOf_length, (Permutation_length Hperm). exact Hfuel. }
    cbn zeta in *.
    destruct (fst (startScan lo lop hi hop s)) as [u|e].
    + split; apply Hscan.
    + exact Hscan.
  - exists (allEntries n child). split; [exact Hperm|].
    split; [apply (allEntries_sorted s); exact HT|].
    pose proof (tl_count _ _ _ HT) as HN.
    assert (Hin : forall j x, 0 <= j <= NonLeaf.numOccupied n ->
              0 <= x < Leaf.numOccupied (child j) ->
              In (Leaf.keyArray (child j) x, Leaf.ridArray (child j) x) es).
    { intros j x Hj Hx. apply (Permutation_in _ Hperm).
      unfold allEntries. apply leafEntries_in; lia. }
    assert (Hne : forall j, 0 <= j <= NonLeaf.numOccupied n -> 2 <= Leaf.numOccupied (child j)).
    { intros j Hj. apply (tl_nonempty s n child HT HL j Hj). }
    destruct (scan_two_level s n child lo lop hi hop 0 fuel HT HL Hrange Hops)
      as [_ Hscan].
    { lia. }
    { lia. }
    { intros _. rewrite (tl_separator _ _ _ HT 0) by lia.
      apply (aboveLow_le lo lop).
      apply (Hlow _ (Hin (0 + 1) 0 ltac:(lia) ltac:(specialize (Hne (0 + 1)); lia))). }
    { apply (Hlow _ (Hin 0 (Leaf.numOccupied (child 0) - 1) ltac:(lia)
                       ltac:(specialize (Hne 0); lia))). }
    { intros Hop j Hj E. apply (Hhigh Hop).
      rewrite (tl_separator _ _ _ HT j) in E by lia. rewrite <- E.
      apply in_map_iff. eexists. split; [|apply (Hin (j + 1) 0); [lia|specialize (Hne (j + 1)); lia]].
      reflexivity. }
    { rewrite (Permutation_length Hperm). exact Hfuel. }
    cbn zeta in *.
    destruct (fst (startScan lo lop hi hop s)) as [u|e].
    + split; apply Hscan.
    + exact Hscan.
Qed.

(** The driver counts what the drained scan returns. *)
Lemma intScan_counts (s : BTreeIndex) (readRecord : RecordId -> Outcome unit)
    (lo : Z) (lop : Operator) (hi : Z) (hop : Operator) (fuel : nat)
    (expected : list RecordId) :
  (let r := startScan lo lop hi hop s in
   match fst r with
   | Ok _ => fst (drain fuel (snd r)) = Ok expected /\
             scanExecuting (snd (drain fuel (snd r))) = true
   | Throw e => e = NoSuchKeyFoundException /\ expected = [] /\
                scanExecuting (snd r) = false
   end) ->
  (forall rid, In rid expected -> readRecord rid = Ok tt) ->
  let r := intScan fuel readRecord lo lop hi hop s in
  fst r = Ok (Z.of_nat (length expected)) /\
  scanExecuting (snd r) = false.
Proof.
  intros Hscan Hread. cbn zeta in *. unfold intScan.
  destruct (startScan lo lop hi hop s) as [[u|e] s1]; cbn [fst snd] in *.
  - destruct Hscan as (Hd & Hex).
    unfold bind.
    rewrite (intScan_loop_drain readRecord fuel 0 s1 _ Hd Hread).
    unfold endScan. run. rewrite Hex. split; reflexivity.
  - destruct Hscan as (-> & -> & Hex). split; [reflexivity|exact Hex].
Qed.

(** The header page names the root that the first split makes. *)
Lemma insertEntry_leafTree_split_header (s : BTreeIndex) (l : Leaf.t)
    (k : Z) (rid : RecordId) :
  leafTree s l ->
  Leaf.numOccupied l = leafOccupancy s ->
  let s' := snd (insertEntry k rid s) in
  headerPageNum s' = headerPageNum s /\
  rootPageNum s' = nextPageNo (bufMgr s) + 1 /\
  exists m', pages (bufMgr s') !! headerPageNum s' = Some (MetaPage m') /\
             rootPageNo m' = rootPageNum s'.
Proof.
  intros ((Hone & Hpage & Hsib & HN & Hasc) & Hmax & Hnum & [m Hmeta] & Hjunk) Hfull.
  cbn zeta.
  rewrite (insertEntry_root_split_run s l m k rid Hone Hpage Hmeta Hnum ltac:(lia)).
  cbn [snd]. st_simpl.
  split; [reflexivity|]. split; [reflexivity|].
  eexists. split; [apply lookup_insert_eq|]. reflexivity.
Qed.

(** X12: the tree is a root directly above its leaves, well formed, with a
    leaf capacity of at least 3, and it holds fewer entries than the leaves
    below a full root hold at least.  [insertEntry] of a key that is not in
    the tree returns normally and leaves a well-formed tree of the same
    kind whose entries are the old ones and the new pair. *)
Theorem insertion_keeps_tree_of_two_levels (s : BTreeIndex) (n : NonLeaf.t)
    (child : Z -> Leaf.t) (k : Z) (rid : RecordId) :
  twoLevel s n child ->
  3 <= leafOccupancy s ->
  ~ In k (map fst (allEntries n child)) ->
  Z.of_nat (length (allEntries n child)) <
    nodeOccupancy s * capacityOf (leafOccupancy s) + leafOccupancy s ->
  let r := insertEntry k rid s in
  fst r = Ok tt /\
  exists (n' : NonLeaf.t) (child' : Z -> Leaf.t),
    twoLevel (snd r) n' child' /\
    Permutation (allEntries n' child') ((k, rid) :: allEntries n child) /\
    StronglySorted keyOrder (allEntries n' child').
Proof.
  intros HT HL Hnew Hlen. cbn zeta.
  destruct (insertEntry_two_level s n child (allEntries n child) k rid HT HL)
    as (n' & child' & E1 & E2 & E3 & _); try assumption.
  { apply Permutation_refl. }
  split; [exact E1|]. exists n', child'.
  split; [exact E2|]. split; [exact E3|].
  apply (allEntries_sorted (snd (insertEntry k rid s))). exact E2.
Qed.

(** X13: the tree is a single full leaf with ascending keys in a file as the
    constructor leaves it, the leaf capacity is at least 3 and a fresh page
    reads as a node without keys.  [insertEntry] of a key that is not in
    the leaf returns normally and leaves a well-formed root above two
    leaves that hold the old entries and the new pair; the root is a new
    page and the header page names it. *)
Theorem first_split_makes_tree_of_two_levels (s : BTreeIndex) (l : Leaf.t)
    (k : Z) (rid : RecordId) :
  leafTree s l ->
  3 <= leafOccupancy s -> 1 <= nodeOccupancy s ->
  Leaf.numOccupied l = leafOccupancy s ->
  (forall x, 0 <= x < Leaf.numOccupied l -> Leaf.keyArray l x <> k) ->
  let r := insertEntry k rid s in
  fst r = Ok tt /\
  (exists (n' : NonLeaf.t) (child' : Z -> Leaf.t),
     twoLevel (snd r) n' child' /\ NonLeaf.numOccupied n' = 1 /\
     Permutation (allEntries n' child') ((k, rid) :: entriesOf l)) /\
  rootPageNum (snd r) = nextPageNo (bufMgr s) + 1 /\
  exists m', pages (bufMgr (snd r)) !! headerPageNum (snd r) = Some (MetaPage m') /\
             rootPageNo m' = rootPageNum (snd r).
Proof.
  intros Hleaf HL HN Hfull Hnew. cbn zeta.
  destruct (insertEntry_leafTree_split s l k rid Hleaf HL Hfull HN Hnew)
    as (n' & child' & E1 & E2 & E3 & E4 & _).
  destruct (insertEntry_leafTree_split_header s l k rid Hleaf Hfull) as (_ & F2 & F3).
  split; [exact E1|]. split.
  - exists n', child'. split; [exact E2|]. split; [exact E3|exact E4].
  - split; [exact F2|exact F3].
Qed.

(** X14: the tree is a well-formed root directly above its leaves with a
    leaf capacity of at least 3, the scan arguments are valid, the leaf [i]
    that the descent with the low value reaches holds a key that satisfies
    the low bound, and with [LTE] the high value is no key of the root.
    If [startScan] returns, the calls of [scanNext] up to
    [IndexScanCompleted] follow the chain of leaves and return the record
    ids of the entries of the tree whose keys are in the range, in key
    order.  Otherwise [startScan] raises [NoSuchKeyFound], no key is in the
    range and no scan is active. *)
Theorem scan_of_tree_of_two_levels (s : BTreeIndex) (n : NonLeaf.t) (child : Z -> Leaf.t)
    (lo : Z) (lop : Operator) (hi : Z) (hop : Operator) (i : Z) (fuel : nat) :
  twoLevel s n child -> 3 <= leafOccupancy s ->
  lo <= hi -> validOperators lop hop ->
  0 <= i <= NonLeaf.numOccupied n ->
  (0 < i -> NonLeaf.keyArray n (i - 1) < lo) ->
  (i < NonLeaf.numOccupied n -> lo <= NonLeaf.keyArray n i) ->
  aboveLow lo lop (Leaf.keyArray (child i) (Leaf.numOccupied (child i) - 1)) = true ->
  (hop = LTE -> forall j, 0 <= j < NonLeaf.numOccupied n -> NonLeaf.keyArray n j <> hi) ->
  (length (allEntries n child) < fuel)%nat ->
  let started := startScan lo lop hi hop s in
  match fst started with
  | Ok _ => fst (drain fuel (snd started)) =
              Ok (ridsInRange lo lop hi hop (allEntries n child))
  | Throw e => e = NoSuchKeyFoundException /\
               ridsInRange lo lop hi hop (allEntries n child) = [] /\
               scanExecuting (snd started) = false
  end.
Proof.
  intros HT HL Hrange Hops Hi Hleft Hright Hlast Hsep Hfuel. cbn zeta.
  destruct (scan_two_level s n child lo lop hi hop i fuel HT HL Hrange Hops Hi
              Hleft Hright Hlast Hsep Hfuel) as [_ Hscan].
  cbn zeta in Hscan.
  destruct (fst (startScan lo lop hi hop s)) as [u|e]; [apply Hscan|exact Hscan].
Qed.

(** X15: the index file does not exist, the relation holds distinct keys,
    not more than the leaves below one root can hold, the leaf capacity is
    at least 3 and a fresh page reads as a node without keys.  The
    constructor returns normally.  A scan of the new index whose low bound
    every key satisfies and whose high value, with [LTE], is no key,
    drained by [scanNext], returns the record ids of the tuples whose keys
    are in the range, in ascending key order; [startScan] raises
    [NoSuchKeyFound] only if no tuple is in the range. *)
Theorem scan_of_index_built_below_one_root (this : BTreeIndex) (bufMgrIn : BufMgr)
    (relName : string) (offset : Z) (attrTy : Datatype) (L N : Z)
    (rel : list (Z * RecordId))
    (lo : Z) (lop : Operator) (hi : Z) (hop : Operator) (fuel : nat) :
  List.NoDup (map fst rel) ->
  3 <= L -> 1 <= N ->
  Z.of_nat (length rel) <= N * capacityOf L + L ->
  NonLeaf.numOccupied (undefNonLeaf bufMgrIn 4) = 0 ->
  lo <= hi -> validOperators lop hop ->
  (forall e, In e rel -> aboveLow lo lop (fst e) = true) ->
  (hop = LTE -> ~ In hi (map fst rel)) ->
  (length rel < fuel)%nat ->
  let built := BTreeIndex_new this bufMgrIn None relName offset attrTy L N rel in
  let started := startScan lo lop hi hop (snd built) in
  fst built = Ok tt /\
  exists sorted : list (Z * RecordId),
    Permutation sorted rel /\ StronglySorted keyOrder sorted /\
    match fst started with
    | Ok _ => fst (drain fuel (snd started)) = Ok (ridsInRange lo lop hi hop sorted)
    | Throw e => e = NoSuchKeyFoundException /\
                 ridsInRange lo lop hi hop sorted = [] /\
                 scanExecuting (snd started) = false
    end.
Proof.
  intros Hnodup HL HN Hlen Hjunk Hrange Hops Hlow Hhigh Hfuel. cbn zeta.
  destruct (constructor_smallTree this bufMgrIn relName offset attrTy L N rel
              Hnodup HL HN Hlen Hjunk) as (E1 & E2 & E3 & _).
  cbn zeta in *. split; [exact E1|].
  destruct (scan_smallTree _ rel lo lop hi hop fuel E2 ltac:(lia) Hrange Hops Hlow Hhigh Hfuel)
    as (sorted & F1 & F2 & F3).
  exists sorted. split; [exact F1|]. split; [exact F2|].
  cbn zeta in F3.
  destruct (fst (startScan lo lop hi hop _)) as [u|e]; [apply F3|exact F3].
Qed.

(** X16: on the same index and with the same scan arguments the scan driver
    [intScan] of [main.cpp] returns the number of tuples of the relation
    whose keys are in the range, and leaves no scan active. *)
Theorem intScan_of_index_built_below_one_root (this : BTreeIndex) (bufMgrIn : BufMgr)
    (relName : string) (offset : Z) (attrTy : Datatype) (L N : Z)
    (rel : list (Z * RecordId)) (readRecord : RecordId -> Outcome unit)
    (lo : Z) (lop : Operator) (hi : Z) (hop : Operator) (fuel : nat) :
  List.NoDup (map fst rel) ->
  3 <= L -> 1 <= N ->
  Z.of_nat (length rel) <= N * capacityOf L + L ->
  NonLeaf.numOccupied (undefNonLeaf bufMgrIn 4) = 0 ->
  lo <= hi -> validOperators lop hop ->
  (forall e, In e rel -> aboveLow lo lop (fst e) = true) ->
  (hop = LTE -> ~ In hi (map fst rel)) ->
  (forall e, In e rel -> readRecord (snd e) = Ok tt) ->
  (length rel < fuel)%nat ->
  let built := BTreeIndex_new this bufMgrIn None relName offset attrTy L N rel in
  let counted := intScan fuel readRecord lo lop hi hop (snd built) in
  fst built = Ok tt /\
  fst counted = Ok (Z.of_nat (length (List.filter (inRange lo lop hi hop) rel))) /\
  scanExecuting (snd counted) = false.
Proof.
  intros Hnodup HL HN Hlen Hjunk Hrange Hops Hlow Hhigh Hread Hfuel. cbn zeta.
  destruct (constructor_smallTree this bufMgrIn relName offset attrTy L N rel
              Hnodup HL HN Hlen Hjunk) as (E1 & E2 & E3 & _).
  cbn zeta in *. split; [exact E1|].
  destruct (scan_smallTree _ rel lo lop hi hop fuel E2 ltac:(lia) Hrange Hops Hlow Hhigh Hfuel)
    as (sorted & F1 & F2 & F3).
  destruct (intScan_counts _ readRecord lo lop hi hop fuel
              (ridsInRange lo lop hi hop sorted) F3) as [G1 G2].
  { intros rid Hin. apply in_ridsInRange in Hin. destruct Hin as [k Hin].
    apply (Hread (k, rid)). apply (Permutation_in _ F1). exact Hin. }
  cbn zeta in *. split; [|exact G2].
  rewrite G1. unfold ridsInRange. rewrite length_map.
  rewrite (filter_length_Permutation _ _ _ F1). reflexivity.
Qed.

(** ** Instances of the properties of a tree of two levels *)

Lemma twoLevelIndex_numbered : pagesNumbered twoLevelIndex.
Proof.
  intros p.
  replace (size (pages (bufMgr twoLevelIndex))) with 4%nat by (vm_compute; reflexivity).
  split.
  - intros [x Hx]. apply elem_of_map_to_list in Hx.
    apply (list_elem_of_fmap_2 fst) in Hx. cbn [fst] in Hx.
    replace (fst <$> map_to_list (pages (bufMgr twoLevelIndex))) with [3; 4; 2; 1] in Hx
      by (vm_compute; reflexivity).
    repeat (apply elem_of_cons in Hx; destruct Hx as [->|Hx]); try lia.
    apply elem_of_nil in Hx. destruct Hx.
  - intros Hp.
    assert (Hcases : p = 1 \/ p = 2 \/ p = 3 \/ p = 4) by lia.
    destruct Hcases as [->|[->|[->| ->]]]; vm_compute; eexists; reflexivity.
Qed.

Lemma twoLevelIndex_twoLevel :
  twoLevel twoLevelIndex (nonLeafAt twoLevelIndex 4) twoLevelChild.
Proof.
  assert (HN : NonLeaf.numOccupied (nonLeafAt twoLevelIndex 4) = 1) by reflexivity.
  assert (Hcases : forall i, 0 <= i <= 1 -> i = 0 \/ i = 1) by (intros; lia).
  constructor; rewrite ?HN.
  - reflexivity.
  - vm_compute. reflexivity.
  - vm_compute. discriminate.
  - vm_compute. split; discriminate.
  - intros i j Hi Hij Hj. lia.
  - intros i Hi. destruct (Hcases i Hi) as [->| ->]; vm_compute; reflexivity.
  - intros i j Hi Hij Hj. assert (i = 0) by lia. assert (j = 1) by lia. subst.
    vm_compute. discriminate.
  - intros i Hi. destruct (Hcases i Hi) as [->| ->]; vm_compute; split; discriminate.
  - intros i Hi x y Hx Hxy Hy. destruct (Hcases i Hi) as [->| ->].
    + change (Leaf.numOccupied (twoLevelChild 0)) with 2 in Hy.
      assert (x = 0) by lia. assert (y = 1) by lia. subst. vm_compute. reflexivity.
    + change (Leaf.numOccupied (twoLevelChild 1)) with 3 in Hy.
      assert (Hx' : x = 0 \/ x = 1) by lia.
      assert (Hy' : y = 1 \/ y = 2) by lia.
      destruct Hx' as [->| ->], Hy' as [->| ->]; try lia; vm_compute; reflexivity.
  - intros i Hi. assert (i = 0) by lia. subst. vm_compute. reflexivity.
  - intros i Hi. assert (i = 0) by lia. subst. vm_compute. reflexivity.
  - intros i Hi. assert (i = 0) by lia. subst. vm_compute. reflexivity.
  - vm_compute. reflexivity.
  - exact twoLevelIndex_numbered.
Qed.

Lemma tensIndex_leafTree : leafTree (tensIndex 4) (tensLeaf 4).
Proof.
  split; [|split; [cbn; lia|split; [|split; [|reflexivity]]]].
  - split; [reflexivity|]. split; [vm_compute; reflexivity|].
    split; [reflexivity|]. split; [cbn; lia|]. apply tensLeaf_ascending.
  - intros p.
    replace (size (pages (bufMgr (tensIndex 4)))) with 2%nat by (vm_compute; reflexivity).
    split.
    + intros [x Hx]. apply elem_of_map_to_list in Hx.
      apply (list_elem_of_fmap_2 fst) in Hx. cbn [fst] in Hx.
      replace (fst <$> map_to_list (pages (bufMgr (tensIndex 4)))) with [2; 1] in Hx
        by (vm_compute; reflexivity).
      repeat (apply elem_of_cons in Hx; destruct Hx as [->|Hx]); try lia.
      apply elem_of_nil in Hx. destruct Hx.
    + intros Hp. assert (Hcases : p = 1 \/ p = 2) by lia.
      destruct Hcases as [->| ->]; vm_compute; eexists; reflexivity.
  - eexists. vm_compute. reflexivity.
Qed.

Lemma fiveTuples_distinct : List.NoDup (map fst fiveTuples).
Proof. cbn. repeat constructor; cbn; intuition lia. Qed.

Lemma insertion_keeps_tree_of_two_levels_witness :
  fst (insertEntry 6 (ridOf 6) twoLevelIndex) = Ok tt /\
  exists (n' : NonLeaf.t) (child' : Z -> Leaf.t),
    twoLevel (snd (insertEntry 6 (ridOf 6) twoLevelIndex)) n' child' /\
    Permutation (allEntries n' child')
      ((6, ridOf 6) :: allEntries (nonLeafAt twoLevelIndex 4) twoLevelChild).
Proof.
  destruct (insertion_keeps_tree_of_two_levels twoLevelIndex (nonLeafAt twoLevelIndex 4)
              twoLevelChild 6 (ridOf 6) twoLevelIndex_twoLevel)
    as (H1 & n' & child' & H2 & H3 & _).
  - vm_compute. discriminate.
  - vm_compute. intuition discriminate.
  - vm_compute. reflexivity.
  - split; [exact H1|]. exists n', child'. split; [exact H2|exact H3].
Defined.

Lemma first_split_makes_tree_of_two_levels_witness :
  fst (insertEntry 25 (ridOf 25) (tensIndex 4)) = Ok tt /\
  rootPageNum (snd (insertEntry 25 (ridOf 25) (tensIndex 4))) = 4.
Proof.
  destruct (first_split_makes_tree_of_two_levels (tensIndex 4) (tensLeaf 4) 25 (ridOf 25)
              tensIndex_leafTree) as (H1 & _ & H3 & _).
  - vm_compute. discriminate.
  - vm_compute. discriminate.
  - reflexivity.
  - intros x Hx. cbn. lia.
  - split; [exact H1|exact H3].
Defined.

Lemma scan_of_tree_of_two_levels_witness :
  fst (startScan 4 GTE 5 LTE twoLevelIndex) = Ok tt /\
  fst (drain 10 (snd (startScan 4 GTE 5 LTE twoLevelIndex))) = Ok [ridOf 4; ridOf 5].
Proof.
  assert (E : fst (startScan 4 GTE 5 LTE twoLevelIndex) = Ok tt)
    by (vm_compute; reflexivity).
  split; [exact E|].
  pose proof (scan_of_tree_of_two_levels twoLevelIndex (nonLeafAt twoLevelIndex 4)
                twoLevelChild 4 GTE 5 LTE 1 10 twoLevelIndex_twoLevel) as H.
  cbn zeta in H. rewrite E in H. rewrite H.
  - vm_compute. reflexivity.
  - vm_compute. discriminate.
  - lia.
  - split; right; reflexivity.
  - vm_compute. split; discriminate.
  - intros _. vm_compute. reflexivity.
  - vm_compute. intros H0. discriminate H0. 
  - vm_compute. reflexivity.
  - intros _ j Hj.
    change (NonLeaf.numOccupied (nonLeafAt twoLevelIndex 4)) with 1 in Hj.
    assert (j = 0) by lia. subst j. vm_compute. discriminate.
  - vm_compute. lia.
Defined.

Lemma scan_of_index_built_below_one_root_witness :
  fst (BTreeIndex_new rawIndex zeroBufMgr None "relA" 0 INTEGER 4 4 fiveTuples) = Ok tt /\
  exists sorted : list (Z * RecordId),
    Permutation sorted fiveTuples /\ StronglySorted keyOrder sorted /\
    fst (drain 10 (snd (startScan 10 GTE 45 LTE indexOfFiveTuples))) =
      Ok (ridsInRange 10 GTE 45 LTE sorted).
Proof.
  destruct (scan_of_index_built_below_one_root rawIndex zeroBufMgr "relA" 0 INTEGER
              4 4 fiveTuples 10 GTE 45 LTE 10) as (H1 & sorted & H2 & H3 & H4).
  - exact fiveTuples_distinct.
  - lia.
  - lia.
  - vm_compute. discriminate.
  - reflexivity.
  - lia.
  - split; right; reflexivity.
  - intros e He. cbn in He.
    repeat (destruct He as [<-|He]; [reflexivity|]). destruct He.
  - intros _. cbn. intuition lia.
  - cbn. lia.
  - split; [exact H1|]. exists sorted. split; [exact H2|]. split; [exact H3|].
    change (fst (startScan 10 GTE 45 LTE
                   (snd (BTreeIndex_new rawIndex zeroBufMgr None "relA" 0 INTEGER 4 4
                           fiveTuples)))) with (@Ok unit tt) in H4.
    exact H4.
Defined.

Lemma intScan_of_index_built_below_one_root_witness :
  fst (intScan 10 allRecords 10 GTE 45 LTE indexOfFiveTuples) = Ok 4 /\
  scanExecuting (snd (intScan 10 allRecords 10 GTE 45 LTE indexOfFiveTuples)) = false.
Proof.
  destruct (intScan_of_index_built_below_one_root rawIndex zeroBufMgr "relA" 0 INTEGER
              4 4 fiveTuples allRecords 10 GTE 45 LTE 10) as (_ & H2 & H3).
  - exact fiveTuples_distinct.
  - lia.
  - lia.
  - vm_compute. discriminate.
  - reflexivity.
  - lia.
  - split; right; reflexivity.
  - intros e He. cbn in He.
    repeat (destruct He as [<-|He]; [reflexivity|]). destruct He.
  - intros _. cbn. intuition lia.
  - intros e He. reflexivity.
  - cbn. lia.
  - unfold indexOfFiveTuples. split; [rewrite H2; reflexivity|exact H3].
Defined.

(** The index over the five tuples 30, 10, 50, 20, 40 at the capacities 4
    and 4 has the leaves 10, 20 and 30, 40, 50 below a new root: the scan of
    [10, 45] returns the record ids of 10, 20, 30 and 40, and the driver
    counts the four. *)
Example scans_of_five_tuples :
  rootPageNum indexOfFiveTuples = 4 /\
  fst (scanRange 10 GTE 45 LTE indexOfFiveTuples) =
    Ok [ridOf 10; ridOf 20; ridOf 30; ridOf 40] /\
  fst (intScan 10 allRecords 10 GTE 45 LTE indexOfFiveTuples) = Ok 4.
Proof. vm_compute. repeat split; reflexivity. Qed.
